(** * NEST integration layer of the NASDAQ stock agent: a shallow embedding

    The development follows the Python sources under [src/nest]:
    [query_parser.py], [message_formatter.py], [registry.py], [bridge.py]
    and [adapter.py].  Pure functions become functions, the regular
    expressions become values of a small backtracking engine, and the
    asynchronous, exception-raising code becomes a state-and-exception
    monad over an explicit world (HTTP exchanges, sleeps, audit events). *)

From Stdlib Require Import String Ascii.
From Stdlib Require Import DecimalString.
From Stdlib Require Import List NArith ZArith Bool Lia.
Import ListNotations.

Set Implicit Arguments.

(** ** Python text

    A Python [str] is a sequence of Unicode code points.  The character
    tables below are exact on ASCII (code points below 128), on the full
    list of Unicode white space, and on the four non-ASCII letters that
    Python's [re] documents as matching [[A-Z]] under [re.IGNORECASE]:
    U+0130, U+0131, U+017F and U+212A.  Other code points are treated as
    caseless non-word characters; every statement that depends on the word
    or case tables is made for ASCII text. *)

Module Text.

Definition char := N.
Definition str := list char.

Definition lit (s : string) : str :=
  map N_of_ascii (list_ascii_of_string s).
Arguments lit s%_string : simpl never.

Definition in_range (lo hi c : N) : bool := (lo <=? c)%N && (c <=? hi)%N.

Definition is_ascii (c : char) : bool := (c <? 128)%N.

Definition is_upper_az (c : char) : bool := in_range 65 90 c.
Definition is_lower_az (c : char) : bool := in_range 97 122 c.
Definition is_digit_09 (c : char) : bool := in_range 48 57 c.

(** [str.isspace] on one character, which is also the class [\s]. *)
Definition is_space (c : char) : bool :=
  in_range 9 13 c || in_range 28 32 c || (c =? 133)%N || (c =? 160)%N
  || (c =? 5760)%N || in_range 8192 8202 c || (c =? 8232)%N || (c =? 8233)%N
  || (c =? 8239)%N || (c =? 8287)%N || (c =? 12288)%N.

Definition dotless_i : char := 305%N.       (* U+0131 *)
Definition dotted_I : char := 304%N.        (* U+0130 *)
Definition long_s : char := 383%N.          (* U+017F *)
Definition kelvin : char := 8490%N.         (* U+212A *)

Definition is_special_letter (c : char) : bool :=
  (c =? dotted_I)%N || (c =? dotless_i)%N || (c =? long_s)%N || (c =? kelvin)%N.

(** The class [\w]: alphanumerics and the underscore. *)
Definition is_word (c : char) : bool :=
  is_upper_az c || is_lower_az c || is_digit_09 c || (c =? 95)%N
  || is_special_letter c.

(** [str.upper], one character at a time. *)
Definition upper_char (c : char) : char :=
  if is_lower_az c then (c - 32)%N
  else if (c =? dotless_i)%N then 73%N
  else if (c =? long_s)%N then 83%N
  else c.

Definition upper (s : str) : str := map upper_char s.

(** Case folding used by [re.IGNORECASE]: the letters that match a given
    pattern letter are those with the same fold. *)
Definition fold_char (c : char) : char :=
  if is_upper_az c then (c + 32)%N
  else if (c =? dotted_I)%N || (c =? dotless_i)%N then 105%N
  else if (c =? long_s)%N then 115%N
  else if (c =? kelvin)%N then 107%N
  else c.

Fixpoint lstrip (s : str) : str :=
  match s with
  | c :: s' => if is_space c then lstrip s' else s
  | [] => []
  end.

Definition rstrip (s : str) : str := rev (lstrip (rev s)).

(** [str.strip()] *)
Definition strip (s : str) : str := rstrip (lstrip s).

Fixpoint str_eqb (a b : str) : bool :=
  match a, b with
  | [], [] => true
  | x :: a', y :: b' => (x =? y)%N && str_eqb a' b'
  | _, _ => false
  end.

Definition str_in (s : str) (l : list str) : bool := existsb (str_eqb s) l.

(** [sep.join(parts)] *)
Fixpoint join (sep : str) (parts : list str) : str :=
  match parts with
  | [] => []
  | [p] => p
  | p :: ps => p ++ sep ++ join sep ps
  end.

(** [s.replace(c, '')] for a one-character [c]. *)
Definition remove_char (c : char) (s : str) : str :=
  filter (fun x => negb (x =? c)%N) s.

(** [str.isdigit]: non-empty and made of digits. *)
Definition isdigit (s : str) : bool :=
  match s with
  | [] => false
  | _ => forallb is_digit_09 s
  end.

(** [str.lower], one character at a time.  Besides the ASCII capitals only
    U+0130 and U+212A have a lower case that holds an ASCII letter; every
    other character outside ASCII stays outside ASCII, and is left as it is
    here. *)
Definition lower_char (c : char) : list char :=
  if is_upper_az c then [(c + 32)%N]
  else if (c =? dotted_I)%N then [105%N; 775%N]
  else if (c =? kelvin)%N then [107%N]
  else [c].

Definition lower (s : str) : str := flat_map lower_char s.

(** [s.split(sep)] for a one-character separator; [word] holds the
    characters of the current item, last first. *)
Fixpoint split_from (sep : char) (word : str) (s : str) : list str :=
  match s with
  | [] => [rev word]
  | c :: s' =>
    if (c =? sep)%N then rev word :: split_from sep [] s'
    else split_from sep (c :: word) s'
  end.

Definition split (sep : char) (s : str) : list str := split_from sep [] s.

(** [s.rstrip('/')] *)
Fixpoint lstrip_char (x : char) (s : str) : str :=
  match s with
  | c :: s' => if (c =? x)%N then lstrip_char x s' else s
  | [] => []
  end.

Definition rstrip_char (x : char) (s : str) : str := rev (lstrip_char x (rev s)).

End Text.

Import Text.

(** ** A backtracking matcher for the fragment of [re] the sources use

    Patterns are matched the way Python's engine does: leftmost, with
    greedy repetition and ordered alternation.  A state holds the character
    before the current position (for [^] and [\b]), the text still to be
    read and the groups captured so far. *)

Module Regex.

Inductive regex : Type :=
| Eps
| Chr (p : char -> bool)
| Seq (a b : regex)
| Alt (a b : regex)
| Opt (a : regex)
| Rep (p : char -> bool) (lo : nat) (hi : option nat)
| Bol
| Eol
| WordB
| Group (i : nat) (a : regex).

Record mstate : Type := MState {
  prev : option char;
  rest : str;
  caps : list (nat * str)
}.

Definition start (s : str) : mstate := MState None s [].

Fixpoint assoc (i : nat) (l : list (nat * str)) : option str :=
  match l with
  | [] => None
  | (j, t) :: l' => if Nat.eqb i j then Some t else assoc i l'
  end.

(** [m.group(i)] *)
Definition group (i : nat) (st : mstate) : option str := assoc i (caps st).

Definition word_before (st : mstate) : bool :=
  match prev st with Some c => is_word c | None => false end.

Definition word_after (st : mstate) : bool :=
  match rest st with c :: _ => is_word c | [] => false end.

(** [$] without [re.MULTILINE]: the end of the text, or just before a
    newline that ends the text. *)
Definition at_eol (st : mstate) : bool :=
  match rest st with
  | [] => true
  | [c] => (c =? 10)%N
  | _ => false
  end.

Definition bump (i : nat) : option nat -> option nat := option_map (fun n => n - i).

Section Exec.
Variable A : Type.

(** Greedy bounded repetition of a character class: one more character is
    tried first, stopping here is the fallback. *)
Fixpoint rep (p : char -> bool) (lo : nat) (hi : option nat)
    (pv : option char) (s : str) (cs : list (nat * str))
    (k : mstate -> option A) : option A :=
  let stop := match lo with O => k (MState pv s cs) | S _ => None end in
  match hi with
  | Some O => stop
  | _ =>
    match s with
    | c :: s' =>
      if p c then
        match rep p (pred lo) (bump 1 hi) (Some c) s' cs k with
        | Some r => Some r
        | None => stop
        end
      else stop
    | [] => stop
    end
  end.

Fixpoint exec (r : regex) (st : mstate) (k : mstate -> option A) : option A :=
  match r with
  | Eps => k st
  | Chr p =>
    match rest st with
    | c :: s' => if p c then k (MState (Some c) s' (caps st)) else None
    | [] => None
    end
  | Seq a b => exec a st (fun st' => exec b st' k)
  | Alt a b =>
    match exec a st k with
    | Some x => Some x
    | None => exec b st k
    end
  | Opt a =>
    match exec a st k with
    | Some x => Some x
    | None => k st
    end
  | Rep p lo hi => rep p lo hi (prev st) (rest st) (caps st) k
  | Bol => match prev st with None => k st | Some _ => None end
  | Eol => if at_eol st then k st else None
  | WordB => if xorb (word_before st) (word_after st) then k st else None
  | Group i a =>
    exec a st (fun st' =>
      let n := length (rest st) - length (rest st') in
      k (MState (prev st') (rest st') ((i, firstn n (rest st)) :: caps st')))
  end.

End Exec.

(** Match at one position; the result is the state at the end of the match. *)
Definition match_here (r : regex) (st : mstate) : option mstate :=
  exec r st (fun st' => Some st').

(** [re.match(r, s)] *)
Definition re_match (r : regex) (s : str) : option mstate :=
  match_here r (start s).

Fixpoint search_from (r : regex) (pv : option char) (s : str) : option mstate :=
  match match_here r (MState pv s []) with
  | Some st => Some st
  | None =>
    match s with
    | c :: s' => search_from r (Some c) s'
    | [] => None
    end
  end.

(** [re.search(r, s)] *)
Definition re_search (r : regex) (s : str) : option mstate :=
  search_from r None s.

(** [re.findall(r, s)] for a pattern with one group: the group of each
    successive non-overlapping match.  [skip] counts the characters of the
    previous match that are still to be stepped over; a match that consumes
    nothing moves on by one character. *)
Fixpoint findall_from (r : regex) (skip : nat) (pv : option char) (s : str)
  : list str :=
  match skip with
  | S n =>
    match s with
    | c :: s' => findall_from r n (Some c) s'
    | [] => []
    end
  | O =>
    match match_here r (MState pv s []) with
    | Some st =>
      let g := match group 1 st with Some t => t | None => [] end in
      g :: match s with
           | c :: s' =>
             findall_from r (pred (length s - length (rest st))) (Some c) s'
           | [] => []
           end
    | None =>
      match s with
      | c :: s' => findall_from r O (Some c) s'
      | [] => []
      end
    end
  end.

Definition re_findall (r : regex) (s : str) : list str :=
  findall_from r O None s.

(** Pattern syntax: a one-character class, a literal word as written, and
    the same under [re.IGNORECASE]. *)
Definition only (c : string) (x : char) : bool :=
  match lit c with [y] => (x =? y)%N | _ => false end.
Arguments only c%_string x.

Definition is_ci (l : char) (x : char) : bool := (fold_char x =? fold_char l)%N.

Fixpoint seqs (l : list regex) : regex :=
  match l with
  | [] => Eps
  | [r] => r
  | r :: l' => Seq r (seqs l')
  end.

Fixpoint alts (l : list regex) : regex :=
  match l with
  | [] => Eps
  | [r] => r
  | r :: l' => Alt r (alts l')
  end.

Definition word_ci (s : string) : regex :=
  seqs (map (fun l => Chr (is_ci l)) (lit s)).
Arguments word_ci s%_string.

Definition plus (p : char -> bool) : regex := Rep p 1 None.

(** *** Notions used to state what a match guarantees *)

(** The character before the position reached after reading [t]. *)
Definition last_char (t : str) (pv : option char) : option char :=
  match rev t with c :: _ => Some c | [] => pv end.

(** The first group, when set, satisfies [P]. *)
Definition cap_ok (P : str -> Prop) (st : mstate) : Prop :=
  forall t, group 1 st = Some t -> P t.

(** Every group of the pattern is group 1 around a bounded repetition of a
    class, and each text such a repetition can take from [Q]-characters
    satisfies [P]. *)
Fixpoint groups_ok (Q : char -> Prop) (P : str -> Prop) (r : regex) : Prop :=
  match r with
  | Seq a b | Alt a b => groups_ok Q P a /\ groups_ok Q P b
  | Opt a => groups_ok Q P a
  | Group 1 (Rep p lo (Some hi)) =>
    forall t, Forall Q t -> Forall (fun c => p c = true) t ->
              lo <= length t <= hi -> P t
  | Group _ _ => False
  | _ => True
  end.

(** Every path through the pattern reads a character of class [p]. *)
Fixpoint needs (p : char -> bool) (r : regex) : Prop :=
  match r with
  | Chr q => forall c, q c = true -> p c = true
  | Rep q lo _ => 1 <= lo /\ forall c, q c = true -> p c = true
  | Seq a b => needs p a \/ needs p b
  | Alt a b => needs p a /\ needs p b
  | Group _ a => needs p a
  | _ => False
  end.

(** The pattern sets group [i] on every path through it. *)
Fixpoint sets_group (i : nat) (r : regex) : bool :=
  match r with
  | Seq a b => sets_group i a || sets_group i b
  | Alt a b => sets_group i a && sets_group i b
  | Group j a => Nat.eqb i j || sets_group i a
  | _ => false
  end.

(** The state reads [Q]-characters and its first group, if set, is a [P]. *)
Definition inv (Q : char -> Prop) (P : str -> Prop) (st : mstate) : Prop :=
  Forall Q (rest st) /\ cap_ok P st.

End Regex.

Import Regex.

(** ** query_parser.py *)

Module QueryParser.

(** [[A-Z]], as written and under [re.IGNORECASE]. *)
Definition AZ : char -> bool := is_upper_az.
Definition AZ_ci (c : char) : bool := is_lower_az (fold_char c).

(** [[A-Z0-9.]] *)
Definition AZ09dot (c : char) : bool :=
  is_upper_az c || is_digit_09 c || only "." c.

Definition dollar_opt : regex := Opt (Chr (only "$")).

(** [^\$?([A-Z]{1,5})$] *)
Definition direct_pattern : regex :=
  seqs [Bol; dollar_opt; Group 1 (Rep AZ 1 (Some 5)); Eol].

(** [(?:analyze|check|look\s+at|review)\s+\$?([A-Z]{1,5})\b], IGNORECASE *)
Definition analyze_pattern : regex :=
  seqs [alts [word_ci "analyze"; word_ci "check";
              seqs [word_ci "look"; plus is_space; word_ci "at"];
              word_ci "review"];
        plus is_space; dollar_opt; Group 1 (Rep AZ_ci 1 (Some 5)); WordB].

(** [(?:what|how)(?:\s+is|\s+about|\'s)?\s+\$?([A-Z]{1,5})\b], IGNORECASE *)
Definition question_pattern : regex :=
  seqs [alts [word_ci "what"; word_ci "how"];
        Opt (alts [seqs [plus is_space; word_ci "is"];
                   seqs [plus is_space; word_ci "about"];
                   word_ci "'s"]);
        plus is_space; dollar_opt; Group 1 (Rep AZ_ci 1 (Some 5)); WordB].

(** [(?:tell\s+me\s+about|give\s+me\s+info\s+on|show\s+me|info\s+on)\s+\$?([A-Z]{1,5})\b],
    IGNORECASE *)
Definition info_pattern : regex :=
  seqs [alts [seqs [word_ci "tell"; plus is_space; word_ci "me"; plus is_space;
                    word_ci "about"];
              seqs [word_ci "give"; plus is_space; word_ci "me"; plus is_space;
                    word_ci "info"; plus is_space; word_ci "on"];
              seqs [word_ci "show"; plus is_space; word_ci "me"];
              seqs [word_ci "info"; plus is_space; word_ci "on"]];
        plus is_space; dollar_opt; Group 1 (Rep AZ_ci 1 (Some 5)); WordB].

(** [\b\$?([A-Z]{1,5})\b] *)
Definition generic_pattern : regex :=
  seqs [WordB; dollar_opt; Group 1 (Rep AZ 1 (Some 5)); WordB].

(** [^[A-Z][A-Z0-9.]{0,4}$] *)
Definition ticker_pattern : regex :=
  seqs [Bol; Chr AZ; Rep AZ09dot 0 (Some 4); Eol].

Definition common_words : list str :=
  map lit
    ["I"; "A"; "AN"; "THE"; "IS"; "ARE"; "WAS"; "WERE"; "BE"; "BEEN";
     "HAVE"; "HAS"; "HAD"; "DO"; "DOES"; "DID"; "WILL"; "WOULD"; "CAN";
     "COULD"; "MAY"; "MIGHT"; "MUST"; "SHALL"; "SHOULD"; "AM"; "OR";
     "AND"; "BUT"; "IF"; "SO"; "AS"; "AT"; "BY"; "FOR"; "IN"; "OF";
     "ON"; "TO"; "UP"; "IT"; "ME"; "MY"; "WE"; "US"; "YOU"; "HE"; "SHE";
     "HELLO"; "HI"; "THANKS"; "THANK"; "PLEASE"; "YES"; "NO"; "OK"; "OKAY"]%string.

Definition is_valid_ticker (ticker : str) : bool :=
  match ticker with
  | [] => false
  | _ =>
    let ticker := upper (strip ticker) in
    if (length ticker <? 1) || (5 <? length ticker) then false
    else
      match re_match ticker_pattern ticker with
      | None => false
      | Some _ =>
        if isdigit (remove_char 46%N ticker) then false else true
      end
  end.

(** [match.group(1).upper()] *)
Definition group1_upper (m : mstate) : option str :=
  option_map upper (group 1 m).

(** The loop over the matches of the generic pattern. *)
Fixpoint first_ticker (matches : list str) : option str :=
  match matches with
  | [] => None
  | m :: ms =>
    let ticker := upper m in
    if negb (str_in ticker common_words) && is_valid_ticker ticker
    then Some ticker
    else first_ticker ms
  end.

Definition extract_ticker_from_query (query : str) : option str :=
  match query with
  | [] => None
  | _ =>
    let query := strip query in
    match re_match direct_pattern query with
    | Some m => group1_upper m
    | None =>
    match re_search analyze_pattern query with
    | Some m => group1_upper m
    | None =>
    match re_search question_pattern query with
    | Some m => group1_upper m
    | None =>
    match re_search info_pattern query with
    | Some m => group1_upper m
    | None => first_ticker (re_findall generic_pattern query)
    end end end end
  end.

Record query_intent : Type := QueryIntent {
  qi_ticker : option str;
  qi_intent : str;
  qi_valid : bool;
  qi_error : option str
}.

Definition parse_query_intent (query : str) : query_intent :=
  match query with
  | [] => QueryIntent None (lit "analyze") false (Some (lit "Invalid query input"))
  | _ =>
    match extract_ticker_from_query query with
    | None =>
      QueryIntent None (lit "unknown") false
        (Some (lit "No ticker symbol found in query"))
    | Some [] =>
      QueryIntent None (lit "unknown") false
        (Some (lit "No ticker symbol found in query"))
    | Some ticker =>
      if negb (is_valid_ticker ticker) then
        QueryIntent (Some ticker) (lit "analyze") false
          (Some (lit "Invalid ticker symbol: " ++ ticker))
      else
        QueryIntent (Some ticker) (lit "analyze") true None
    end
  end.

Definition cross_mark : str := [10060%N; 32%N].   (* U+274C and a space *)

Definition format_ticker_error (ticker : option str) : str :=
  match ticker with
  | Some ((_ :: _) as t) =>
    cross_mark ++ lit "Invalid ticker symbol '" ++ t ++ lit "'. "
    ++ lit "Please provide a valid NASDAQ ticker symbol (1-5 letters)."
  | _ =>
    cross_mark ++ lit "No ticker symbol found in your query. "
    ++ lit "Please include a valid NASDAQ ticker symbol (e.g., AAPL, TSLA, MSFT)."
  end.

(** *** Notions used in the statements *)

Definition is_ascii_str (s : str) : bool := forallb is_ascii s.

(** One to five ASCII upper-case letters. *)
Definition ascii_ticker (t : str) : bool :=
  (1 <=? length t) && (length t <=? 5) && forallb is_upper_az t.

Definition ascii_char (c : char) : Prop := is_ascii c = true.

(** No white space and no ASCII upper-case letter. *)
Definition no_space_no_upper (q : str) : bool :=
  forallb (fun c => negb (is_space c || is_upper_az c)) q.

Definition letters_ci (t : str) : Prop :=
  1 <= length t <= 5
  /\ Forall (fun c => AZ_ci c = true /\ is_ascii c = true) t.

(** No character that [[A-Z]] matches, with or without [re.IGNORECASE]. *)
Definition no_letter (q : str) : bool := forallb (fun c => negb (AZ_ci c)) q.

(** An upper-case letter followed by at most four upper-case letters,
    digits or dots. *)
Definition ticker_shape (t : str) : bool :=
  match t with
  | c :: r => AZ c && (length r <=? 4) && forallb AZ09dot r
  | [] => false
  end.

(** One to five ASCII letters of either case. *)
Definition ascii_letters (t : str) : bool :=
  (1 <=? length t) && (length t <=? 5)
  && forallb (fun c => is_upper_az c || is_lower_az c) t.

(** No white space. *)
Definition one_token (t : str) : bool := forallb (fun c => negb (is_space c)) t.

End QueryParser.

Import QueryParser.

(** ** Python values, exceptions and effects *)

Module Py.

(** JSON-like values: what [response.json()] can return and what the
    message dictionaries hold.  A dictionary keeps its insertion order. *)
Unset Elimination Schemes.
Inductive pyval : Type :=
| PNone
| PBool (b : bool)
| PInt (z : Z)
| PStr (s : str)
| PList (l : list pyval)
| PDict (d : list (str * pyval)).
Set Elimination Schemes.

Definition dict := list (str * pyval).

(** [bool(v)] *)
Definition truthy (v : pyval) : bool :=
  match v with
  | PNone => false
  | PBool b => b
  | PInt z => negb (z =? 0)%Z
  | PStr s => match s with [] => false | _ => true end
  | PList l => match l with [] => false | _ => true end
  | PDict d => match d with [] => false | _ => true end
  end.

(** [d.get(k)] *)
Fixpoint dict_get (k : str) (d : dict) : option pyval :=
  match d with
  | [] => None
  | (k', v) :: d' => if str_eqb k k' then Some v else dict_get k d'
  end.

(** [k in d] *)
Definition dict_has (k : str) (d : dict) : bool :=
  match dict_get k d with Some _ => true | None => false end.

(** [d[k] = v] *)
Fixpoint dict_set (k : str) (v : pyval) (d : dict) : dict :=
  match d with
  | [] => [(k, v)]
  | (k', v') :: d' =>
    if str_eqb k k' then (k', v) :: d' else (k', v') :: dict_set k v d'
  end.

(** [d.get(k, default)] *)
Definition dict_get_or (k : str) (default : pyval) (d : dict) : pyval :=
  match dict_get k d with Some v => v | None => default end.

(** [a or b] *)
Definition py_or (a b : pyval) : pyval := if truthy a then a else b.

(** [sub in s] for strings *)
Fixpoint prefix_of (a s : str) : bool :=
  match a, s with
  | [], _ => true
  | x :: a', y :: s' => (x =? y)%N && prefix_of a' s'
  | _ :: _, [] => false
  end.

Fixpoint substring_of (a s : str) : bool :=
  prefix_of a s || match s with [] => false | _ :: s' => substring_of a s' end.

Definition pyval_is_str (k : str) (v : pyval) : bool :=
  match v with PStr s => str_eqb k s | _ => false end.

Inductive exn_class : Type :=
| ClientError          (* aiohttp.ClientError and its subclasses *)
| TimeoutError         (* asyncio.TimeoutError *)
| KeyError
| TypeError
| AttributeError
| ValueError           (* includes json.JSONDecodeError *)
| RuntimeError.

Record exn : Type := Exn { exn_cls : exn_class; exn_msg : str }.

Inductive res (A : Type) : Type :=
| Ok (a : A)
| Raise (e : exn).
Arguments Ok {A} a.
Arguments Raise {A} e.

(** [k in v], which raises for values that are not containers *)
Definition py_contains (k : str) (v : pyval) : res bool :=
  match v with
  | PDict d => Ok (dict_has k d)
  | PList l => Ok (existsb (pyval_is_str k) l)
  | PStr s => Ok (substring_of k s)
  | _ => Raise (Exn TypeError (lit "argument is not iterable"))
  end.

(** [v[k]] for a string key *)
Definition py_getitem (k : str) (v : pyval) : res pyval :=
  match v with
  | PDict d =>
    match dict_get k d with
    | Some x => Ok x
    | None => Raise (Exn KeyError k)
    end
  | _ => Raise (Exn TypeError (lit "indices must be integers"))
  end.

(** [v.get(k, default)]: only dictionaries have a [get] method *)
Definition py_get (k : str) (default : pyval) (v : pyval) : res pyval :=
  match v with
  | PDict d => Ok (dict_get_or k default d)
  | _ => Raise (Exn AttributeError (lit "object has no attribute 'get'"))
  end.

(** [v[k] = x] *)
Definition py_setitem (k : str) (x : pyval) (v : pyval) : res pyval :=
  match v with
  | PDict d => Ok (PDict (dict_set k x d))
  | _ => Raise (Exn TypeError (lit "object does not support item assignment"))
  end.

(** [len(v)], which raises for values without a length *)
Definition py_len (v : pyval) : res nat :=
  match v with
  | PStr s => Ok (length s)
  | PList l => Ok (length l)
  | PDict d => Ok (length d)
  | _ => Raise (Exn TypeError (lit "object has no len()"))
  end.

(** [isinstance(v, list)] *)
Definition is_list (v : pyval) : bool :=
  match v with PList _ => true | _ => false end.

(** [str(v)] inside an f-string: the text of a string, of [None] and of a
    boolean; a number or a container is printed as a placeholder. *)
Definition py_str (v : pyval) : str :=
  match v with
  | PStr s => s
  | PNone => lit "None"
  | PBool true => lit "True"
  | PBool false => lit "False"
  | _ => lit "<object>"
  end.

(** *** The world the asynchronous code acts on *)

Record http_request : Type := HttpRequest {
  rq_method : str;
  rq_url : str;
  rq_json : option pyval
}.

(** A response is at hand once its status line and headers have arrived;
    the body is read afterwards, by [response.json()] or [response.text()],
    and either read can raise (the connection is lost, the read times out,
    the bytes cannot be decoded). *)
Record http_response : Type := HttpResponse {
  status : Z;
  json_body : res pyval;     (* [await response.json()] *)
  text_body : res str        (* [await response.text()] *)
}.

(** Modelled from the spec: the audit-logging collaborator
    ([src.services.logging_service], not among the sources) receives one
    structured event per call and does not raise. *)
Record audit_event : Type := AuditEvent {
  ev_kind : str;
  ev_status : str
}.

Inductive io_event : Type :=
| Sent (rq : http_request)       (* one HTTP attempt *)
| Slept (delay : Z)              (* [await asyncio.sleep(delay)] *)
| Logged (ev : audit_event).     (* one audit event *)

Record world : Type := World {
  registered : bool;             (* [RegistryClient._registered] *)
  trace : list io_event          (* what has happened, oldest first *)
}.

Definition fresh : world := World false [].

Definition is_sent (e : io_event) : bool :=
  match e with Sent _ => true | _ => false end.

(** Number of HTTP attempts made so far. *)
Definition sent (w : world) : nat := length (filter is_sent (trace w)).

(** The network answers the [n]-th attempt (counting from 0) with a
    response or with an exception raised by the HTTP client. *)
Definition network := nat -> http_request -> res http_response.

Definition M (A : Type) : Type := world -> res A * world.

Definition ret {A} (a : A) : M A := fun w => (Ok a, w).

Definition bind {A B} (m : M A) (f : A -> M B) : M B :=
  fun w => match m w with
           | (Ok a, w') => f a w'
           | (Raise e, w') => (Raise e, w')
           end.

Definition throw {A} (e : exn) : M A := fun w => (Raise e, w).

Definition lift {A} (r : res A) : M A := fun w => (r, w).

(** [try: body except ...: handler] *)
Definition try_except {A} (body : M A) (handler : exn -> M A) : M A :=
  fun w => match body w with
           | (Ok a, w') => (Ok a, w')
           | (Raise e, w') => handler e w'
           end.

Definition emit (e : io_event) (w : world) : world :=
  World (registered w) (trace w ++ [e]).

Definition session_request (net : network) (rq : http_request)
  : M http_response :=
  fun w => (net (sent w) rq, emit (Sent rq) w).

Definition sleep (delay : Z) : M unit :=
  fun w => (Ok tt, emit (Slept delay) w).

Definition log_event (kind status : string) : M unit :=
  fun w => (Ok tt, emit (Logged (AuditEvent (lit kind) (lit status))) w).

Definition set_registered (b : bool) : M unit :=
  fun w => (Ok tt, World b (trace w)).

Definition get_registered : M bool := fun w => (Ok (registered w), w).

(** *** Notions used to state what a computation leaves alone *)

(** The computation does not change the registered flag. *)
Definition keeps_flag {A} (m : M A) : Prop :=
  forall w, registered (snd (m w)) = registered w.

(** The computation makes no HTTP attempt. *)
Definition sends_nothing {A} (m : M A) : Prop :=
  forall w, sent (snd (m w)) = sent w.

(** The computation returns without raising. *)
Definition never_raises {A} (m : M A) : Prop :=
  forall w, exists a, fst (m w) = Ok a.

End Py.

Import Py.

Declare Scope py_scope.
Delimit Scope py_scope with py.
Notation "x <- m ;; k" := (bind m (fun x => k))
  (at level 61, m at next level, right associativity) : py_scope.
Notation "m ;; k" := (bind m (fun _ => k))
  (at level 61, right associativity) : py_scope.
Open Scope py_scope.

(** ** message_formatter.py *)

Module MessageFormatter.

(** Python floats stay abstract: the analysis model ([src.models.analysis],
    not among the sources) supplies them and the formatter only prints them
    and tests a sign. *)
Record float_ops : Type := FloatOps {
  num : Type;
  fmt_2f : num -> str;        (* [f"{x:.2f}"] *)
  fmt_1f : num -> str;        (* [f"{x:.1f}"] *)
  fmt_0f : num -> str;        (* [f"{x:.0f}"] *)
  nonneg : num -> bool        (* [x >= 0] *)
}.

Section Analysis.
Variable F : float_ops.

Record MarketData : Type := {
  current_price : num F;
  price_change_percentage : num F    (* [get_price_change_percentage()] *)
}.

Record InvestmentRecommendation : Type := {
  recommendation_value : str;        (* [rec.recommendation.value] *)
  confidence_score : num F;
  key_factors : list str;
  risk_assessment : str;
  reasoning : str
}.

Record StockAnalysis : Type := {
  ticker : str;
  company_name : str;
  market_data : option MarketData;
  recommendation : option InvestmentRecommendation;
  summary : str
}.

Definition bullet : str := [8226%N; 32%N].     (* U+2022 and a space *)

Definition market_lines (a : StockAnalysis) : list str :=
  match market_data a with
  | Some md =>
    let price_change := price_change_percentage md in
    let price_change_sign := if nonneg F price_change then lit "+" else [] in
    [lit "Current Price: $" ++ fmt_2f F (current_price md) ++ lit " ("
     ++ price_change_sign ++ fmt_1f F price_change ++ lit "%)"]
  | None => []
  end.

Definition recommendation_lines (a : StockAnalysis) : list str :=
  match recommendation a with
  | Some rc =>
    [lit "AI Recommendation: " ++ upper (recommendation_value rc)
     ++ lit " (Confidence: " ++ fmt_0f F (confidence_score rc) ++ lit "%)";
     []]
    ++ match key_factors rc with
       | [] => []
       | fs => lit "Key Factors:" :: map (fun f => bullet ++ f) fs
       end
    ++ [[]; lit "Risk Assessment: " ++ risk_assessment rc;
        []; lit "Reasoning: " ++ reasoning rc]
  | None => []
  end.

Definition summary_lines (a : StockAnalysis) : list str :=
  match summary a with
  | [] => []
  | s => [[]; lit "Summary: " ++ s]
  end.

Definition newline : str := [10%N].

(** The response dictionary shared by both formatters. *)
Definition a2a_response (text_parts : list str) (conversation_id : str)
    (parent_message_id : option str) : dict :=
  let response :=
    [(lit "role", PStr (lit "agent"));
     (lit "content", PDict [(lit "text", PStr (join newline text_parts));
                            (lit "type", PStr (lit "text"))]);
     (lit "conversation_id", PStr conversation_id)] in
  match parent_message_id with
  | Some ((_ :: _) as pid) => dict_set (lit "parent_message_id") (PStr pid) response
  | _ => response
  end.

Definition format_analysis_response (analysis : StockAnalysis)
    (conversation_id : str) (parent_message_id : option str) (agent_id : str)
  : dict :=
  let text_parts :=
    [lit "[" ++ agent_id ++ lit "] " ++ company_name analysis ++ lit " ("
     ++ ticker analysis ++ lit ") Analysis:"; []]
    ++ market_lines analysis
    ++ recommendation_lines analysis
    ++ summary_lines analysis in
  a2a_response text_parts conversation_id parent_message_id.

End Analysis.

Definition cross_error : str := [32%N; 10060%N; 32%N] ++ lit "Error: ".

Definition format_error_response (error_message : str) (conversation_id : str)
    (parent_message_id : option str) (agent_id : str)
    (error_code : option str) (suggestions : list str) : dict :=
  let text_parts :=
    [lit "[" ++ agent_id ++ lit "]" ++ cross_error ++ error_message]
    ++ match error_code with
       | Some ((_ :: _) as code) => [lit "Error Code: " ++ code]
       | _ => []
       end
    ++ match suggestions with
       | [] => []
       | l => [] :: lit "Suggestions:" :: map (fun s => bullet ++ s) l
       end in
  a2a_response text_parts conversation_id parent_message_id.

Record parsed_message : Type := Parsed {
  p_query : pyval;
  p_conversation_id : pyval;
  p_message_id : pyval;
  p_from_agent_id : pyval;
  p_metadata : pyval
}.

Definition opt_val (o : option pyval) : pyval :=
  match o with Some v => v | None => PNone end.

Definition parse_a2a_message (message : dict) : res parsed_message :=
  let query :=
    match dict_get (lit "content") message with
    | Some (PDict content) => dict_get_or (lit "text") (PStr []) content
    | Some (PStr content) => PStr content
    | _ => PStr []
    end in
  let conversation_id := dict_get_or (lit "conversation_id") (PStr []) message in
  let message_id :=
    py_or (opt_val (dict_get (lit "message_id") message))
          (opt_val (dict_get (lit "id") message)) in
  match dict_get (lit "metadata") message with
  | Some metadata =>
    match py_get (lit "from_agent_id") PNone metadata with
    | Ok from_agent_id =>
      Ok (Parsed query conversation_id message_id from_agent_id metadata)
    | Raise e => Raise e
    end
  | None => Ok (Parsed query conversation_id message_id PNone (PDict []))
  end.

End MessageFormatter.

Import MessageFormatter.

(** ** registry.py *)

Module Registry.

Record RegistryClient : Type := {
  registry_url : str;
  agent_id : str;
  max_retries : Z;
  retry_delay : Z          (* base delay, in seconds *)
}.

Definition outcome_value (o : res http_response) : pyval :=
  match o with
  | Ok resp =>
    if (status resp =? 200)%Z || (status resp =? 201)%Z then
      match json_body resp with Ok v => v | Raise _ => PNone end
    else PNone
  | Raise _ => PNone
  end.

Section Client.
Variable net : network.
Variable now : str.              (* [datetime.utcnow().isoformat()] *)
Variable self : RegistryClient.

Definition request_t := str -> str -> option pyval -> Z -> M pyval.

(** [_retry_request]; the call back into [_make_request] goes through
    [self_make_request].  [retry_count] is at least 1 after the increment,
    so the power of two is a whole number. *)
Definition _retry_request (self_make_request : request_t)
    (method endpoint : str) (data : option pyval) (retry_count : Z) : M pyval :=
  let retry_count := (retry_count + 1)%Z in
  let delay := (retry_delay self * 2 ^ (retry_count - 1))%Z in
  sleep delay ;;
  self_make_request method endpoint data retry_count.

(** The body of [_make_request], [None] being [PNone]. *)
Definition make_request_body (self_make_request : request_t)
    (method endpoint : str) (data : option pyval) (retry_count : Z) : M pyval :=
  let url := registry_url self ++ endpoint in
  try_except
    (response <- session_request net (HttpRequest method url data) ;;
     if (status response =? 200)%Z || (status response =? 201)%Z then
       result <- lift (json_body response) ;;
       ret result
     else
       error_text <- lift (text_body response) ;;
       if (status response >=? 500)%Z && (retry_count <? max_retries self)%Z
       then _retry_request self_make_request method endpoint data retry_count
       else ret PNone)
    (fun e =>
       match exn_cls e with
       | ClientError =>
         if (retry_count <? max_retries self)%Z
         then _retry_request self_make_request method endpoint data retry_count
         else ret PNone
       | TimeoutError =>
         if (retry_count <? max_retries self)%Z
         then _retry_request self_make_request method endpoint data retry_count
         else ret PNone
       | _ => ret PNone
       end).

(** The recursion of [_make_request] through [_retry_request] is on the
    number of retries still allowed. *)
Fixpoint make_request_within (left : nat) : request_t :=
  make_request_body
    (match left with
     | S n => make_request_within n
     | O => fun _ _ _ _ => ret PNone
     end).

Definition _make_request (method endpoint : str) (data : option pyval)
    (retry_count : Z) : M pyval :=
  make_request_within (Z.to_nat (max_retries self - retry_count))
    method endpoint data retry_count.

Definition registration_data (agent_url : str) (capabilities : list str)
    (metadata : dict) : pyval :=
  PDict (fold_left (fun d kv => dict_set (fst kv) (snd kv) d) metadata
           [(lit "agent_id", PStr (agent_id self));
            (lit "agent_url", PStr agent_url);
            (lit "capabilities", PList (map PStr capabilities));
            (lit "status", PStr (lit "healthy"));
            (lit "registered_at", PStr now)]).

Definition register_agent (agent_url : str) (capabilities : list str)
    (metadata : dict) : M bool :=
  try_except
    (response <- _make_request (lit "POST") (lit "/agents/register")
                   (Some (registration_data agent_url capabilities metadata)) 0 ;;
     if truthy response then
       set_registered true ;;
       log_event "register" "success" ;;
       ret true
     else
       log_event "register" "error" ;;
       ret false)
    (fun e =>
       log_event "register" "error" ;;
       ret false).

Definition update_status (status : str) (metadata : option dict) : M bool :=
  try_except
    (let update_data :=
       [(lit "agent_id", PStr (agent_id self));
        (lit "status", PStr status);
        (lit "last_updated", PStr now)] in
     let update_data :=
       match metadata with
       | Some ((_ :: _) as md) =>
         fold_left (fun d kv => dict_set (fst kv) (snd kv) d) md update_data
       | _ => update_data
       end in
     response <- _make_request (lit "PUT")
                   (lit "/agents/" ++ agent_id self ++ lit "/status")
                   (Some (PDict update_data)) 0 ;;
     ret (truthy response))
    (fun e => ret false).

(** [lookup_agent]; the result is the registry's [agent_url] value. *)
Definition lookup_agent (target : str) : M pyval :=
  try_except
    (response <- _make_request (lit "GET") (lit "/agents/" ++ target) None 0 ;;
     has_url <- (if truthy response
                 then lift (py_contains (lit "agent_url") response)
                 else ret false) ;;
     if has_url then
       agent_url <- lift (py_getitem (lit "agent_url") response) ;;
       log_event "lookup" "success" ;;
       ret agent_url
     else
       log_event "lookup" "error" ;;
       ret PNone)
    (fun e =>
       log_event "lookup" "error" ;;
       ret PNone).

Definition is_none (v : pyval) : bool :=
  match v with PNone => true | _ => false end.

Definition deregister : M bool :=
  try_except
    (reg <- get_registered ;;
     if negb reg then ret true
     else
       response <- _make_request (lit "DELETE")
                     (lit "/agents/" ++ agent_id self) None 0 ;;
       if truthy response || is_none response then
         set_registered false ;;
         log_event "deregister" "success" ;;
         ret true
       else
         log_event "deregister" "error" ;;
         ret false)
    (fun e =>
       log_event "deregister" "error" ;;
       ret false).

Definition is_registered : M bool := get_registered.

Definition get_agent_info (target : str) : M pyval :=
  try_except
    (response <- _make_request (lit "GET") (lit "/agents/" ++ target) None 0 ;;
     if truthy response then ret response else ret PNone)
    (fun e => ret PNone).

(** The query parameters of [list_agents], in insertion order. *)
Definition query_params (capability domain : option str) : list (str * str) :=
  match capability with
  | Some ((_ :: _) as c) => [(lit "capability", c)]
  | _ => []
  end
  ++ match domain with
     | Some ((_ :: _) as d) => [(lit "domain", d)]
     | _ => []
     end.

Definition agents_endpoint (capability domain : option str) : str :=
  match query_params capability domain with
  | [] => lit "/agents"
  | params =>
    lit "/agents" ++ lit "?"
    ++ join (lit "&") (map (fun kv => fst kv ++ lit "=" ++ snd kv) params)
  end.

(** [list_agents]; the two log lines print [len(...)] of what is about to
    be returned, which raises for a value without a length. *)
Definition list_agents (capability domain : option str) : M pyval :=
  try_except
    (response <- _make_request (lit "GET") (agents_endpoint capability domain)
                   None 0 ;;
     if truthy response && is_list response then
       lift (py_len response) ;;
       ret response
     else
       has_agents <- (if truthy response
                      then lift (py_contains (lit "agents") response)
                      else ret false) ;;
       if has_agents then
         agents <- lift (py_getitem (lit "agents") response) ;;
         lift (py_len agents) ;;
         ret agents
       else ret (PList []))
    (fun e => ret (PList [])).

Definition heartbeat : M bool := update_status (lit "healthy") None.

(** The requests that [update_status], [lookup_agent] with [get_agent_info],
    and [list_agents] send. *)
Definition update_request (status : str) (metadata : option dict) : http_request :=
  HttpRequest (lit "PUT")
    (registry_url self ++ lit "/agents/" ++ agent_id self ++ lit "/status")
    (Some (PDict
       (let update_data :=
          [(lit "agent_id", PStr (agent_id self));
           (lit "status", PStr status);
           (lit "last_updated", PStr now)] in
        match metadata with
        | Some ((_ :: _) as md) =>
          fold_left (fun d kv => dict_set (fst kv) (snd kv) d) md update_data
        | _ => update_data
        end))).

Definition lookup_request (target : str) : http_request :=
  HttpRequest (lit "GET") (registry_url self ++ lit "/agents/" ++ target) None.

Definition list_request (capability domain : option str) : http_request :=
  HttpRequest (lit "GET") (registry_url self ++ agents_endpoint capability domain)
    None.

(** The requests the two operations send, and what [_make_request] hands
    back for one HTTP outcome when no retry follows it. *)
Definition register_request (agent_url : str) (capabilities : list str)
    (metadata : dict) : http_request :=
  HttpRequest (lit "POST") (registry_url self ++ lit "/agents/register")
    (Some (registration_data agent_url capabilities metadata)).

Definition deregister_request : http_request :=
  HttpRequest (lit "DELETE")
    (registry_url self ++ lit "/agents/" ++ agent_id self) None.

(** What one call of [_make_request] guarantees: the value handed back is
    the one its last attempt determines, the flag is untouched and at
    least one attempt was made. *)
Definition request_post (rq : http_request) (v : pyval) (w w' : world) : Prop :=
  v = outcome_value (net (pred (sent w')) rq)
  /\ registered w' = registered w
  /\ sent w < sent w'.

End Client.

(** [RegistryClient(registry_url, agent_id, max_retries=..., retry_delay=...)] *)
Definition __init__ (registry_url agent_id : str) (max_retries retry_delay : Z)
  : RegistryClient :=
  {| registry_url := rstrip_char 47%N registry_url;
     agent_id := agent_id;
     max_retries := max_retries;
     retry_delay := retry_delay |}.

(** Whether [_make_request] answers an outcome with a retry, as long as
    retries are left: a [ClientError] or a timeout, raised by the request
    or by reading the body (the JSON body of a 200/201 answer, the text of
    any other answer), or a status of 500 or more whose text was read. *)
Definition retries_class (e : exn) : bool :=
  match exn_cls e with
  | ClientError | TimeoutError => true
  | _ => false
  end.

Definition retryable (o : res http_response) : bool :=
  match o with
  | Ok resp =>
    if (status resp =? 200)%Z || (status resp =? 201)%Z then
      match json_body resp with
      | Ok _ => false
      | Raise e => retries_class e
      end
    else
      match text_body resp with
      | Ok _ => (status resp >=? 500)%Z
      | Raise e => retries_class e
      end
  | Raise e => retries_class e
  end.

(** The retries that follow attempt number [k] when [budget] are left. *)
Fixpoint retries (net : network) (rq : http_request) (k budget : nat) : nat :=
  match budget with
  | O => O
  | S b => if retryable (net k rq) then S (retries net rq (S k) b) else O
  end.

(** The events of one request that is retried [n] times, starting with
    retry count [rc]. *)
Fixpoint schedule (rq : http_request) (delay rc : Z) (n : nat) : list io_event :=
  Sent rq ::
  match n with
  | O => []
  | S n' => Slept (delay * 2 ^ rc) :: schedule rq delay (rc + 1) n'
  end.

(** [response["agent_url"]] of a JSON object, [None] for anything else. *)
Definition agent_url_of (v : pyval) : pyval :=
  match v with
  | PDict d => dict_get_or (lit "agent_url") PNone d
  | _ => PNone
  end.

(** The audit event of a lookup that got [v] from the registry. *)
Definition lookup_event (v : pyval) : io_event :=
  Logged (AuditEvent (lit "lookup")
            (match v with
             | PDict d =>
               if dict_has (lit "agent_url") d then lit "success" else lit "error"
             | _ => lit "error"
             end)).

Definition total (l : list Z) : Z := fold_right Z.add 0%Z l.

(** The text of the response can be read. *)
Definition readable (resp : http_response) : bool :=
  match text_body resp with Ok _ => true | Raise _ => false end.

(** A registry that answers every request with status 500 and a body that
    can be read. *)
Definition answers_500 (net : network) : Prop :=
  forall n rq,
    exists resp, net n rq = Ok resp /\ status resp = 500%Z /\ readable resp = true.

(** The audit event of a failed registration. *)
Definition register_failed : io_event :=
  Logged (AuditEvent (lit "register") (lit "error")).

(** The delays slept so far, oldest first. *)
Definition sleeps_of (w : world) : list Z :=
  flat_map (fun e => match e with Slept d => [d] | _ => [] end) (trace w).

End Registry.

(** ** bridge.py *)

Module Bridge.

Record StockAgentBridge : Type := {
  agent_id : str;
  registry_client : option Registry.RegistryClient;
  message_timeout : Z
}.

(** [[\w-]] and [.] *)
Definition word_or_hyphen (c : char) : bool := is_word c || only "-" c.
Definition dot (c : char) : bool := negb (c =? 10)%N.

(** [^@([\w-]+)\s+(.+)$] *)
Definition mention_pattern : regex :=
  seqs [Bol; Chr (only "@"); Group 1 (plus word_or_hyphen); plus is_space;
        Group 2 (plus dot); Eol].

Definition parse_agent_mention (message : str) : option str * str :=
  match re_match mention_pattern (strip message) with
  | Some m =>
    match group 1 m, group 2 m with
    | Some target_agent_id, Some remaining_message =>
      (Some target_agent_id, remaining_message)
    | _, _ => (None, message)
    end
  | None => (None, message)
  end.

(** [str(n)] for an integer *)
Definition show_Z (z : Z) : str := lit (NilZero.string_of_int (Z.to_int z)).

(** [s.rstrip('/')] *)
Fixpoint lstrip_slash (s : str) : str :=
  match s with
  | c :: s' => if only "/" c then lstrip_slash s' else s
  | [] => []
  end.
Definition rstrip_slash (s : str) : str := rev (lstrip_slash (rev s)).

Definition error_dict (error message : str) : pyval :=
  PDict [(lit "error", PStr error); (lit "message", PStr message)].

(** [StockAgentBridge(agent_id, registry_url=..., message_timeout=...)]: a
    registry client of its own is made when a registry URL is given. *)
Definition __init__ (agent_id : str) (registry_url : option str)
    (message_timeout : Z) : StockAgentBridge :=
  {| agent_id := agent_id;
     registry_client :=
       match registry_url with
       | Some ((_ :: _) as url) => Some (Registry.__init__ url agent_id 3 1)
       | _ => None
       end;
     message_timeout := message_timeout |}.

Definition get_capabilities : list str :=
  map lit ["stock_analysis"; "technical_analysis"; "fundamental_analysis";
           "investment_recommendations"; "market_data"]%string.

(** An incoming A2A message that carries a conversation id.  Its
    identifiers are strings, as the parameters of [process_stock_query] are
    typed, and the two message ids are optional; the content and the
    metadata are arbitrary JSON values. *)
Record a2a_message : Type := {
  msg_content : option pyval;
  msg_conversation_id : str;
  msg_message_id : option str;
  msg_id : option str;
  msg_metadata : option pyval
}.

Definition entry (k : string) (v : option pyval) : dict :=
  match v with Some x => [(lit k, x)] | None => [] end.

(** The dictionary that [handle_a2a_message] receives. *)
Definition wire (m : a2a_message) : dict :=
  entry "content" (msg_content m)
  ++ [(lit "conversation_id", PStr (msg_conversation_id m))]
  ++ entry "message_id" (option_map PStr (msg_message_id m))
  ++ entry "id" (option_map PStr (msg_id m))
  ++ entry "metadata" (msg_metadata m).

(** A value of such a message read as the string, or the optional string,
    that it is. *)
Definition str_of (v : pyval) : str :=
  match v with PStr s => s | _ => [] end.

Definition opt_str_of (v : pyval) : option str :=
  match v with PStr s => Some s | _ => None end.

Section Instance.
Variable F : float_ops.
Variable net : network.
Variable now : str.                       (* [datetime.utcnow().isoformat()] *)
Variable new_conversation_id : str.       (* [create_conversation_id()] *)
(** The analysis collaborator: it returns an analysis or raises. *)
Variable perform_complete_analysis : str -> str -> res (StockAnalysis F).
Variable self : StockAgentBridge.

Definition send_to_agent (target_agent_id message : str)
    (conversation_id : option str) (parent_message_id : option str)
    (metadata : dict) : M pyval :=
  try_except
    (match registry_client self with
     | None =>
       ret (error_dict (lit "Registry not configured")
              (lit "Cannot send messages to other agents without registry configuration"))
     | Some client =>
       target_url <- Registry.lookup_agent net client target_agent_id ;;
       if negb (truthy target_url) then
         ret (error_dict (lit "Agent not found")
                (lit "Agent '" ++ target_agent_id
                 ++ lit "' is not registered in the NANDA network"))
       else
         let conversation_id :=
           match conversation_id with
           | Some ((_ :: _) as cid) => cid
           | _ => new_conversation_id
           end in
         let a2a_message :=
           [(lit "role", PStr (lit "user"));
            (lit "content", PDict [(lit "text", PStr message);
                                   (lit "type", PStr (lit "text"))]);
            (lit "conversation_id", PStr conversation_id);
            (lit "metadata",
             PDict (fold_left (fun d kv => dict_set (fst kv) (snd kv) d) metadata
                      [(lit "from_agent_id", PStr (agent_id self));
                       (lit "timestamp", PStr now)]))] in
         let a2a_message :=
           match parent_message_id with
           | Some ((_ :: _) as pid) =>
             dict_set (lit "parent_message_id") (PStr pid) a2a_message
           | _ => a2a_message
           end in
         log_event "agent_forward" "sending" ;;
         try_except
           (base <- match target_url with
                    | PStr u => ret (rstrip_slash u)
                    | _ => throw (Exn AttributeError (lit "object has no attribute 'rstrip'"))
                    end ;;
            let a2a_endpoint := base ++ lit "/a2a" in
            response <- session_request net
                          (HttpRequest (lit "POST") a2a_endpoint
                             (Some (PDict a2a_message))) ;;
            if (status response =? 200)%Z then
              result <- lift (json_body response) ;;
              log_event "agent_forward" "success" ;;
              ret result
            else
              error_text <- lift (text_body response) ;;
              log_event "agent_forward" "error" ;;
              ret (error_dict (lit "HTTP " ++ show_Z (status response))
                     (lit "Agent returned error: " ++ error_text)))
           (fun e =>
              match exn_cls e with
              | TimeoutError =>
                log_event "agent_forward" "timeout" ;;
                ret (error_dict (lit "Timeout")
                       (lit "Agent '" ++ target_agent_id
                        ++ lit "' did not respond within "
                        ++ show_Z (message_timeout self) ++ lit " seconds"))
              | ClientError =>
                log_event "agent_forward" "error" ;;
                ret (error_dict (lit "Connection error")
                       (lit "Failed to connect to agent '" ++ target_agent_id
                        ++ lit "': " ++ exn_msg e))
              | _ => throw e
              end)
     end)
    (fun e =>
       ret (error_dict (lit "Internal error")
              (lit "Unexpected error: " ++ exn_msg e))).

(** [x and (k in x)] *)
Definition truthy_and_contains (k : str) (v : pyval) : M bool :=
  if truthy v then lift (py_contains k v) else ret false.

Definition process_stock_query (query conversation_id : str)
    (parent_message_id : option str) : M pyval :=
  log_event "stock_query" "processing" ;;
  let '(target, remaining_query) := parse_agent_mention query in
  match target with
  | Some ((_ :: _) as target_agent_id) =>
    response <- send_to_agent target_agent_id remaining_query
                  (Some conversation_id) parent_message_id [] ;;
    failed <- truthy_and_contains (lit "error") response ;;
    if failed then
      message <- lift (py_getitem (lit "message") response) ;;
      ret (PDict (format_error_response (py_str message) conversation_id
                    parent_message_id (agent_id self)
                    (Some (lit "AGENT_COMMUNICATION_ERROR"))
                    [lit "Verify that agent '" ++ target_agent_id
                     ++ lit "' is registered and available";
                     lit "Try again later";
                     lit "Contact the agent administrator"]))
    else
      has_content <- truthy_and_contains (lit "content") response ;;
      response <-
        (if has_content then
           content <- lift (py_getitem (lit "content") response) ;;
           original_text <- lift (py_get (lit "text") (PStr []) content) ;;
           content <- lift (py_setitem (lit "text")
                              (PStr (lit "[" ++ agent_id self
                                     ++ lit "] Forwarded to @" ++ target_agent_id
                                     ++ lit ":" ++ [10%N; 10%N]
                                     ++ py_str original_text)) content) ;;
           lift (py_setitem (lit "content") content response)
         else ret response) ;;
      if truthy response then ret response
      else
        ret (PDict (format_error_response
                      (lit "No response received from agent '"
                       ++ target_agent_id ++ lit "'")
                      conversation_id parent_message_id (agent_id self)
                      (Some (lit "NO_RESPONSE")) []))
  | _ =>
    try_except
      (let query_intent := parse_query_intent query in
       if negb (qi_valid query_intent) then
         ret (PDict (format_error_response
                       (format_ticker_error (qi_ticker query_intent))
                       conversation_id parent_message_id (agent_id self)
                       (Some (lit "INVALID_QUERY"))
                       [lit "Provide a valid NASDAQ ticker symbol (e.g., AAPL, TSLA, MSFT)";
                        lit "Use format: 'analyze TICKER' or 'what about TICKER?'"]))
       else
         (* a valid intent always carries its ticker *)
         ticker <- match qi_ticker query_intent with
                   | Some t => ret t
                   | None => throw (Exn KeyError (lit "ticker"))
                   end ;;
         try_except
           (analysis <- lift (perform_complete_analysis ticker query) ;;
            match recommendation analysis with
            | None =>
              ret (PDict (format_error_response
                            (lit "Unable to complete analysis for " ++ ticker
                             ++ lit ". " ++ summary analysis)
                            conversation_id parent_message_id (agent_id self)
                            (Some (lit "ANALYSIS_FAILED"))
                            [lit "Verify the ticker symbol is correct";
                             lit "Try again in a few moments";
                             lit "Check if the stock is actively traded"]))
            | Some _ =>
              let response :=
                format_analysis_response analysis conversation_id
                  parent_message_id (agent_id self) in
              log_event "analysis_response" "success" ;;
              ret (PDict response)
            end)
           (fun analysis_error =>
              log_event "analysis_response" "error" ;;
              ret (PDict (format_error_response
                            (lit "Analysis failed for " ++ ticker ++ lit ": "
                             ++ exn_msg analysis_error)
                            conversation_id parent_message_id (agent_id self)
                            (Some (lit "ANALYSIS_ERROR"))
                            [lit "Verify the ticker symbol is valid";
                             lit "Try again later";
                             lit "Contact support if the issue persists"]))))
      (fun e =>
         log_event "stock_query" "error" ;;
         ret (PDict (format_error_response
                       (lit "Unexpected error: " ++ exn_msg e)
                       conversation_id parent_message_id (agent_id self)
                       (Some (lit "INTERNAL_ERROR"))
                       [lit "Try again later";
                        lit "Contact support if the issue persists"])))
  end.

(** [handle_a2a_message].  A query that is not a string fails in
    [parse_agent_mention], at [message.strip()], after the incoming message
    has been logged. *)
Definition handle_a2a_message (message : a2a_message) : M pyval :=
  let message := wire message in
  try_except
    (parsed <- lift (parse_a2a_message message) ;;
     let conversation_id := str_of (p_conversation_id parsed) in
     let message_id := opt_str_of (p_message_id parsed) in
     match p_query parsed with
     | PStr query => process_stock_query query conversation_id message_id
     | _ =>
       log_event "stock_query" "processing" ;;
       throw (Exn AttributeError (lit "object has no attribute 'strip'"))
     end)
    (fun e =>
       let conversation_id :=
         str_of (dict_get_or (lit "conversation_id") (PStr (lit "unknown"))
                   message) in
       ret (PDict (format_error_response
                     (lit "Failed to process message: " ++ exn_msg e)
                     conversation_id None (agent_id self)
                     (Some (lit "MESSAGE_PROCESSING_ERROR")) []))).

(** The health report of the analysis collaborator: it returns a value or
    raises. *)
Variable get_service_health : res pyval.

(** [get_health_status].  The flag it reports is that of the bridge's own
    registry client, which is what [registered] stands for in a run of the
    bridge; the adapter registers through another client, whose flag this
    one does not follow. *)
Definition get_health_status : M dict :=
  try_except
    (analysis_health <- lift get_service_health ;;
     overall_status <- lift (py_get (lit "overall_status") PNone analysis_health) ;;
     let is_healthy := pyval_is_str (lit "healthy") overall_status in
     let health_status :=
       [(lit "bridge", PStr (lit "StockAgentBridge"));
        (lit "agent_id", PStr (agent_id self));
        (lit "status",
         PStr (if is_healthy then lit "healthy" else lit "degraded"));
        (lit "analysis_service", analysis_health);
        (lit "registry_configured",
         PBool (match registry_client self with Some _ => true | None => false end));
        (lit "timestamp", PStr now)] in
     match registry_client self with
     | Some _ =>
       connected <- get_registered ;;
       ret (dict_set (lit "registry_connected") (PBool connected) health_status)
     | None => ret health_status
     end)
    (fun e =>
       ret [(lit "bridge", PStr (lit "StockAgentBridge"));
            (lit "agent_id", PStr (agent_id self));
            (lit "status", PStr (lit "unhealthy"));
            (lit "error", PStr (exn_msg e));
            (lit "timestamp", PStr now)]).

End Instance.

(** Whether a text begins with [@]. *)
Definition starts_with_at (s : str) : bool :=
  match s with c :: _ => only "@" c | [] => false end.

(** The first line of a response text begins with the tag of the agent. *)
Definition tagged (agent_id : str) (parts : list str) : Prop :=
  match parts with
  | first :: _ => prefix_of (lit "[" ++ agent_id ++ lit "]") first = true
  | [] => False
  end.

(** The audit event at the start of [process_stock_query], and the
    suggestions it attaches to a failed forwarding. *)
Definition processing : io_event :=
  Logged (AuditEvent (lit "stock_query") (lit "processing")).

Definition forwarding_suggestions (target : str) : list str :=
  [lit "Verify that agent '" ++ target ++ lit "' is registered and available";
   lit "Try again later";
   lit "Contact the agent administrator"].

Definition not_a_dict (v : pyval) : bool :=
  match v with PDict _ => false | _ => true end.

End Bridge.

(** ** config.py *)

Module Config.

Record NESTConfig : Type := {
  agent_id : str;
  agent_name : str;
  domain : str;
  specialization : str;
  nest_port : Z;
  public_url : option str;
  registry_url : option str;
  mcp_registry_url : option str;
  enable_nest : bool;
  enable_telemetry : bool;
  enable_dual_mode : bool;
  version : str;
  capabilities : list str;
  description : str;
  expertise : list str;
  anthropic_api_key : option str;
  model : str;
  system_prompt : str
}.

(** [NESTConfig()]: the defaults of the dataclass. *)
Definition defaults : NESTConfig :=
  {| agent_id := lit "nasdaq-stock-agent";
     agent_name := lit "NASDAQ Stock Agent";
     domain := lit "financial analysis";
     specialization := lit "NASDAQ stock analysis and investment recommendations";
     nest_port := 6000;
     public_url := None;
     registry_url := None;
     mcp_registry_url := None;
     enable_nest := false;
     enable_telemetry := true;
     enable_dual_mode := false;
     version := lit "1.0.0";
     capabilities :=
       map lit ["stock_analysis"; "technical_analysis"; "fundamental_analysis";
                "investment_recommendations"; "market_data"]%string;
     description :=
       lit "AI-powered stock analysis agent providing comprehensive investment analysis for NASDAQ stocks";
     expertise :=
       map lit ["NASDAQ stock analysis";
                "Technical indicators (RSI, MACD, Moving Averages)";
                "Fundamental analysis (P/E, EPS, Revenue)";
                "Market sentiment analysis";
                "Investment recommendations (BUY, SELL, HOLD)";
                "Risk assessment";
                "Portfolio optimization"]%string;
     anthropic_api_key := None;
     model := lit "claude-3-sonnet-20240229";
     system_prompt :=
       lit "You are an expert NASDAQ stock analysis agent. Your role is to provide comprehensive, "
       ++ lit "data-driven investment analysis and recommendations for NASDAQ-listed stocks. "
       ++ lit "You analyze technical indicators, fundamental metrics, market trends, and sentiment "
       ++ lit "to deliver actionable insights. Always provide clear reasoning for your recommendations "
       ++ lit "and consider both opportunities and risks. When communicating with other agents, "
       ++ lit "be concise and focus on key insights relevant to their queries." |}.

Definition true_words : list str := map lit ["true"; "1"; "yes"; "on"]%string.

Definition _parse_bool (value : str) : bool := str_in (lower value) true_words.

(** [if not s] for a string *)
Definition blank (s : str) : bool := match s with [] => true | _ => false end.

Definition port_out_of_range (port : Z) : bool :=
  (port <=? 0)%Z || (65535 <? port)%Z.

(** The error messages [validate] collects, in the order of its checks. *)
Definition validation_errors (self : NESTConfig) : list str :=
  (if blank (agent_id self)
   then [lit "NEST_AGENT_ID is required when NEST is enabled"] else [])
  ++ (if blank (agent_name self)
      then [lit "NEST_AGENT_NAME is required when NEST is enabled"] else [])
  ++ (if port_out_of_range (nest_port self)
      then [lit "NEST_PORT must be between 1 and 65535, got "
            ++ Bridge.show_Z (nest_port self)]
      else [])
  ++ (match capabilities self with
      | [] => [lit "Agent must have at least one capability"]
      | _ => []
      end).

Definition validate (self : NESTConfig) : bool * list str :=
  if negb (enable_nest self) then (true, [])
  else
    let errors := validation_errors self in
    let is_valid := Nat.eqb (length errors) 0 in
    (is_valid, errors).

Definition should_enable_nest (self : NESTConfig) : bool :=
  if negb (enable_nest self) then false
  else
    let '(is_valid, errors) := validate self in
    if negb is_valid then false else true.

(** [x or default] for an optional string *)
Definition or_default (x : option str) (default : str) : str :=
  match x with
  | Some ((_ :: _) as v) => v
  | _ => default
  end.

(** [self.public_url or f"http://localhost:{self.nest_port}"] *)
Definition public_url_or_localhost (self : NESTConfig) : str :=
  or_default (public_url self)
    (lit "http://localhost:" ++ Bridge.show_Z (nest_port self)).

Definition opt_str (x : option str) : pyval :=
  match x with Some v => PStr v | None => PNone end.

Definition str_list (l : list str) : pyval := PList (map PStr l).

Definition get_agent_metadata (self : NESTConfig) : dict :=
  [(lit "agent_id", PStr (agent_id self));
   (lit "agent_name", PStr (agent_name self));
   (lit "domain", PStr (domain self));
   (lit "specialization", PStr (specialization self));
   (lit "description", PStr (description self));
   (lit "expertise", str_list (expertise self));
   (lit "registry_url", opt_str (registry_url self));
   (lit "mcp_registry_url", opt_str (mcp_registry_url self));
   (lit "public_url", PStr (public_url_or_localhost self));
   (lit "system_prompt", PStr (system_prompt self));
   (lit "anthropic_api_key", opt_str (anthropic_api_key self));
   (lit "model", PStr (model self));
   (lit "capabilities", str_list (capabilities self));
   (lit "version", PStr (version self));
   (lit "status", PStr (lit "healthy"));
   (lit "port", PInt (nest_port self))].

Definition get_agent_config_for_communication (self : NESTConfig) : dict :=
  [(lit "agent_id", PStr (agent_id self));
   (lit "agent_name", PStr (agent_name self));
   (lit "domain", PStr (domain self));
   (lit "specialization", PStr (specialization self));
   (lit "description", PStr (description self));
   (lit "expertise", str_list (expertise self));
   (lit "public_url", PStr (public_url_or_localhost self));
   (lit "capabilities", str_list (capabilities self));
   (lit "model", PStr (model self));
   (lit "version", PStr (version self))].

Section Environment.
Variable getenv : str -> option str.      (* [os.getenv(name)] *)
Variable int : str -> res Z.              (* the built-in [int] on a string *)

(** [os.getenv(name, default)] *)
Definition getenv_or (name : string) (default : str) : str :=
  match getenv (lit name) with Some v => v | None => default end.

(** [[x.strip() for x in value.split(",")]] when the variable is set and
    not empty, the default otherwise *)
Definition list_or (name : string) (default : list str) : list str :=
  match getenv (lit name) with
  | Some ((_ :: _) as value) => map strip (split 44%N value)
  | _ => default
  end.

Definition from_env : res NESTConfig :=
  let config := defaults in
  match int (getenv_or "NEST_PORT" (Bridge.show_Z (nest_port config))) with
  | Raise e => Raise e
  | Ok port =>
    Ok {| enable_nest := _parse_bool (getenv_or "NEST_ENABLED" (lit "false"));
          enable_telemetry := _parse_bool (getenv_or "NEST_TELEMETRY" (lit "true"));
          enable_dual_mode := _parse_bool (getenv_or "NEST_DUAL_MODE" (lit "false"));
          agent_id := getenv_or "NEST_AGENT_ID" (agent_id config);
          agent_name := getenv_or "NEST_AGENT_NAME" (agent_name config);
          domain := getenv_or "NEST_DOMAIN" (domain config);
          specialization := getenv_or "NEST_SPECIALIZATION" (specialization config);
          nest_port := port;
          public_url := getenv (lit "NEST_PUBLIC_URL");
          registry_url := getenv (lit "NEST_REGISTRY_URL");
          mcp_registry_url := getenv (lit "NEST_MCP_REGISTRY_URL");
          version := getenv_or "NEST_VERSION" (version config);
          description := getenv_or "NEST_DESCRIPTION" (description config);
          capabilities := list_or "NEST_CAPABILITIES" (capabilities config);
          expertise := list_or "NEST_EXPERTISE" (expertise config);
          anthropic_api_key := getenv (lit "ANTHROPIC_API_KEY");
          model := getenv_or "ANTHROPIC_MODEL" (model config);
          system_prompt :=
            or_default (getenv (lit "NEST_SYSTEM_PROMPT")) (system_prompt config) |}
  end.

End Environment.

End Config.

(** ** adapter.py: the heartbeat task and [stop_async]

    The event loop is cooperative: a coroutine runs from one [await] to the
    next, so a task is described by the [await] it is suspended in.  One
    event resumes the heartbeat task when what it waits for has completed,
    one lets a second pass, and one runs [stop_async]. *)

Module Adapter.

Inductive heartbeat_task : Type :=
| Created                       (* scheduled by [asyncio.create_task] *)
| AwaitHealth                   (* in [await self.bridge.get_health_status()] *)
| AwaitUpdate                   (* in [await self.registry_client.update_status(...)] *)
| Sleeping (seconds_left : nat) (* in [await asyncio.sleep(30)] *)
| Finished.

Record StockAgentNEST : Type := {
  has_registry_client : bool;
  _is_running : bool;
  heartbeat : heartbeat_task;
  iterations : nat;               (* loop bodies entered *)
  update_status_calls : nat;
  deregister_calls : nat;
  registry_closed : bool
}.

Definition with_heartbeat (h : heartbeat_task) (a : StockAgentNEST)
  : StockAgentNEST :=
  {| has_registry_client := has_registry_client a;
     _is_running := _is_running a;
     heartbeat := h;
     iterations := iterations a;
     update_status_calls := update_status_calls a;
     deregister_calls := deregister_calls a;
     registry_closed := registry_closed a |}.

(** [while self._is_running:] followed by the first [await] of the body *)
Definition loop_head (a : StockAgentNEST) : StockAgentNEST :=
  if _is_running a then
    {| has_registry_client := has_registry_client a;
       _is_running := _is_running a;
       heartbeat := AwaitHealth;
       iterations := S (iterations a);
       update_status_calls := update_status_calls a;
       deregister_calls := deregister_calls a;
       registry_closed := registry_closed a |}
  else with_heartbeat Finished a.

Definition heartbeat_interval : nat := 30.

(** The heartbeat task runs until its next [await]; [raised] tells whether
    the awaited call raised. *)
Definition _start_heartbeat (raised : bool) (a : StockAgentNEST)
  : StockAgentNEST :=
  match heartbeat a with
  | Created =>
    if has_registry_client a then loop_head a else with_heartbeat Finished a
  | AwaitHealth =>
    if raised then with_heartbeat (Sleeping heartbeat_interval) a
    else
      {| has_registry_client := has_registry_client a;
         _is_running := _is_running a;
         heartbeat := AwaitUpdate;
         iterations := iterations a;
         update_status_calls := S (update_status_calls a);
         deregister_calls := deregister_calls a;
         registry_closed := registry_closed a |}
  | AwaitUpdate => with_heartbeat (Sleeping heartbeat_interval) a
  | Sleeping O => loop_head a
  | Sleeping (S _) => a
  | Finished => a
  end.

Definition tick (a : StockAgentNEST) : StockAgentNEST :=
  match heartbeat a with
  | Sleeping (S n) => with_heartbeat (Sleeping n) a
  | _ => a
  end.

Definition stop_async (a : StockAgentNEST) : StockAgentNEST :=
  if negb (_is_running a) then a
  else
    {| has_registry_client := has_registry_client a;
       _is_running := false;
       heartbeat := heartbeat a;
       iterations := iterations a;
       update_status_calls := update_status_calls a;
       deregister_calls :=
         if has_registry_client a then S (deregister_calls a)
         else deregister_calls a;
       registry_closed := has_registry_client a || registry_closed a |}.

Inductive event : Type :=
| Resume (raised : bool)
| Tick
| Stop.

Definition step (a : StockAgentNEST) (e : event) : StockAgentNEST :=
  match e with
  | Resume raised => _start_heartbeat raised a
  | Tick => tick a
  | Stop => stop_async a
  end.

Definition run (a : StockAgentNEST) (es : list event) : StockAgentNEST :=
  fold_left step es a.

(** Seconds that pass in a run of events, and whether the task is waiting
    for the health status. *)
Definition is_tick (e : event) : bool :=
  match e with Tick => true | _ => false end.

Definition ticks (es : list event) : nat := length (filter is_tick es).

Definition awaiting_health (a : StockAgentNEST) : bool :=
  match heartbeat a with AwaitHealth => true | _ => false end.

(** The seconds of its interval that the task has behind it: a task that
    is about to call [update_status] has all of them, one that has just
    called it has none. *)
Definition elapsed (h : heartbeat_task) : nat :=
  match h with
  | Created | AwaitHealth => heartbeat_interval
  | Sleeping n => heartbeat_interval - n
  | AwaitUpdate | Finished => 0
  end.

(** *** [agent_logic] and the registration, for an adapter made from a
    configuration ([StockAgentNEST(config=...)], as the launcher makes it) *)

Section Logic.
Variable F : float_ops.
Variable net : network.
Variables now new_conversation_id : str.
Variable perform_complete_analysis : str -> str -> res (StockAnalysis F).
Variable str_of_value : pyval -> str.          (* the built-in [str] *)
Variable config : Config.NESTConfig.

(** What [__init__] takes from the configuration, and the two components
    it makes: the bridge, and a registry client when a registry URL is set. *)
Definition agent_id : str := Config.agent_id config.

Definition public_url : str := Config.public_url_or_localhost config.

Definition bridge : Bridge.StockAgentBridge :=
  Bridge.__init__ agent_id (Config.registry_url config) 30.

Definition registry_client : option Registry.RegistryClient :=
  match Config.registry_url config with
  | Some ((_ :: _) as url) => Some (Registry.__init__ url agent_id 3 1)
  | _ => None
  end.

Definition agent_logic (message conversation_id : str) : M pyval :=
  try_except
    (response_dict <- Bridge.process_stock_query net now new_conversation_id
                        perform_complete_analysis bridge
                        message conversation_id None ;;
     match response_dict with
     | PDict d =>
       match dict_get_or (lit "content") (PDict []) d with
       | PDict content =>
         ret (dict_get_or (lit "text") (PStr (str_of_value response_dict)) content)
       | content => ret (PStr (str_of_value content))
       end
     | _ => ret (PStr (str_of_value response_dict))
     end)
    (fun e =>
       ret (PStr (lit "[" ++ agent_id ++ lit "]" ++ [32%N; 10060%N; 32%N]
                  ++ lit "Error processing request: " ++ exn_msg e))).

Definition _register_with_registry : M bool :=
  match registry_client with
  | None => ret true
  | Some client =>
    try_except
      (let metadata := PDict (Config.get_agent_metadata config) in
       agent_name <- lift (py_getitem (lit "agent_name") metadata) ;;
       domain <- lift (py_getitem (lit "domain") metadata) ;;
       specialization <- lift (py_getitem (lit "specialization") metadata) ;;
       description <- lift (py_getitem (lit "description") metadata) ;;
       version <- lift (py_getitem (lit "version") metadata) ;;
       Registry.register_agent net now client public_url
         (Config.capabilities config)
         [(lit "agent_name", agent_name);
          (lit "domain", domain);
          (lit "specialization", specialization);
          (lit "description", description);
          (lit "version", version)])
      (fun e => ret false)
  end.

Definition get_agent_config : dict := Config.get_agent_metadata config.

(** The metadata that [_register_with_registry] hands to [register_agent]. *)
Definition registration_metadata : dict :=
  [(lit "agent_name", PStr (Config.agent_name config));
   (lit "domain", PStr (Config.domain config));
   (lit "specialization", PStr (Config.specialization config));
   (lit "description", PStr (Config.description config));
   (lit "version", PStr (Config.version config))].

End Logic.

End Adapter.

(** ** launcher.py and health.py: the callers of the adapter *)

Module Launcher.

Inductive mode : Type := Standalone | Nest | Dual.

(** What [main] comes to: the mode whose servers were started, if any, and
    the status passed to [sys.exit], if it is called. *)
Record outcome : Type := {
  started : option mode;
  exit_status : option Z
}.

Section Main.
Variable getenv : str -> option str.      (* [os.getenv(name)] *)
Variable int : str -> res Z.              (* the built-in [int] on a string *)
(** Running the servers of a mode until the shutdown, on a launcher that is
    not running yet: the part of [start_standalone], [start_nest] and
    [start_dual] inside their [try], which ends normally or raises. *)
Variable serve : mode -> res unit.

Definition not_enabled : exn :=
  Exn RuntimeError
    (lit "NEST is not enabled or configuration is invalid. "
     ++ lit "Set NEST_ENABLED=true and provide valid configuration.").

Definition start_standalone : res unit * option mode :=
  (serve Standalone, Some Standalone).

Definition start_nest (config : Config.NESTConfig) : res unit * option mode :=
  if negb (Config.should_enable_nest config) then (Raise not_enabled, None)
  else (serve Nest, Some Nest).

Definition start_dual (config : Config.NESTConfig) : res unit * option mode :=
  if negb (Config.should_enable_nest config) then (Raise not_enabled, None)
  else (serve Dual, Some Dual).

Definition main : outcome :=
  match Config.from_env getenv int with
  | Raise e => {| started := None; exit_status := Some 1%Z |}
  | Ok config =>
    let '(result, mode) :=
      if Config.enable_dual_mode config then start_dual config
      else if Config.should_enable_nest config then start_nest config
      else start_standalone in
    {| started := mode;
       exit_status := match result with Ok _ => None | Raise _ => Some 1%Z end |}
  end.

End Main.

End Launcher.

Module Health.

(** [GET /nest/config]; [nest_adapter] is what [get_nest_adapter()]
    returns, an adapter being given by its configuration. *)
Definition nest_agent_config (nest_adapter : option Config.NESTConfig)
    (now : str) : dict :=
  match nest_adapter with
  | None =>
    [(lit "status", PStr (lit "disabled"));
     (lit "message",
      PStr (lit "NEST integration is not enabled. Set NEST_ENABLED=true to enable."));
     (lit "timestamp", PStr now)]
  | Some config =>
    let agent_config := Adapter.get_agent_config config in
    [(lit "success", PBool true);
     (lit "agent_config", PDict agent_config);
     (lit "timestamp", PStr now)]
  end.

End Health.

(** ** Concrete scenarios used as witnesses and counterexamples *)

Module Scenario.
Import Registry.

Definition client : RegistryClient :=
  {| registry_url := lit "http://registry:6900";
     agent_id := lit "stock-agent";
     max_retries := 3;
     retry_delay := 1 |}.

Definition answer (st : Z) (body : pyval) : res http_response :=
  Ok (HttpResponse st (Ok body) (Ok [])).

(** A registry that gives the same answer to every request. *)
Definition always (st : Z) (body : pyval) : network := fun _ _ => answer st body.

Definition ok_body : pyval := PDict [(lit "status", PStr (lit "ok"))].

(** A registry that loses the body of its first answer, a 404, and then
    answers 200 with [body]. *)
Definition lost_then (body : pyval) : network :=
  fun n _ =>
    match n with
    | O => Ok (HttpResponse 404
                 (Raise (Exn ClientError (lit "Response payload is not completed")))
                 (Raise (Exn ClientError (lit "Response payload is not completed"))))
    | S _ => answer 200 body
    end.

(** A registry whose answers have status [st] and a body that cannot be
    read: the read raises an exception of class [cls], as when the
    connection is lost before the body has arrived. *)
Definition body_lost (st : Z) (cls : exn_class) : network :=
  fun _ _ =>
    Ok (HttpResponse st
          (Raise (Exn cls (lit "Response payload is not completed")))
          (Raise (Exn cls (lit "Response payload is not completed")))).

(** A registry that accepts the first request and answers 404 afterwards. *)
Definition accept_once : network :=
  fun n _ => match n with O => answer 200 ok_body | S _ => answer 404 PNone end.

Definition now : str := lit "2024-11-12T10:30:45".
Definition url : str := lit "https://stock-agent.example.com:6000".

(** A bridge with a registry, a registry that knows the target agent, and
    a peer that answers the forwarded message with [reply]. *)
Definition bridge : Bridge.StockAgentBridge :=
  {| Bridge.agent_id := lit "stock-agent";
     Bridge.registry_client := Some client;
     Bridge.message_timeout := 30 |}.

Definition peer_answers (reply : pyval) : network :=
  fun n _ =>
    match n with
    | O => answer 200 (PDict [(lit "agent_url", PStr (lit "http://advisor:6000"))])
    | S _ => answer 200 reply
    end.

(** A reply in the wire format. *)
Definition wire_reply : pyval :=
  PDict [(lit "role", PStr (lit "agent"));
         (lit "content", PDict [(lit "text", PStr (lit "Buy recommendation"));
                                (lit "type", PStr (lit "text"))]);
         (lit "conversation_id", PStr (lit "conv-123"))].

(** A reply whose content is a bare string, which [parse_a2a_message]
    accepts as a message. *)
Definition bare_reply : pyval :=
  PDict [(lit "role", PStr (lit "agent"));
         (lit "content", PStr (lit "Buy recommendation"));
         (lit "conversation_id", PStr (lit "conv-123"))].

(** A reply that reports an error without a message. *)
Definition error_reply : pyval := PDict [(lit "error", PStr (lit "busy"))].

Definition floats : float_ops :=
  {| num := Z;
     fmt_2f := fun z => Bridge.show_Z z ++ lit ".00";
     fmt_1f := fun z => Bridge.show_Z z ++ lit ".0";
     fmt_0f := Bridge.show_Z;
     nonneg := fun z => (0 <=? z)%Z |}.

Definition no_analysis (ticker query : str) : res (StockAnalysis floats) :=
  Raise (Exn RuntimeError (lit "analysis service unavailable")).

(** An analysis collaborator that recommends BUY at 85% confidence. *)
Definition buy_analysis : StockAnalysis floats :=
  @Build_StockAnalysis floats (lit "AAPL") (lit "Apple Inc.")
    (Some (@Build_MarketData floats 150%Z 2%Z))
    (Some (@Build_InvestmentRecommendation floats (lit "buy") 85%Z
             [lit "Strong earnings"] (lit "Moderate") (lit "Solid fundamentals")))
    (lit "Looks good").

Definition recommends_buy (ticker query : str) : res (StockAnalysis floats) :=
  Ok buy_analysis.

(** [response["content"]["text"]] of an outcome, empty when there is none. *)
Definition text_of (r : res pyval) : str :=
  match r with
  | Ok (PDict d) =>
    match dict_get (lit "content") d with
    | Some (PDict c) =>
      match dict_get (lit "text") c with Some (PStr t) => t | _ => [] end
    | _ => []
    end
  | _ => []
  end.

Definition mention_query : str := lit "@financial-advisor Should I buy AAPL?".

Definition process (net : network) (query : str) : M pyval :=
  Bridge.process_stock_query net now (lit "conv-20241112-103045-abc12345")
    no_analysis bridge query (lit "conv-123") (Some (lit "msg-456")).

Definition register (net : network) : M bool :=
  Registry.register_agent net now client url [lit "stock_analysis"] [].

(** A running adapter whose heartbeat task is in its sleep, or waiting for
    the health status. *)
Definition sleeping_adapter : Adapter.StockAgentNEST :=
  {| Adapter.has_registry_client := true;
     Adapter._is_running := true;
     Adapter.heartbeat := Adapter.Sleeping 30;
     Adapter.iterations := 1;
     Adapter.update_status_calls := 1;
     Adapter.deregister_calls := 0;
     Adapter.registry_closed := false |}.

Definition probing_adapter : Adapter.StockAgentNEST :=
  Adapter.with_heartbeat Adapter.AwaitHealth sleeping_adapter.

(** A bridge made without a registry URL, and one made with it. *)
Definition lone_bridge : Bridge.StockAgentBridge :=
  Bridge.__init__ (lit "stock-agent") None 30.

Definition linked_bridge : Bridge.StockAgentBridge :=
  Bridge.__init__ (lit "stock-agent") (Some (lit "http://registry:6900/")) 30.

Definition ask (self : Bridge.StockAgentBridge) (net : network) (query : str)
  : M pyval :=
  Bridge.process_stock_query net now (lit "conv-20241112-103045-abc12345")
    recommends_buy self query (lit "conv-123") (Some (lit "msg-456")).

(** A message whose metadata is a string. *)
Definition odd_message : Bridge.a2a_message :=
  {| Bridge.msg_content := Some (PDict [(lit "text", PStr (lit "analyze AAPL"))]);
     Bridge.msg_conversation_id := lit "conv-123";
     Bridge.msg_message_id := None;
     Bridge.msg_id := None;
     Bridge.msg_metadata := Some (PStr (lit "from advisor")) |}.

(** An environment that asks for the dual mode and says nothing else, and
    one that enables NEST with a list of capabilities. *)
Definition dual_only (name : str) : option str :=
  if str_eqb name (lit "NEST_DUAL_MODE") then Some (lit "true") else None.

Definition nest_env (name : str) : option str :=
  if str_eqb name (lit "NEST_ENABLED") then Some (lit "TRUE")
  else if str_eqb name (lit "NEST_CAPABILITIES") then Some (lit "quotes, news")
  else None.

(** [int] on the decimal numerals the scenarios use. *)
Definition int (s : str) : res Z :=
  if str_eqb s (lit "6000") then Ok 6000%Z
  else Raise (Exn ValueError (lit "invalid literal for int()")).

Definition serves (m : Launcher.mode) : res unit := Ok tt.

(** An adapter that was never given a registry. *)
Definition offline_adapter : Adapter.StockAgentNEST :=
  {| Adapter.has_registry_client := false;
     Adapter._is_running := true;
     Adapter.heartbeat := Adapter.Created;
     Adapter.iterations := 0;
     Adapter.update_status_calls := 0;
     Adapter.deregister_calls := 0;
     Adapter.registry_closed := false |}.

End Scenario.

Unset Implicit Arguments.

(** * Properties of the matcher *)

Module RegexFacts.

Section Rep.
Variable A : Type.
Variable p : char -> bool.

Lemma last_char_cons c t pv : last_char (c :: t) pv = last_char t (Some c).
Proof.
  unfold last_char. simpl. destruct (rev t) as [|x l] eqn:E; simpl; reflexivity.
Qed.

(** Whatever a repetition hands to its continuation is a split of the
    text into a run of class characters, within the bounds, and the rest. *)
Lemma rep_sound (k : mstate -> option A) res cs : forall s lo hi pv,
  rep p lo hi pv s cs k = Some res ->
  exists t s',
    s = t ++ s' /\ Forall (fun c => p c = true) t
    /\ lo <= length t /\ (forall h, hi = Some h -> length t <= h)
    /\ k (MState (last_char t pv) s' cs) = Some res.
Proof.
  assert (Stop : forall s lo hi pv,
    match lo with O => k (MState pv s cs) | S _ => None end = Some res ->
    exists t s',
      s = t ++ s' /\ Forall (fun c => p c = true) t
      /\ lo <= length t /\ (forall h, hi = Some h -> length t <= h)
      /\ k (MState (last_char t pv) s' cs) = Some res).
  { intros s lo hi pv H. destruct lo; [|discriminate].
    exists [], s. simpl. repeat split; auto. intros; lia. }
  induction s as [|c s IH]; intros lo hi pv H.
  - simpl in H. destruct hi as [[|h]|]; auto.
  - simpl in H. destruct hi as [[|h]|]; auto.
    + destruct (p c) eqn:Pc; auto.
      destruct (rep p (pred lo) (bump 1 (Some (S h))) (Some c) s cs k) eqn:R; auto.
      injection H as <-. apply IH in R.
      destruct R as (t & s' & -> & F & L & B & K).
      exists (c :: t), s'. rewrite last_char_cons. simpl.
      repeat split; auto; try lia.
      intros h' [= <-]. specialize (B (h - 0) eq_refl). lia.
    + destruct (p c) eqn:Pc; auto.
      destruct (rep p (pred lo) (bump 1 None) (Some c) s cs k) eqn:R; auto.
      injection H as <-. apply IH in R.
      destruct R as (t & s' & -> & F & L & B & K).
      exists (c :: t), s'. rewrite last_char_cons. simpl.
      repeat split; auto; try lia. discriminate.
Qed.

(** A repetition that may stop at once fails only if its continuation
    fails where it stands. *)
Lemma rep_none_stop (k : mstate -> option A) cs s hi pv :
  rep p 0 hi pv s cs k = None -> k (MState pv s cs) = None.
Proof.
  destruct s as [|c s]; simpl; destruct hi as [[|h]|]; auto;
    destruct (p c); auto;
    match goal with |- context [match ?x with _ => _ end] => destruct x end;
    auto; discriminate.
Qed.

(** Greediness of an unbounded repetition: the split it settles on cannot
    be extended by one more class character. *)
Lemma rep_greedy (k : mstate -> option A) res cs : forall s lo pv,
  rep p lo None pv s cs k = Some res ->
  exists t s',
    s = t ++ s' /\ Forall (fun c => p c = true) t /\ lo <= length t
    /\ k (MState (last_char t pv) s' cs) = Some res
    /\ match s' with
       | c :: s'' => p c = true -> k (MState (Some c) s'' cs) = None
       | [] => True
       end.
Proof.
  induction s as [|c s IH]; intros lo pv H; simpl in H.
  - destruct lo; [|discriminate]. exists [], []. simpl. repeat split; auto.
  - destruct (p c) eqn:Pc.
    + match type of H with
      | context [rep ?a ?b ?c ?d ?e ?f ?g] => destruct (rep a b c d e f g) eqn:R
      end.
      * injection H as <-. apply IH in R.
        destruct R as (t & s' & -> & F & L & K & G).
        exists (c :: t), s'. rewrite last_char_cons. simpl.
        repeat split; auto; lia.
      * destruct lo; [|discriminate]. exists [], (c :: s). simpl.
        repeat split; auto. intros _. simpl in R.
        apply rep_none_stop in R. exact R.
    + destruct lo; [|discriminate]. exists [], (c :: s). simpl.
      repeat split; auto. rewrite Pc. discriminate.
Qed.

(** A run of class characters that fits the bounds and ends the text is
    taken whole. *)
Lemma rep_whole (k : mstate -> option A) res cs : forall t lo hi pv,
  Forall (fun c => p c = true) t -> lo <= length t ->
  (forall h, hi = Some h -> length t <= h) ->
  k (MState (last_char t pv) [] cs) = Some res ->
  rep p lo hi pv t cs k = Some res.
Proof.
  induction t as [|c t IH]; intros lo hi pv F L B K.
  - simpl in *. assert (lo = 0) by lia. subst lo.
    destruct hi as [[|h]|]; exact K.
  - inversion F as [|? ? Pc F']; subst. simpl.
    destruct hi as [[|h]|].
    + specialize (B 0 eq_refl). simpl in B. lia.
    + rewrite Pc. rewrite (IH (pred lo) (bump 1 (Some (S h))) (Some c)); auto.
      * simpl in L. lia.
      * intros h' [= <-]. specialize (B (S h) eq_refl). simpl in B. lia.
      * rewrite last_char_cons in K. exact K.
    + rewrite Pc. rewrite (IH (pred lo) (bump 1 None) (Some c)); auto.
      * simpl in L. lia.
      * discriminate.
      * rewrite last_char_cons in K. exact K.
Qed.

End Rep.

Section Invariant.
Variable A : Type.
Variable Q : char -> Prop.
Variable P : str -> Prop.

Lemma firstn_split (t s' : str) :
  firstn (length (t ++ s') - length s') (t ++ s') = t.
Proof.
  rewrite length_app. replace (length t + length s' - length s') with (length t) by lia.
  rewrite firstn_app, Nat.sub_diag, firstn_all. simpl. apply app_nil_r.
Qed.

(** A successful match leads its continuation to a state that again reads
    [Q]-characters and whose first group, if set, satisfies [P]. *)
Lemma exec_inv r : groups_ok Q P r ->
  forall st (k : mstate -> option A) res,
    exec r st k = Some res -> inv Q P st ->
    exists st', inv Q P st' /\ k st' = Some res.
Proof.
  induction r as [|p|a IHa b IHb|a IHa b IHb|a IHa|p lo hi| | | |i a IHa];
    intros G st k res E I.
  - eauto.
  - simpl in E. destruct I as [IQ IC]. destruct (rest st) as [|c s'] eqn:R; [discriminate|].
    destruct (p c); [|discriminate].
    eexists; split; [|exact E]. split; simpl.
    + inversion IQ; assumption.
    + exact IC.
  - simpl in E. destruct G as [Ga Gb].
    destruct (IHa Ga _ _ _ E I) as (st1 & I1 & E1). eauto.
  - simpl in E. destruct G as [Ga Gb].
    destruct (exec a st k) eqn:Ea.
    + injection E as <-. eauto.
    + eauto.
  - simpl in E. destruct (exec a st k) eqn:Ea.
    + injection E as <-. eauto.
    + eauto.
  - simpl in E. destruct I as [IQ IC]. apply rep_sound in E.
    destruct E as (t & s' & R & F & L & B & K).
    eexists; split; [|exact K]. split; simpl.
    + rewrite R in IQ. apply Forall_app in IQ. tauto.
    + exact IC.
  - simpl in E. destruct (prev st); [discriminate|]. eauto.
  - simpl in E. destruct (at_eol st); [|discriminate]. eauto.
  - simpl in E. destruct (xorb _ _); [|discriminate]. eauto.
  - destruct i as [|[|i]]; try contradiction.
    destruct a as [| | | | |p lo hi| | | |]; try contradiction.
    destruct hi as [h|]; try contradiction.
    simpl in E, G. destruct I as [IQ IC]. apply rep_sound in E.
    destruct E as (t & s' & R & F & L & B & K). simpl in K.
    rewrite R, firstn_split in K. rewrite R in IQ. apply Forall_app in IQ.
    eexists; split; [|exact K]. split; simpl; [tauto|].
    intros t'. unfold group; simpl. intros [= <-].
    apply G; [tauto | assumption | split; [exact L | exact (B h eq_refl)]].
Qed.

End Invariant.

Lemma match_here_inv Q P r st st' :
  groups_ok Q P r -> match_here r st = Some st' -> inv Q P st -> inv Q P st'.
Proof.
  intros G E I. unfold match_here in E.
  destruct (exec_inv _ Q P r G st _ _ E I) as (st1 & I1 & [= <-]). exact I1.
Qed.

Lemma inv_start Q P pv s : Forall Q s -> inv Q P (MState pv s []).
Proof. intros F. split; [exact F|]. intros t. discriminate. Qed.

(** [re.match] and [re.search]: the first group of a match satisfies [P]. *)
Lemma re_match_group Q P r s st t :
  groups_ok Q P r -> Forall Q s ->
  re_match r s = Some st -> group 1 st = Some t -> P t.
Proof.
  intros G F E. apply (match_here_inv Q P r _ _ G E). apply inv_start, F.
Qed.

Lemma search_from_group Q P r : groups_ok Q P r ->
  forall s pv st t, Forall Q s ->
    search_from r pv s = Some st -> group 1 st = Some t -> P t.
Proof.
  intros G. induction s as [|c s IH]; intros pv st t F E; simpl in E.
  - destruct (match_here r (MState pv [] [])) eqn:M; [|discriminate].
    injection E as <-. apply (match_here_inv Q P r _ _ G M). apply inv_start, F.
  - destruct (match_here r (MState pv (c :: s) [])) eqn:M.
    + injection E as <-. apply (match_here_inv Q P r _ _ G M). apply inv_start, F.
    + inversion F; subst. eapply IH; eassumption.
Qed.

Lemma re_search_group Q P r s st t :
  groups_ok Q P r -> Forall Q s ->
  re_search r s = Some st -> group 1 st = Some t -> P t.
Proof. intros G F. exact (search_from_group Q P r G s None st t F). Qed.

Section Continue.
Variable A : Type.

(** A success of [exec] is a success of its continuation, further on in
    the text. *)
Lemma exec_continues r : forall st (k : mstate -> option A) res,
  exec r st k = Some res ->
  exists st' t, rest st = t ++ rest st' /\ k st' = Some res.
Proof.
  induction r as [|p|a IHa b IHb|a IHa b IHb|a IHa|p lo hi| | | |i a IHa];
    intros st k res E; simpl in E.
  - exists st, []. auto.
  - destruct (rest st) as [|c s'] eqn:R; [discriminate|].
    destruct (p c); [|discriminate].
    eexists _, [c]. split; [|exact E]. reflexivity.
  - destruct (IHa _ _ _ E) as (st1 & t1 & R1 & E1).
    destruct (IHb _ _ _ E1) as (st2 & t2 & R2 & E2).
    exists st2, (t1 ++ t2). rewrite <- app_assoc, <- R2. auto.
  - destruct (exec a st k) eqn:Ea; [injection E as <-|]; eauto.
  - destruct (exec a st k) eqn:Ea; [injection E as <-; eauto|].
    exists st, []. auto.
  - apply rep_sound in E. destruct E as (t & s' & R & _ & _ & _ & K).
    eexists _, t. split; [|exact K]. exact R.
  - destruct (prev st); [discriminate|]. exists st, []. auto.
  - destruct (at_eol st); [|discriminate]. exists st, []. auto.
  - destruct (xorb _ _); [|discriminate]. exists st, []. auto.
  - destruct (IHa _ _ _ E) as (st1 & t1 & R1 & E1).
    eexists _, t1. split; [|exact E1]. exact R1.
Qed.

(** A pattern that needs a character of class [p] matches only where one
    is still to be read. *)
Lemma exec_needs p r : needs p r ->
  forall st (k : mstate -> option A) res,
    exec r st k = Some res -> exists c, In c (rest st) /\ p c = true.
Proof.
  induction r as [|q|a IHa b IHb|a IHa b IHb|a IHa|q lo hi| | | |i a IHa];
    intros N st k res E; simpl in N, E; try contradiction.
  - destruct (rest st) as [|c s']; [discriminate|].
    destruct (q c) eqn:Qc; [|discriminate].
    exists c. split; [left; reflexivity | auto].
  - destruct N as [N|N]; [eauto|].
    destruct (exec_continues _ _ _ _ E) as (st1 & t1 & R1 & E1).
    destruct (IHb N _ _ _ E1) as (c & Hc & Pc).
    exists c. split; [|exact Pc]. rewrite R1. apply in_or_app. auto.
  - destruct N as [Na Nb].
    destruct (exec a st k) eqn:Ea; [injection E as <-|]; eauto.
  - destruct N as [L N]. apply rep_sound in E.
    destruct E as (t & s' & R & F & Lt & _ & K).
    destruct t as [|c t]; [simpl in Lt; lia|]. inversion F; subst.
    exists c. split; [rewrite R; left; reflexivity | auto].
  - eauto.
Qed.

(** A group that the pattern sets on every path, or that was set before,
    is set when the continuation runs. *)
Lemma exec_sets_group i r : forall st (k : mstate -> option A) res,
  exec r st k = Some res ->
  sets_group i r = true \/ group i st <> None ->
  exists st', k st' = Some res /\ group i st' <> None.
Proof.
  induction r as [|p|a IHa b IHb|a IHa b IHb|a IHa|p lo hi| | | |j a IHa];
    intros st k res E H; simpl in E, H;
    try (destruct H as [H|H]; [discriminate|]).
  - eauto.
  - destruct (rest st) as [|c s']; [discriminate|].
    destruct (p c); [|discriminate]. eexists; split; [exact E | exact H].
  - destruct H as [H|H]; [apply orb_true_iff in H; destruct H as [H|H]|].
    + destruct (IHa _ _ _ E (or_introl H)) as (st1 & E1 & G1). eauto.
    + destruct (exec_continues _ _ _ _ E) as (st1 & _ & _ & E1). eauto.
    + destruct (IHa _ _ _ E (or_intror H)) as (st1 & E1 & G1). eauto.
  - assert (Ha : sets_group i a = true \/ group i st <> None).
    { destruct H as [H|H]; [apply andb_true_iff in H|]; tauto. }
    assert (Hb : sets_group i b = true \/ group i st <> None).
    { destruct H as [H|H]; [apply andb_true_iff in H|]; tauto. }
    destruct (exec a st k) eqn:Ea; [injection E as <-|]; eauto.
  - destruct (exec a st k) eqn:Ea; [injection E as <-|]; eauto.
  - apply rep_sound in E. destruct E as (t & s' & _ & _ & _ & _ & K).
    eexists; split; [exact K | exact H].
  - destruct (prev st); [discriminate | eauto].
  - destruct (at_eol st); [eauto | discriminate].
  - destruct (xorb _ _); [eauto | discriminate].
  - destruct (Nat.eqb i j) eqn:Eij.
    + apply Nat.eqb_eq in Eij. subst j.
      destruct (exec_continues _ _ _ _ E) as (st1 & _ & _ & E1).
      eexists; split; [exact E1|]. unfold group. simpl.
      rewrite Nat.eqb_refl. discriminate.
    + simpl in H. destruct (IHa _ _ _ E H) as (st1 & E1 & G1).
      eexists; split; [exact E1|]. unfold group in *. simpl.
      rewrite Eij. exact G1.
Qed.

End Continue.

(** Where no character of the class is left, a pattern that needs one
    matches nowhere. *)
Lemma match_here_needs p r pv s :
  needs p r -> Forall (fun c => p c = false) s ->
  match_here r (MState pv s []) = None.
Proof.
  intros N F. destruct (match_here r (MState pv s [])) as [st|] eqn:M;
    [|reflexivity].
  destruct (exec_needs _ p r N _ _ _ M) as (c & Hc & Pc). simpl in Hc.
  rewrite Forall_forall in F. rewrite (F c Hc) in Pc. discriminate.
Qed.

Lemma search_from_needs p r : needs p r ->
  forall s pv, Forall (fun c => p c = false) s -> search_from r pv s = None.
Proof.
  intros N. induction s as [|c s IH]; intros pv F; simpl;
    rewrite (match_here_needs p r pv _ N F); [reflexivity|].
  inversion F; subst. auto.
Qed.

Lemma findall_from_needs p r : needs p r ->
  forall s skip pv, Forall (fun c => p c = false) s ->
    findall_from r skip pv s = [].
Proof.
  intros N. induction s as [|c s IH]; intros skip pv F; destruct skip; simpl;
    try reflexivity; try rewrite (match_here_needs p r pv _ N F);
    try reflexivity; inversion F; subst; auto.
Qed.

(** The group of a match is defined when the pattern always sets it. *)
Lemma match_here_group i r st st' :
  sets_group i r = true -> match_here r st = Some st' ->
  exists t, group i st' = Some t.
Proof.
  intros S E. unfold match_here in E.
  destruct (exec_sets_group _ i r st _ _ E (or_introl S)) as (st1 & [= <-] & G).
  destruct (group i st1) as [t|]; [eauto | contradiction].
Qed.

Lemma search_from_group_set i r : sets_group i r = true ->
  forall s pv st, search_from r pv s = Some st -> exists t, group i st = Some t.
Proof.
  intros S. induction s as [|c s IH]; intros pv st E; simpl in E.
  - destruct (match_here r (MState pv [] [])) eqn:M; [|discriminate].
    injection E as <-. exact (match_here_group i r _ _ S M).
  - destruct (match_here r (MState pv (c :: s) [])) eqn:M.
    + injection E as <-. exact (match_here_group i r _ _ S M).
    + eauto.
Qed.

(** [re.findall]: every item is the first group of a match. *)
Lemma findall_from_items Q P r : groups_ok Q P r ->
  forall s skip pv g, Forall Q s ->
    In g (findall_from r skip pv s) -> g = [] \/ P g.
Proof.
  intros G. induction s as [|c s IH]; intros skip pv g F H.
  - destruct skip; simpl in H; [|contradiction].
    destruct (match_here r (MState pv [] [])) eqn:M; [|contradiction].
    destruct H as [<-|[]].
    destruct (group 1 m) eqn:Gm; [right|left; reflexivity].
    apply (match_here_inv Q P r _ _ G M (inv_start Q P pv _ F)), Gm.
  - inversion F; subst. destruct skip; simpl in H; [|eapply IH; eassumption].
    destruct (match_here r (MState pv (c :: s) [])) eqn:M;
      [|eapply IH; eassumption].
    destruct H as [<-|H]; [|eapply IH; eassumption].
    destruct (group 1 m) eqn:Gm; [right|left; reflexivity].
    apply (match_here_inv Q P r _ _ G M (inv_start Q P pv _ F)), Gm.
Qed.

End RegexFacts.

(** * Properties of the query parser *)

Module QueryParserFacts.
Import RegexFacts.

(** A property of ASCII characters can be checked by running through them. *)
Lemma ascii_check (f : char -> bool) :
  forallb f (map N.of_nat (seq 0 128)) = true ->
  forall c, is_ascii c = true -> f c = true.
Proof.
  intros H c Hc. rewrite forallb_forall in H. apply H.
  apply in_map_iff. exists (N.to_nat c). split; [apply N2Nat.id|].
  apply in_seq. unfold is_ascii in Hc. apply N.ltb_lt in Hc. lia.
Qed.

Ltac by_ascii_check f c Hc :=
  let I := fresh "I" in
  assert (I : forallb f (map N.of_nat (seq 0 128)) = true)
    by (vm_compute; reflexivity);
  apply (ascii_check f I c) in Hc.

Lemma AZ_ci_upper c :
  is_ascii c = true -> AZ_ci c = true -> AZ (upper_char c) = true.
Proof.
  intros Hc H.
  by_ascii_check (fun c => implb (AZ_ci c) (AZ (upper_char c))) c Hc.
  rewrite H in Hc. exact Hc.
Qed.

Lemma AZ_facts c :
  AZ c = true ->
  AZ_ci c = true /\ is_ascii c = true /\ upper_char c = c
  /\ is_space c = false /\ only "$" c = false /\ AZ09dot c = true
  /\ is_digit_09 c = false /\ (c =? 46)%N = false.
Proof.
  intros H.
  assert (Hc : is_ascii c = true).
  { unfold AZ, is_upper_az, in_range in H. apply andb_true_iff in H.
    destruct H as [_ H]. apply N.leb_le in H. apply N.ltb_lt. lia. }
  pose proof Hc as Hc'.
  by_ascii_check
    (fun c => implb (AZ c)
                (AZ_ci c && (upper_char c =? c)%N && negb (is_space c)
                 && negb (only "$" c) && AZ09dot c && negb (is_digit_09 c)
                 && negb (c =? 46)%N)) c Hc.
  rewrite H in Hc. cbn [implb] in Hc.
  do 6 (apply andb_true_iff in Hc; destruct Hc as [Hc ?]).
  repeat match goal with
  | H : negb _ = true |- _ => apply negb_true_iff in H
  | H : (_ =? _)%N = true |- _ => apply N.eqb_eq in H
  end.
  repeat split; assumption.
Qed.

(** [str.strip] and [str.upper] on text without white space or lower case. *)
Lemma lstrip_id s :
  match s with c :: _ => is_space c = false | [] => True end -> lstrip s = s.
Proof. destruct s as [|c s]; simpl; [reflexivity|]. intros ->. reflexivity. Qed.

Lemma strip_no_space s :
  Forall (fun c => is_space c = false) s -> strip s = s.
Proof.
  intros F. unfold strip, rstrip. rewrite (lstrip_id s).
  - rewrite lstrip_id; [apply rev_involutive|].
    destruct (rev s) as [|c r] eqn:E; [exact I|].
    rewrite Forall_forall in F. apply F. apply in_rev. rewrite E. left; reflexivity.
  - destruct F; auto.
Qed.

Lemma lstrip_Forall (Q : char -> Prop) s : Forall Q s -> Forall Q (lstrip s).
Proof.
  induction 1 as [|c s Hc F IH]; simpl; [constructor|].
  destruct (is_space c); [exact IH | constructor; assumption].
Qed.

Lemma strip_Forall (Q : char -> Prop) s : Forall Q s -> Forall Q (strip s).
Proof.
  intros F. unfold strip, rstrip.
  apply Forall_rev, lstrip_Forall, Forall_rev, lstrip_Forall, F.
Qed.

Lemma ascii_ticker_spec t :
  ascii_ticker t = true <->
  1 <= length t <= 5 /\ Forall (fun c => AZ c = true) t.
Proof.
  unfold ascii_ticker. rewrite !andb_true_iff, forallb_forall, Forall_forall.
  rewrite Nat.leb_le, Nat.leb_le. unfold AZ. tauto.
Qed.

Lemma upper_id t : Forall (fun c => AZ c = true) t -> upper t = t.
Proof.
  induction 1 as [|c t Hc F IH]; simpl; [reflexivity|].
  rewrite IH. destruct (AZ_facts c Hc) as (_ & _ & -> & _). reflexivity.
Qed.

Lemma letters_ci_upper g : letters_ci g -> ascii_ticker (upper g) = true.
Proof.
  intros [L F]. apply ascii_ticker_spec. unfold upper. rewrite length_map.
  split; [exact L|]. apply Forall_map. eapply Forall_impl; [|exact F].
  intros c [H1 H2]. apply AZ_ci_upper; assumption.
Qed.

(** The direct pattern on a bare ticker. *)
Lemma ticker_tail_match t pv cs :
  ascii_ticker t = true ->
  exec (Seq (Group 1 (Rep AZ 1 (Some 5))) Eol) (MState pv t cs)
       (fun st => Some st)
  = Some (MState (last_char t pv) [] ((1, t) :: cs)).
Proof.
  intros H. apply ascii_ticker_spec in H. destruct H as [L F].
  cbn [exec prev rest caps].
  apply rep_whole; try assumption; try lia.
  - intros h [= <-]. lia.
  - cbn [exec prev rest caps at_eol length]. rewrite Nat.sub_0_r, firstn_all.
    reflexivity.
Qed.

Lemma direct_match_plain t :
  ascii_ticker t = true ->
  re_match direct_pattern t = Some (MState (last_char t None) [] [(1, t)]).
Proof.
  intros H. pose proof (ticker_tail_match t None [] H) as T.
  unfold re_match, match_here, direct_pattern, dollar_opt, start.
  cbn [seqs exec prev rest caps].
  apply ascii_ticker_spec in H. destruct H as [L F].
  destruct t as [|c t]; [simpl in L; lia|]. inversion F; subst.
  destruct (AZ_facts c) as (_ & _ & _ & _ & D & _); [assumption|].
  rewrite D. exact T.
Qed.

Lemma direct_match_dollar t :
  ascii_ticker t = true ->
  re_match direct_pattern (lit "$" ++ t)
  = Some (MState (last_char t (Some 36%N)) [] [(1, t)]).
Proof.
  intros H. pose proof (ticker_tail_match t (Some 36%N) [] H) as T.
  unfold re_match, match_here, direct_pattern, dollar_opt, start.
  cbn [seqs exec prev rest caps]. change (lit "$" ++ t) with (36%N :: t).
  cbn [exec prev rest caps] in T |- *. change (only "$" 36%N) with true.
  cbn iota.
  match goal with
  | |- match ?x with Some _ => _ | None => _ end = Some ?y =>
    let E := fresh "E" in assert (E : x = Some y) by exact T; rewrite E
  end.
  reflexivity.
Qed.

Lemma ticker_no_space t :
  ascii_ticker t = true -> Forall (fun c => is_space c = false) t.
Proof.
  intros H. apply ascii_ticker_spec in H. destruct H as [_ F].
  eapply Forall_impl; [|exact F]. intros c Hc.
  destruct (AZ_facts c Hc) as (_ & _ & _ & S & _). exact S.
Qed.


(** What the patterns cannot do without: the direct and the generic
    pattern an upper-case letter, the three phrase patterns white space. *)
Lemma needs_seqs p l : Exists (needs p) l -> needs p (seqs l).
Proof.
  induction 1 as [r l H|r l H IH]; simpl.
  - destruct l; [exact H | left; exact H].
  - destruct l; [inversion H | right; exact IH].
Qed.

Lemma needs_alts p r l : Forall (needs p) (r :: l) -> needs p (alts (r :: l)).
Proof.
  revert r. induction l as [|r' l IH]; intros r F; inversion F; subst; simpl.
  - assumption.
  - split; [assumption | apply IH; assumption].
Qed.

Lemma needs_group_AZ i : needs AZ (Group i (Rep AZ 1 (Some 5))).
Proof. simpl. auto. Qed.

Lemma needs_plus_space : needs is_space (plus is_space).
Proof. simpl. auto. Qed.

Lemma direct_needs : needs AZ direct_pattern.
Proof.
  unfold direct_pattern. apply needs_seqs.
  do 2 apply Exists_cons_tl. apply Exists_cons_hd, needs_group_AZ.
Qed.

Lemma generic_needs : needs AZ generic_pattern.
Proof.
  unfold generic_pattern. apply needs_seqs.
  do 2 apply Exists_cons_tl. apply Exists_cons_hd, needs_group_AZ.
Qed.

Lemma analyze_needs : needs is_space analyze_pattern.
Proof.
  unfold analyze_pattern. apply needs_seqs.
  apply Exists_cons_tl, Exists_cons_hd, needs_plus_space.
Qed.

Lemma question_needs : needs is_space question_pattern.
Proof.
  unfold question_pattern. apply needs_seqs.
  do 2 apply Exists_cons_tl. apply Exists_cons_hd, needs_plus_space.
Qed.

Lemma info_needs : needs is_space info_pattern.
Proof.
  unfold info_pattern. apply needs_seqs.
  apply Exists_cons_tl, Exists_cons_hd, needs_plus_space.
Qed.

Lemma no_space_no_upper_spec q :
  no_space_no_upper q = true ->
  Forall (fun c => is_space c = false) q /\ Forall (fun c => AZ c = false) q.
Proof.
  unfold no_space_no_upper, AZ. rewrite forallb_forall, !Forall_forall.
  intros H. split; intros c Hc; specialize (H c Hc);
    apply negb_true_iff, orb_false_iff in H; tauto.
Qed.

(** Without an upper-case letter and without white space no pattern
    applies. *)
Lemma extract_none q :
  no_space_no_upper q = true -> extract_ticker_from_query q = None.
Proof.
  intros H. apply no_space_no_upper_spec in H. destruct H as [NS NU].
  unfold extract_ticker_from_query. destruct q as [|c q]; [reflexivity|].
  rewrite (strip_no_space _ NS).
  unfold re_match, re_search, re_findall, start.
  rewrite (match_here_needs AZ _ None _ direct_needs NU).
  rewrite (search_from_needs is_space _ analyze_needs _ None NS).
  rewrite (search_from_needs is_space _ question_needs _ None NS).
  rewrite (search_from_needs is_space _ info_needs _ None NS).
  rewrite (findall_from_needs AZ _ generic_needs _ 0 None NU).
  reflexivity.
Qed.

(** The groups of the five patterns. *)
Section Groups.
Variable Q : char -> Prop.
Variable P : str -> Prop.

Lemma groups_ok_seqs l : Forall (groups_ok Q P) l -> groups_ok Q P (seqs l).
Proof.
  induction 1 as [|r l H F IH]; simpl; [exact I|].
  destruct l; [exact H | split; assumption].
Qed.

Lemma groups_ok_alts l : Forall (groups_ok Q P) l -> groups_ok Q P (alts l).
Proof.
  induction 1 as [|r l H F IH]; simpl; [exact I|].
  destruct l; [exact H | split; assumption].
Qed.

Lemma groups_ok_word_ci s : groups_ok Q P (word_ci s).
Proof.
  unfold word_ci. apply groups_ok_seqs, Forall_map, Forall_forall.
  intros; exact I.
Qed.

Lemma groups_ok_plus p : groups_ok Q P (plus p).
Proof. exact I. Qed.

Lemma groups_ok_dollar : groups_ok Q P dollar_opt.
Proof. exact I. Qed.

End Groups.

Lemma group_AZ_ci :
  groups_ok ascii_char letters_ci (Group 1 (Rep AZ_ci 1 (Some 5))).
Proof.
  intros t FQ Fp L. split; [exact L|].
  rewrite Forall_forall in *. intros c Hc. split; [apply Fp | apply FQ]; exact Hc.
Qed.

Lemma group_AZ :
  groups_ok ascii_char letters_ci (Group 1 (Rep AZ 1 (Some 5))).
Proof.
  intros t FQ Fp L. split; [exact L|].
  rewrite Forall_forall in *. intros c Hc.
  destruct (AZ_facts c (Fp c Hc)) as (H1 & H2 & _). split; assumption.
Qed.

Ltac groups :=
  repeat match goal with
  | |- groups_ok _ _ (seqs _) => apply groups_ok_seqs
  | |- groups_ok _ _ (alts _) => apply groups_ok_alts
  | |- groups_ok _ _ (word_ci _) => apply groups_ok_word_ci
  | |- groups_ok _ _ (Group _ (Rep AZ _ _)) => apply group_AZ
  | |- groups_ok _ _ (Group _ (Rep AZ_ci _ _)) => apply group_AZ_ci
  | |- groups_ok ?Q ?P (Opt ?a) => change (groups_ok Q P a)
  | |- groups_ok _ _ _ => exact I
  | |- Forall _ _ => constructor
  end.

Lemma direct_groups : groups_ok ascii_char letters_ci direct_pattern.
Proof. unfold direct_pattern. groups. Qed.

Lemma analyze_groups : groups_ok ascii_char letters_ci analyze_pattern.
Proof. unfold analyze_pattern. groups. Qed.

Lemma question_groups : groups_ok ascii_char letters_ci question_pattern.
Proof. unfold question_pattern. groups. Qed.

Lemma info_groups : groups_ok ascii_char letters_ci info_pattern.
Proof. unfold info_pattern. groups. Qed.

Lemma generic_groups : groups_ok ascii_char letters_ci generic_pattern.
Proof. unfold generic_pattern. groups. Qed.

(** Each pattern sets its group on every path: [m.group(1)] is never
    [None], so [.upper()] always has a string to work on. *)
Lemma patterns_set_group :
  sets_group 1 direct_pattern = true
  /\ sets_group 1 analyze_pattern = true
  /\ sets_group 1 question_pattern = true
  /\ sets_group 1 info_pattern = true
  /\ sets_group 1 generic_pattern = true.
Proof. repeat split. Qed.

Lemma group1_upper_defined r st m :
  sets_group 1 r = true -> match_here r st = Some m ->
  exists t, group1_upper m = Some t.
Proof.
  intros S M. destruct (match_here_group 1 r st m S M) as (t & G).
  unfold group1_upper. rewrite G. simpl. eauto.
Qed.

(** The examples of the docstrings. *)
Example extract_ticker_examples :
  map extract_ticker_from_query
    [lit "AAPL"; lit "analyze TSLA"; lit "what about MSFT?";
     lit "tell me about GOOGL"; lit "hello"; lit "analyze INVALID123"]
  = [Some (lit "AAPL"); Some (lit "TSLA"); Some (lit "MSFT");
     Some (lit "GOOGL"); None; None].
Proof. vm_compute. reflexivity. Qed.

Example is_valid_ticker_examples :
  map is_valid_ticker
    [lit "AAPL"; lit "TSLA"; lit "BRK.B"; lit "A"; lit "TOOLONG"; lit "123"; []]
  = [true; true; true; true; false; false; false].
Proof. vm_compute. reflexivity. Qed.

Example parse_query_intent_examples :
  parse_query_intent (lit "analyze AAPL")
  = QueryIntent (Some (lit "AAPL")) (lit "analyze") true None
  /\ parse_query_intent (lit "hello")
     = QueryIntent None (lit "unknown") false
         (Some (lit "No ticker symbol found in query")).
Proof. split; vm_compute; reflexivity. Qed.

(** A valid intent carries its ticker. *)
Lemma valid_has_ticker q :
  qi_valid (parse_query_intent q) = true ->
  exists t, qi_ticker (parse_query_intent q) = Some t.
Proof.
  unfold parse_query_intent. destruct q as [|c q]; [discriminate|].
  destruct (extract_ticker_from_query (c :: q)) as [[|a t]|]; try discriminate.
  destruct (is_valid_ticker (a :: t)); simpl; [eauto | discriminate].
Qed.

Lemma first_ticker_some ms t :
  first_ticker ms = Some t ->
  exists g, In g ms /\ t = upper g /\ is_valid_ticker t = true.
Proof.
  induction ms as [|m ms IH]; cbn [first_ticker]; [discriminate|]. intros H.
  destruct (negb (str_in (upper m) common_words)) eqn:E1;
    [destruct (is_valid_ticker (upper m)) eqn:E2|]; cbn [andb] in H.
  - injection H as <-. exists m. simpl. auto.
  - destruct (IH H) as (g & G & T). exists g. simpl. tauto.
  - destruct (IH H) as (g & G & T). exists g. simpl. tauto.
Qed.

Lemma is_ascii_str_spec q : is_ascii_str q = true -> Forall ascii_char q.
Proof.
  unfold is_ascii_str. rewrite forallb_forall, Forall_forall. auto.
Qed.

Lemma group1_upper_shape m t :
  (forall g, group 1 m = Some g -> letters_ci g) ->
  group1_upper m = Some t -> ascii_ticker t = true.
Proof.
  unfold group1_upper. intros H. destruct (group 1 m) as [g|]; [|discriminate].
  intros [= <-]. apply letters_ci_upper, H. reflexivity.
Qed.

(** Every ticker extracted from an ASCII query is one to five upper-case
    letters. *)
Lemma extract_shape q t :
  is_ascii_str q = true ->
  extract_ticker_from_query q = Some t -> ascii_ticker t = true.
Proof.
  intros HQ. apply is_ascii_str_spec in HQ.
  unfold extract_ticker_from_query. destruct q as [|c q]; [discriminate|].
  pose proof (strip_Forall ascii_char _ HQ) as F.
  set (s := strip (c :: q)) in *. clearbody s.
  destruct (re_match direct_pattern s) as [m|] eqn:M1.
  { apply group1_upper_shape. intros g.
    exact (re_match_group ascii_char letters_ci _ s m g direct_groups F M1). }
  destruct (re_search analyze_pattern s) as [m|] eqn:M2.
  { apply group1_upper_shape. intros g.
    exact (re_search_group ascii_char letters_ci _ s m g analyze_groups F M2). }
  destruct (re_search question_pattern s) as [m|] eqn:M3.
  { apply group1_upper_shape. intros g.
    exact (re_search_group ascii_char letters_ci _ s m g question_groups F M3). }
  destruct (re_search info_pattern s) as [m|] eqn:M4.
  { apply group1_upper_shape. intros g.
    exact (re_search_group ascii_char letters_ci _ s m g info_groups F M4). }
  intros H. apply first_ticker_some in H. destruct H as (g & G & -> & V).
  destruct (findall_from_items ascii_char letters_ci _ generic_groups
              s 0 None g F G) as [->|L].
  - discriminate.
  - apply letters_ci_upper, L.
Qed.

End QueryParserFacts.

Module QueryParserTheorems.
Import RegexFacts QueryParserFacts.

(** C6, as amended: an input that is entirely a token of one to five
    upper-case letters, optionally prefixed with [$], yields that token;
    an input without upper-case letters and without white space, such as
    the lower-case form of a ticker, yields nothing. *)
Theorem direct_ticker_extracted :
  (forall t, ascii_ticker t = true ->
             extract_ticker_from_query t = Some t
             /\ extract_ticker_from_query (lit "$" ++ t) = Some t
             /\ upper t = t)
  /\ (forall q, no_space_no_upper q = true ->
                extract_ticker_from_query q = None).
Proof.
  split; [|exact extract_none].
  intros t H. pose proof (ticker_no_space t H) as NS.
  assert (U : upper t = t).
  { apply upper_id. apply ascii_ticker_spec in H. tauto. }
  assert (N : t <> []).
  { apply ascii_ticker_spec in H. destruct t; [simpl in H; lia | discriminate]. }
  repeat split; [| |exact U].
  - unfold extract_ticker_from_query. destruct t as [|c t]; [contradiction|].
    rewrite (strip_no_space _ NS), (direct_match_plain _ H).
    unfold group1_upper, group. cbn [caps assoc Nat.eqb option_map].
    rewrite U. reflexivity.
  - unfold extract_ticker_from_query. change (lit "$" ++ t) with (36%N :: t).
    rewrite strip_no_space by (constructor; [reflexivity | exact NS]).
    change (36%N :: t) with (lit "$" ++ t).
    rewrite (direct_match_dollar _ H).
    unfold group1_upper, group. cbn [caps assoc Nat.eqb option_map].
    rewrite U. reflexivity.
Qed.

Lemma direct_ticker_extracted_witness :
  extract_ticker_from_query (lit "AAPL") = Some (lit "AAPL")
  /\ extract_ticker_from_query (lit "$AAPL") = Some (lit "AAPL")
  /\ extract_ticker_from_query (lit "tsla") = None.
Proof.
  destruct direct_ticker_extracted as [H K].
  destruct (H (lit "AAPL") eq_refl) as (H1 & H2 & _).
  split; [exact H1 | split; [exact H2 | exact (K (lit "tsla") eq_refl)]].
Defined.

(** The lower-case form of a ticker is not extracted. *)
Lemma lowercase_ticker_not_extracted :
  extract_ticker_from_query (lit "aapl") = None
  /\ upper (lit "aapl") = lit "AAPL".
Proof. split; vm_compute; reflexivity. Qed.




End QueryParserTheorems.

(** * Properties of the mention parser *)

Module MentionFacts.
Import RegexFacts Bridge.

Lemma rep_complete (A : Type) (p : char -> bool) (k : mstate -> option A) cs :
  forall t lo pv s',
    Forall (fun c => p c = true) t -> lo <= length t ->
    k (MState (last_char t pv) s' cs) <> None ->
    rep p lo None pv (t ++ s') cs k <> None.
Proof.
  induction t as [|c t IH]; intros lo pv s' F L K.
  - simpl in L. assert (lo = 0) by lia. subst lo. simpl in K.
    intros R. apply rep_none_stop in R. contradiction.
  - inversion F as [|? ? Pc F']; subst. rewrite last_char_cons in K.
    simpl. rewrite Pc.
    specialize (IH (pred lo) (Some c) s' F' ltac:(simpl in L; lia) K).
    simpl in IH.
    destruct (rep p (pred lo) None (Some c) (t ++ s') cs k); [discriminate|].
    contradiction.
Qed.

Lemma lstrip_head s :
  match lstrip s with c :: _ => is_space c = false | [] => True end.
Proof.
  induction s as [|c s IH]; simpl; [exact I|].
  destruct (is_space c) eqn:E; [exact IH | exact E].
Qed.

(** A stripped text does not end in white space. *)
Lemma strip_last s :
  match rev (strip s) with c :: _ => is_space c = false | [] => True end.
Proof.
  unfold strip, rstrip. rewrite rev_involutive. apply lstrip_head.
Qed.

Lemma lstrip_keeps_last x c :
  is_space c = false -> exists y, lstrip (x ++ [c]) = y ++ [c].
Proof.
  intros Hc. induction x as [|a x IH]; simpl.
  - rewrite Hc. exists []. reflexivity.
  - destruct (is_space a); [exact IH|]. exists (a :: x). reflexivity.
Qed.

(** Stripping a text that starts with a visible character keeps that
    character in front. *)
Lemma strip_head c s :
  is_space c = false -> exists s', strip (c :: s) = c :: s'.
Proof.
  intros Hc. unfold strip, rstrip. simpl lstrip. rewrite Hc.
  simpl rev. destruct (lstrip_keeps_last (rev s) c Hc) as (y & ->).
  rewrite rev_app_distr. simpl. eauto.
Qed.

Lemma mention_needs_at c s :
  only "@" c = false -> re_match mention_pattern (c :: s) = None.
Proof.
  intros H. unfold re_match, match_here, mention_pattern, start.
  cbn [seqs exec prev rest caps]. rewrite H. reflexivity.
Qed.

Lemma mention_needs_text : re_match mention_pattern [] = None.
Proof. reflexivity. Qed.

(** What a match of the mention pattern looks like: the agent id, white
    space, and a remainder that runs to the end of the text.  The white
    space is taken greedily, so a remainder that begins with white space
    can only be that single character. *)
Lemma mention_shape s st :
  re_match mention_pattern s = Some st ->
  exists tid tw r e,
    s = (64%N :: tid) ++ tw ++ r ++ e
    /\ group 1 st = Some tid /\ group 2 st = Some r
    /\ r <> [] /\ (e = [] \/ e = [10%N])
    /\ (forall c r', r = c :: r' -> is_space c = true -> r' = []).
Proof.
  unfold re_match, match_here, mention_pattern, start, plus.
  cbn [seqs exec prev rest caps]. destruct s as [|a s]; [discriminate|].
  destruct (only "@" a) eqn:At; [|discriminate].
  assert (a = 64%N) as -> by (apply N.eqb_eq; exact At).
  intros H. apply rep_sound in H.
  destruct H as (tid & s2 & -> & Fid & Lid & _ & H).
  cbn [prev rest caps] in H. rewrite firstn_split in H.
  apply rep_greedy in H.
  destruct H as (tw & s3 & -> & Fw & Lw & H & G).
  cbn [prev rest caps] in H.
  pose proof H as H'. apply rep_sound in H'.
  destruct H' as (r & e & -> & Fr & Lr & _ & H').
  cbn [prev rest caps] in H'. rewrite firstn_split in H'.
  destruct (at_eol _) eqn:Eol in H'; [|discriminate].
  injection H' as <-.
  exists tid, tw, r, e. repeat split.
  - destruct r; [simpl in Lr; lia | discriminate].
  - unfold at_eol in Eol. cbn [rest] in Eol.
    destruct e as [|x [|y e]]; [left; reflexivity | right | discriminate].
    apply N.eqb_eq in Eol. subst x. reflexivity.
  - intros c r' -> Sc. destruct r' as [|d r']; [reflexivity|]. exfalso.
    inversion Fr as [|? ? _ Fr']; subst.
    cbn [app] in G. specialize (G Sc). revert G.
    change (d :: r' ++ e) with ((d :: r') ++ e).
    apply rep_complete; [exact Fr' | simpl; lia |].
    cbn [prev rest caps]. rewrite firstn_split.
    unfold at_eol in Eol |- *. cbn [rest] in Eol |- *.
    rewrite Eol. discriminate.
Qed.

Lemma parse_no_target m :
  fst (parse_agent_mention m) = None -> parse_agent_mention m = (None, m).
Proof.
  unfold parse_agent_mention.
  destruct (re_match mention_pattern (strip m)) as [st|]; [|reflexivity].
  destruct (group 1 st); [|reflexivity].
  destruct (group 2 st); [discriminate | reflexivity].
Qed.

Lemma remainder_visible m t r :
  parse_agent_mention m = (Some t, r) ->
  exists c r', r = c :: r' /\ is_space c = false.
Proof.
  unfold parse_agent_mention.
  destruct (re_match mention_pattern (strip m)) as [st|] eqn:M; [|discriminate].
  destruct (mention_shape _ _ M) as (tid & tw & r0 & e & S & G1 & G2 & N & E & W).
  rewrite G1, G2. intros [= <- <-].
  destruct r0 as [|c r']; [contradiction|]. exists c, r'. split; [reflexivity|].
  destruct (is_space c) eqn:Sc; [exfalso | reflexivity].
  rewrite (W c r' eq_refl Sc) in S.
  pose proof (strip_last m) as L. rewrite S in L.
  rewrite app_assoc, rev_app_distr in L.
  destruct E as [-> | ->]; simpl in L.
  - congruence.
  - vm_compute in L. discriminate.
Qed.

(** C5, as amended: the two example messages parse as stated; parsing is
    idempotent on messages without a mention (the message comes back
    unchanged and parses the same again); and for every message, a
    remaining message that does not itself begin with [@] yields no further
    mention.  A remainder that begins with [@] can hold one. *)
Theorem parse_agent_mention_reparse :
  parse_agent_mention (lit "@financial-advisor Should I buy AAPL?")
  = (Some (lit "financial-advisor"), lit "Should I buy AAPL?")
  /\ parse_agent_mention (lit "What about AAPL?")
     = (None, lit "What about AAPL?")
  /\ (forall m, fst (parse_agent_mention m) = None ->
                parse_agent_mention (snd (parse_agent_mention m))
                = parse_agent_mention m)
  /\ (forall m, starts_with_at (snd (parse_agent_mention m)) = false ->
                fst (parse_agent_mention (snd (parse_agent_mention m))) = None).
Proof.
  split; [vm_compute; reflexivity|]. split; [vm_compute; reflexivity|]. split.
  - intros m H. rewrite (parse_no_target m H). simpl. apply parse_no_target, H.
  - intros m H. destruct (parse_agent_mention m) as [[t|] r] eqn:P.
    + simpl in *. destruct (remainder_visible m t r P) as (c & r' & -> & Sc).
      simpl in H. unfold parse_agent_mention.
      destruct (strip_head c r' Sc) as (s' & ->).
      rewrite (mention_needs_at c s' H). reflexivity.
    + simpl. pose proof (parse_no_target m) as Q. rewrite P in Q.
      specialize (Q eq_refl). injection Q as ->. rewrite P. reflexivity.
Qed.

(** The mention remaining after ["@a @b c"] is itself a mention. *)
Lemma nested_mention_reparsed :
  parse_agent_mention (lit "@a @b c") = (Some (lit "a"), lit "@b c")
  /\ parse_agent_mention (snd (parse_agent_mention (lit "@a @b c")))
     = (Some (lit "b"), lit "c").
Proof. split; vm_compute; reflexivity. Qed.

Lemma parse_agent_mention_reparse_witness :
  parse_agent_mention (snd (parse_agent_mention (lit "hello world")))
  = parse_agent_mention (lit "hello world")
  /\ fst (parse_agent_mention
            (snd (parse_agent_mention (lit "@advisor Should I buy AAPL?"))))
     = None.
Proof.
  destruct parse_agent_mention_reparse as (_ & _ & H1 & H2). split.
  - apply H1. vm_compute. reflexivity.
  - apply H2. vm_compute. reflexivity.
Defined.

End MentionFacts.
(** * Properties of the registry client *)

Module RegistryFacts.
Import Registry.

Section Facts.
Variables (net : network) (self : RegistryClient).

Lemma sent_emit w e :
  sent (emit e w) = if is_sent e then S (sent w) else sent w.
Proof.
  unfold sent, emit; simpl. rewrite filter_app, length_app; simpl.
  destruct (is_sent e); simpl; lia.
Qed.

Lemma registered_emit w e : registered (emit e w) = registered w.
Proof. reflexivity. Qed.

Lemma request_post_here rq w o :
  net (sent w) rq = o ->
  request_post net rq (outcome_value o) w (emit (Sent rq) w).
Proof.
  intros E. unfold request_post. rewrite sent_emit; simpl. rewrite E.
  repeat split; lia.
Qed.

Lemma request_post_slept rq v w w1 z :
  request_post net rq v w w1 -> request_post net rq v w (emit (Slept z) w1).
Proof.
  unfold request_post. rewrite sent_emit, registered_emit; simpl. tauto.
Qed.

Lemma request_post_retry rq v w w' z :
  request_post net rq v (emit (Slept z) (emit (Sent rq) w)) w' ->
  request_post net rq v w w'.
Proof.
  unfold request_post. rewrite !sent_emit; simpl.
  intros (V & R & S). repeat split; [assumption | assumption | lia].
Qed.

Ltac run_step :=
  unfold make_request_body, _retry_request, try_except, bind, session_request,
    sleep, lift, ret; simpl.

Ltac split_request :=
  repeat match goal with
  | |- context [match json_body ?r with _ => _ end] => destruct (json_body r)
  | |- context [match text_body ?r with _ => _ end] => destruct (text_body r)
  | |- context [match exn_cls ?x with _ => _ end] => destruct (exn_cls x)
  | |- context [if ?b then _ else _] => destruct b
  end.

Lemma make_request_within_spec left : forall m e d rc w,
  exists v w',
    make_request_within net self left m e d rc w = (Ok v, w')
    /\ request_post net (HttpRequest m (registry_url self ++ e) d) v w w'.
Proof.
  induction left as [|n IH]; intros m e d rc w; simpl; run_step;
    pose proof (@request_post_here (HttpRequest m (registry_url self ++ e) d)
                  w _ eq_refl) as P;
    destruct (net (sent w) _) as [resp|ex]; simpl in P;
    repeat match goal with
    | |- context [match json_body ?r with _ => _ end] => destruct (json_body r)
    | |- context [match text_body ?r with _ => _ end] => destruct (text_body r)
    | |- context [match exn_cls ?x with _ => _ end] => destruct (exn_cls x)
    | |- context [if ?b then _ else _] => destruct b
    | |- context [make_request_within _ _ n ?m ?e ?d ?rc ?w] =>
      let v := fresh "v" in let w' := fresh "w'" in let E := fresh "E" in
      let Q := fresh "Q" in
      destruct (IH m e d rc w) as (v & w' & E & Q); rewrite E;
      apply request_post_retry in Q
    end;
    eauto using request_post_slept.
Qed.

Lemma make_request_spec m e d rc w :
  exists v w',
    _make_request net self m e d rc w = (Ok v, w')
    /\ request_post net (HttpRequest m (registry_url self ++ e) d) v w w'.
Proof. apply make_request_within_spec. Qed.

Lemma make_request_body_ext (f g : request_t) m e d rc w :
  (forall w', f m e d (rc + 1)%Z w' = g m e d (rc + 1)%Z w') ->
  make_request_body net self f m e d rc w
  = make_request_body net self g m e d rc w.
Proof.
  intros H. run_step.
  destruct (net (sent w) _) as [resp|ex]; split_request; auto;
    rewrite H;
    match goal with
    | |- context [g ?a ?b ?c ?d ?w] => destruct (g a b c d w) as [[?|ex'] ?]
    end;
    auto; destruct (exn_cls ex'); auto.
Qed.

(** The structural definition satisfies the recursive equation of the
    source: [_make_request] is its own body with the call through
    [_retry_request] going back to [_make_request]. *)
Lemma _make_request_unfold m e d rc w :
  _make_request net self m e d rc w
  = make_request_body net self (_make_request net self) m e d rc w.
Proof.
  unfold _make_request at 1.
  destruct (Z.to_nat (max_retries self - rc)) as [|n] eqn:L; simpl.
  - assert (T : (rc <? max_retries self)%Z = false) by (apply Z.ltb_ge; lia).
    run_step.
    destruct (net (sent w) _) as [resp|ex]; rewrite ?T, ?andb_false_r;
      split_request; auto.
  - apply make_request_body_ext. intros w'. unfold _make_request.
    replace (Z.to_nat (max_retries self - (rc + 1))) with n by lia.
    reflexivity.
Qed.

(** A 5xx answer whose text was read, with retries left: sleep, then try
    again. *)
Lemma make_request_5xx_retry m e d rc w resp :
  net (sent w) (HttpRequest m (registry_url self ++ e) d) = Ok resp ->
  (500 <= status resp)%Z -> readable resp = true -> (rc < max_retries self)%Z ->
  _make_request net self m e d rc w
  = _make_request net self m e d (rc + 1)
      (emit (Slept (retry_delay self * 2 ^ rc))
         (emit (Sent (HttpRequest m (registry_url self ++ e) d)) w)).
Proof.
  intros E S T L. rewrite _make_request_unfold. run_step. rewrite E.
  unfold readable in T. destruct (text_body resp) as [t|ex]; [|discriminate].
  replace ((status resp =? 200)%Z) with false by (symmetry; apply Z.eqb_neq; lia).
  replace ((status resp =? 201)%Z) with false by (symmetry; apply Z.eqb_neq; lia).
  replace ((status resp >=? 500)%Z) with true by (symmetry; apply Z.geb_le; lia).
  replace ((rc <? max_retries self)%Z) with true by (symmetry; apply Z.ltb_lt; lia).
  simpl. replace (rc + 1 - 1)%Z with rc by lia.
  match goal with
  | |- context [_make_request net self ?a ?b ?c ?d ?w] =>
    destruct (make_request_spec a b c d w) as (v & w' & Q & _); rewrite Q
  end.
  reflexivity.
Qed.

(** An answer that is neither 200/201 nor retried, and whose text was
    read, ends the call with [None]. *)
Lemma make_request_no_retry m e d rc w resp :
  net (sent w) (HttpRequest m (registry_url self ++ e) d) = Ok resp ->
  status resp <> 200%Z -> status resp <> 201%Z -> readable resp = true ->
  ((status resp < 500)%Z \/ (max_retries self <= rc)%Z) ->
  _make_request net self m e d rc w
  = (Ok PNone, emit (Sent (HttpRequest m (registry_url self ++ e) d)) w).
Proof.
  intros E S0 S1 T L. rewrite _make_request_unfold. run_step. rewrite E.
  unfold readable in T. destruct (text_body resp) as [t|ex]; [|discriminate].
  replace ((status resp =? 200)%Z) with false by (symmetry; apply Z.eqb_neq; lia).
  replace ((status resp =? 201)%Z) with false by (symmetry; apply Z.eqb_neq; lia).
  replace ((status resp >=? 500)%Z && (rc <? max_retries self)%Z) with false;
    [reflexivity|].
  symmetry. apply andb_false_iff. destruct L; [left | right].
  - destruct (status resp >=? 500)%Z eqn:G; [apply Z.geb_le in G; lia | reflexivity].
  - apply Z.ltb_ge; lia.
Qed.

(** An answer other than 200/201 whose text cannot be read: the exception
    of the read decides, whatever the status.  A [ClientError] or a timeout
    is followed by a retry when retries are left; any other exception ends
    the call with [None]. *)
Lemma make_request_read_retry m e d rc w resp ex :
  net (sent w) (HttpRequest m (registry_url self ++ e) d) = Ok resp ->
  status resp <> 200%Z -> status resp <> 201%Z ->
  text_body resp = Raise ex -> retries_class ex = true ->
  (rc < max_retries self)%Z ->
  _make_request net self m e d rc w
  = _make_request net self m e d (rc + 1)
      (emit (Slept (retry_delay self * 2 ^ rc))
         (emit (Sent (HttpRequest m (registry_url self ++ e) d)) w)).
Proof.
  intros E S0 S1 T C L. rewrite _make_request_unfold. run_step. rewrite E, T.
  replace ((status resp =? 200)%Z) with false by (symmetry; apply Z.eqb_neq; lia).
  replace ((status resp =? 201)%Z) with false by (symmetry; apply Z.eqb_neq; lia).
  replace ((rc <? max_retries self)%Z) with true by (symmetry; apply Z.ltb_lt; lia).
  simpl. replace (rc + 1 - 1)%Z with rc by lia.
  match goal with
  | |- context [_make_request net self ?a ?b ?c ?d ?w] =>
    destruct (make_request_spec a b c d w) as (v & w' & Q & _)
  end.
  unfold retries_class in C.
  destruct (exn_cls ex); try discriminate; rewrite Q; reflexivity.
Qed.

Lemma make_request_read_stop m e d rc w resp ex :
  net (sent w) (HttpRequest m (registry_url self ++ e) d) = Ok resp ->
  status resp <> 200%Z -> status resp <> 201%Z ->
  text_body resp = Raise ex ->
  retries_class ex = false \/ (max_retries self <= rc)%Z ->
  _make_request net self m e d rc w
  = (Ok PNone, emit (Sent (HttpRequest m (registry_url self ++ e) d)) w).
Proof.
  intros E S0 S1 T C. rewrite _make_request_unfold. run_step. rewrite E, T.
  replace ((status resp =? 200)%Z) with false by (symmetry; apply Z.eqb_neq; lia).
  replace ((status resp =? 201)%Z) with false by (symmetry; apply Z.eqb_neq; lia).
  simpl. unfold retries_class in C. destruct C as [C|C].
  - destruct (exn_cls ex); try discriminate; reflexivity.
  - replace ((rc <? max_retries self)%Z) with false
      by (symmetry; apply Z.ltb_ge; lia).
    destruct (exn_cls ex); reflexivity.
Qed.

End Facts.
End RegistryFacts.

Module RegistryTheorems.
Import Registry RegistryFacts.

Section Theorems.
Variables (net : network) (now : str) (self : RegistryClient).

Lemma register_agent_spec agent_url capabilities metadata w :
  exists b w',
    register_agent net now self agent_url capabilities metadata w = (Ok b, w')
    /\ b = truthy (outcome_value
                     (net (pred (sent w'))
                        (register_request now self agent_url capabilities metadata)))
    /\ registered w' = registered w || b.
Proof.
  unfold register_agent, try_except, bind.
  destruct (make_request_spec net self (lit "POST") (lit "/agents/register")
              (Some (registration_data now self agent_url capabilities metadata))
              0 w) as (v & w1 & E & V & R & S).
  rewrite E. fold (register_request now self agent_url capabilities metadata) in V.
  destruct (truthy v) eqn:T; simpl.
  - eexists _, _. split; [reflexivity|]. rewrite !sent_emit; simpl.
    unfold sent at 1; simpl. fold (sent w1). rewrite <- V, T, orb_true_r. auto.
  - eexists _, _. split; [reflexivity|]. rewrite sent_emit; simpl.
    rewrite <- V, T, orb_false_r. auto.
Qed.

Lemma outcome_truthy o :
  truthy (outcome_value o) = true <->
  exists resp v, o = Ok resp /\ (status resp = 200 \/ status resp = 201)%Z
                 /\ json_body resp = Ok v /\ truthy v = true.
Proof.
  unfold outcome_value. split.
  - destruct o as [resp|ex]; [|discriminate].
    destruct ((status resp =? 200)%Z || (status resp =? 201)%Z) eqn:S;
      [|discriminate].
    destruct (json_body resp) as [v|ex] eqn:J; [|discriminate].
    intros T. exists resp, v. repeat split; auto.
    apply orb_true_iff in S. destruct S as [S|S]; apply Z.eqb_eq in S; auto.
  - intros (resp & v & -> & S & J & T). rewrite J.
    assert (S' : (status resp =? 200)%Z || (status resp =? 201)%Z = true).
    { apply orb_true_iff. destruct S as [S|S]; rewrite S; auto. }
    rewrite S'. exact T.
Qed.

Lemma outcome_none o :
  (forall resp, o = Ok resp -> status resp <> 200%Z /\ status resp <> 201%Z) ->
  outcome_value o = PNone.
Proof.
  intros H. destruct o as [resp|ex]; [|reflexivity]. simpl.
  destruct (H resp eq_refl) as [H0 H1].
  apply Z.eqb_neq in H0, H1. rewrite H0, H1. reflexivity.
Qed.

(** C2, as amended: [register_agent] never raises; it returns true, and
    then the registered flag is set, exactly when the response to its last
    attempt has status 200 or 201 and a truthy JSON body.  Any other status
    (the other 2xx included), an undecodable or falsy body, and any
    transport failure make it return false. *)
Theorem register_agent_true_iff_200_201 agent_url capabilities metadata w :
  exists b w',
    register_agent net now self agent_url capabilities metadata w = (Ok b, w')
    /\ (b = true <->
        exists resp v,
          net (pred (sent w'))
              (register_request now self agent_url capabilities metadata)
          = Ok resp
          /\ (status resp = 200 \/ status resp = 201)%Z
          /\ json_body resp = Ok v /\ truthy v = true)
    /\ (b = true -> registered w' = true).
Proof.
  destruct (register_agent_spec agent_url capabilities metadata w)
    as (b & w' & E & B & R).
  exists b, w'. split; [exact E|]. split.
  - rewrite B. apply outcome_truthy.
  - intros ->. rewrite R. apply orb_true_r.
Qed.

(** C4, as amended: a call of [register_agent] that returns true sets the
    flag and one that returns false leaves it as it was; the flag afterwards
    is the flag before or-ed with the returned boolean, so it equals the
    returned boolean whenever the client was not registered before. *)
Theorem register_agent_flag agent_url capabilities metadata w :
  exists b w',
    register_agent net now self agent_url capabilities metadata w = (Ok b, w')
    /\ is_registered w' = (Ok (registered w || b), w')
    /\ (registered w = false -> is_registered w' = (Ok b, w')).
Proof.
  destruct (register_agent_spec agent_url capabilities metadata w)
    as (b & w' & E & _ & R).
  exists b, w'. unfold is_registered, get_registered. rewrite R.
  repeat split; auto. intros ->. reflexivity.
Qed.

Lemma deregister_spec w :
  registered w = true ->
  exists w1,
    let v := outcome_value (net (pred (sent w1)) (deregister_request self)) in
    sent w < sent w1 /\
    _make_request net self (lit "DELETE") (lit "/agents/" ++ agent_id self) None 0 w
    = (Ok v, w1) /\
    deregister net self w =
      if truthy v || is_none v
      then (Ok true, emit (Logged (AuditEvent (lit "deregister") (lit "success")))
                          (World false (trace w1)))
      else (Ok false, emit (Logged (AuditEvent (lit "deregister") (lit "error"))) w1).
Proof.
  intros Reg. unfold deregister, try_except, bind, get_registered.
  rewrite Reg. cbn [negb].
  destruct (make_request_spec net self (lit "DELETE")
              (lit "/agents/" ++ agent_id self) None 0 w) as (v & w1 & E & V & R & S).
  exists w1. unfold deregister_request. rewrite <- V, E.
  split; [exact S|]. split; [reflexivity|].
  destruct (truthy v || is_none v); reflexivity.
Qed.

(** C9: for a registered agent, whenever the DELETE request fails, that is
    whenever its last attempt ends in a transport error, a timeout, or a
    status other than 200 and 201 (the request helper then yields [None]),
    [deregister] returns true and clears the registered flag; and it
    returns false only when the last attempt was answered 200 or 201 with a
    JSON body that is falsy without being [None]. *)
Theorem deregister_failure_reports_success w :
  registered w = true ->
  exists b w',
    deregister net self w = (Ok b, w')
    /\ (forall w1,
          _make_request net self (lit "DELETE")
            (lit "/agents/" ++ agent_id self) None 0 w = (Ok PNone, w1) ->
          b = true /\ registered w' = false)
    /\ (forall last, net (pred (sent w')) (deregister_request self) = last ->
          (forall resp, last = Ok resp ->
                        status resp <> 200%Z /\ status resp <> 201%Z) ->
          fst (_make_request net self (lit "DELETE")
                 (lit "/agents/" ++ agent_id self) None 0 w) = Ok PNone
          /\ b = true /\ registered w' = false)
    /\ (b = false ->
        exists resp v,
          net (pred (sent w')) (deregister_request self) = Ok resp
          /\ (status resp = 200 \/ status resp = 201)%Z
          /\ json_body resp = Ok v /\ truthy v = false /\ v <> PNone).
Proof.
  intros Reg. destruct (deregister_spec w Reg) as (w1 & S & E & D).
  cbv zeta in E, D.
  set (o := net (pred (sent w1)) (deregister_request self)) in *.
  destruct (truthy (outcome_value o) || is_none (outcome_value o)) eqn:T.
  - eexists _, _. split; [exact D|]. rewrite sent_emit; cbn [is_sent registered].
    change (sent (World false (trace w1))) with (sent w1). fold o.
    split; [auto|]. split; [|discriminate].
    intros last <- H. rewrite E, (outcome_none o H). auto.
  - eexists _, _. split; [exact D|]. rewrite sent_emit; cbn [is_sent]. fold o.
    apply orb_false_iff in T. destruct T as [T N].
    split; [|split].
    + intros w0 E0. rewrite E in E0. injection E0 as E0 _.
      rewrite E0 in N. discriminate.
    + intros last <- H. rewrite (outcome_none o H) in N. discriminate.
    + intros _. unfold outcome_value in T, N.
      destruct o as [resp|ex]; [|discriminate].
      destruct ((status resp =? 200)%Z || (status resp =? 201)%Z) eqn:S2;
        [|discriminate].
      destruct (json_body resp) as [v|ex] eqn:J; [|discriminate].
      exists resp, v. repeat split; auto.
      * apply orb_true_iff in S2. destruct S2 as [S2|S2]; apply Z.eqb_eq in S2; auto.
      * intros ->. discriminate.
Qed.

End Theorems.
End RegistryTheorems.

Module RetryTheorems.
Import Registry RegistryFacts.

Lemma emit_trace w e : emit e w = World (registered w) (trace w ++ [e]).
Proof. reflexivity. Qed.

(** C3, as amended: against a registry that answers every request with
    status 500 and a body that can be read, with [max_retries = 3] and
    [retry_delay = 1], [register_agent] makes exactly four attempts, sleeps
    1, 2 and 4 seconds between consecutive attempts, and returns false; an
    answer with a 4xx status whose body can be read ends the call after that
    single attempt, whatever the retry settings.  The body of an answer
    other than 200 and 201 is read before its status is examined: when the
    read raises a [ClientError] or a timeout and retries are left, a retry
    follows whatever the status, so at least two attempts are made; when it
    raises anything else, or no retry is left, the call ends after that
    attempt, a 5xx status included. *)
Theorem register_agent_backoff net now self agent_url capabilities metadata w :
  let rq := register_request now self agent_url capabilities metadata in
  (max_retries self = 3%Z -> retry_delay self = 1%Z -> answers_500 net ->
   register_agent net now self agent_url capabilities metadata w
   = (Ok false,
      World (registered w)
        (trace w ++ [Sent rq; Slept 1; Sent rq; Slept 2; Sent rq; Slept 4;
                     Sent rq; register_failed])))
  /\ (forall resp,
        net (sent w) rq = Ok resp -> (400 <= status resp < 500)%Z ->
        readable resp = true ->
        register_agent net now self agent_url capabilities metadata w
        = (Ok false, World (registered w) (trace w ++ [Sent rq; register_failed])))
  /\ (forall resp ex,
        net (sent w) rq = Ok resp ->
        status resp <> 200%Z -> status resp <> 201%Z ->
        text_body resp = Raise ex ->
        if retries_class ex && (0 <? max_retries self)%Z
        then sent w + 2
             <= sent (snd (register_agent net now self agent_url capabilities
                             metadata w))
        else register_agent net now self agent_url capabilities metadata w
             = (Ok false,
                World (registered w) (trace w ++ [Sent rq; register_failed]))).
Proof.
  intros rq. split; [|split].
  - intros Hmax Hdelay H500.
    unfold register_agent, try_except, bind.
    destruct (H500 (sent w) rq) as (r0 & E0 & S0 & T0).
    rewrite (make_request_5xx_retry net self _ _ _ 0 w _ E0) by (auto; lia).
    match goal with |- context [_make_request _ _ _ _ _ _ ?w1] =>
      destruct (H500 (sent w1) rq) as (r1 & E1 & S1 & T1);
      rewrite (make_request_5xx_retry net self _ _ _ _ w1 _ E1) by (auto; lia) end.
    match goal with |- context [_make_request _ _ _ _ _ _ ?w2] =>
      destruct (H500 (sent w2) rq) as (r2 & E2 & S2 & T2);
      rewrite (make_request_5xx_retry net self _ _ _ _ w2 _ E2) by (auto; lia) end.
    match goal with |- context [_make_request _ _ _ _ _ _ ?w3] =>
      destruct (H500 (sent w3) rq) as (r3 & E3 & S3 & T3);
      rewrite (make_request_no_retry net self _ _ _ _ w3 _ E3) by (auto; lia) end.
    rewrite Hdelay. cbn [truthy]. unfold log_event, ret.
    rewrite !emit_trace. cbn [registered trace].
    rewrite <- !app_assoc. reflexivity.
  - intros resp E S T.
    unfold register_agent, try_except, bind.
    rewrite (make_request_no_retry net self _ _ _ 0 w _ E) by (auto; lia).
    cbn [truthy]. unfold log_event, ret.
    rewrite !emit_trace. cbn [registered trace].
    rewrite <- !app_assoc. reflexivity.
  - intros resp ex E S0 S1 T.
    destruct (retries_class ex && (0 <? max_retries self)%Z) eqn:C.
    + apply andb_true_iff in C. destruct C as [C L]. apply Z.ltb_lt in L.
      unfold register_agent, try_except, bind.
      rewrite (make_request_read_retry net self _ _ _ 0 w _ _ E S0 S1 T C L).
      match goal with |- context [_make_request net self ?a ?b ?c ?d ?w1] =>
        destruct (make_request_spec net self a b c d w1) as (v & w' & Q & _ & _ & N);
        rewrite Q
      end.
      rewrite !sent_emit in N. cbn [is_sent] in N.
      destruct (truthy v); cbn [snd]; unfold log_event, set_registered, ret;
        cbn [snd]; rewrite ?sent_emit; cbn [is_sent];
        try (unfold sent at 2; cbn [trace]; fold (sent w')); lia.
    + apply andb_false_iff in C.
      unfold register_agent, try_except, bind.
      rewrite (make_request_read_stop net self _ _ _ 0 w _ _ E S0 S1 T).
      * cbn [truthy]. unfold log_event, ret.
        rewrite !emit_trace. cbn [registered trace].
        rewrite <- !app_assoc. reflexivity.
      * destruct C as [C|C]; [left; exact C | right; apply Z.ltb_ge in C; lia].
Qed.

End RetryTheorems.

Module RegistryExamples.
Import Registry RegistryTheorems RetryTheorems Scenario.

(** A 204 answer is a 2xx answer, yet [register_agent] returns false and
    leaves the flag down: only 200 and 201 count as success. *)
Lemma register_agent_204_returns_false :
  fst (register (always 204 ok_body) fresh) = Ok false
  /\ registered (snd (register (always 204 ok_body) fresh)) = false
  /\ sent (snd (register (always 204 ok_body) fresh)) = 1.
Proof. repeat split; vm_compute; reflexivity. Qed.

Lemma register_agent_backoff_witness :
  sleeps_of (snd (register (always 500 PNone) fresh)) = [1; 2; 4]%Z
  /\ sent (snd (register (always 500 PNone) fresh)) = 4
  /\ fst (register (always 500 PNone) fresh) = Ok false
  /\ sent (snd (register (always 404 PNone) fresh)) = 1
  /\ fst (register (always 404 PNone) fresh) = Ok false
  /\ 2 <= sent (snd (register (body_lost 503 ClientError) fresh))
  /\ sent (snd (register (body_lost 503 ValueError) fresh)) = 1.
Proof.
  destruct (register_agent_backoff (always 500 PNone) now client url
              [lit "stock_analysis"] [] fresh) as [H _].
  destruct (register_agent_backoff (always 404 PNone) now client url
              [lit "stock_analysis"] [] fresh) as (_ & K & _).
  destruct (register_agent_backoff (body_lost 503 ClientError) now client url
              [lit "stock_analysis"] [] fresh) as (_ & _ & R).
  destruct (register_agent_backoff (body_lost 503 ValueError) now client url
              [lit "stock_analysis"] [] fresh) as (_ & _ & N).
  assert (H5 : answers_500 (always 500 PNone)).
  { intros n rq. eexists. repeat split; reflexivity. }
  specialize (H eq_refl eq_refl H5).
  specialize (K (HttpResponse 404 (Ok PNone) (Ok [])) eq_refl).
  assert (B : (400 <= status (HttpResponse 404 (Ok PNone) (Ok [])) < 500)%Z)
    by (simpl; lia).
  specialize (K B eq_refl).
  specialize (R _ _ eq_refl ltac:(discriminate) ltac:(discriminate) eq_refl).
  specialize (N _ _ eq_refl ltac:(discriminate) ltac:(discriminate) eq_refl).
  cbn [retries_class exn_cls andb] in R, N.
  unfold register. rewrite H, K, N.
  split; [reflexivity|]. split; [reflexivity|]. split; [reflexivity|].
  split; [reflexivity|]. split; [reflexivity|]. split; [exact R | reflexivity].
Defined.

(** A 404 answer is retried when its body cannot be read because the
    connection was lost: the call makes four attempts and sleeps 1, 2 and 4
    seconds, as for a connection error. *)
Lemma unreadable_404_is_retried :
  sent (snd (register (body_lost 404 ClientError) fresh)) = 4
  /\ sleeps_of (snd (register (body_lost 404 ClientError) fresh)) = [1; 2; 4]%Z
  /\ fst (register (body_lost 404 ClientError) fresh) = Ok false.
Proof. repeat split; vm_compute; reflexivity. Qed.

Lemma register_agent_true_iff_200_201_witness :
  fst (register (always 200 ok_body) fresh) = Ok true.
Proof.
  destruct (register_agent_true_iff_200_201 (always 200 ok_body) now client
              url [lit "stock_analysis"] [] fresh) as (b & w' & E & [_ H] & _).
  unfold register. rewrite E. simpl. f_equal. apply H.
  exists (HttpResponse 200 (Ok ok_body) (Ok [])), ok_body.
  split; [reflexivity|]. split; [left; reflexivity|]. split; reflexivity.
Defined.

(** After a successful registration, a second call that fails returns
    false while the flag still says registered. *)
Lemma failed_reregistration_keeps_flag :
  fst (register accept_once fresh) = Ok true
  /\ fst (register accept_once (snd (register accept_once fresh))) = Ok false
  /\ fst (is_registered
            (snd (register accept_once (snd (register accept_once fresh)))))
     = Ok true.
Proof. repeat split; vm_compute; reflexivity. Qed.

Lemma register_agent_flag_witness :
  fst (is_registered (snd (register (always 503 PNone) fresh)))
  = fst (register (always 503 PNone) fresh).
Proof.
  destruct (register_agent_flag (always 503 PNone) now client url
              [lit "stock_analysis"] [] fresh) as (b & w' & E & _ & H).
  unfold register. rewrite E. cbn [fst snd]. rewrite (H eq_refl). reflexivity.
Defined.

Lemma deregister_failure_witness :
  fst (deregister (always 500 PNone) client (World true [])) = Ok true
  /\ registered (snd (deregister (always 500 PNone) client (World true [])))
     = false.
Proof.
  destruct (deregister_failure_reports_success (always 500 PNone) client
              (World true []) eq_refl) as (b & w' & E & _ & H & _).
  rewrite E. simpl.
  destruct (H _ eq_refl) as (_ & -> & R).
  - intros resp. unfold always, answer. intros [= <-]. simpl. split; discriminate.
  - split; [reflexivity | exact R].
Defined.

(** A lookup whose first answer, a 404, loses its body is tried again, and
    the second answer decides. *)
Lemma lookup_after_lost_body :
  fst (lookup_agent
         (lost_then (PDict [(lit "agent_url", PStr (lit "http://advisor:6000"))]))
         client (lit "financial-advisor") fresh)
  = Ok (PStr (lit "http://advisor:6000"))
  /\ sent (snd (lookup_agent
                  (lost_then (PDict [(lit "agent_url",
                                      PStr (lit "http://advisor:6000"))]))
                  client (lit "financial-advisor") fresh)) = 2.
Proof. split; vm_compute; reflexivity. Qed.

(** The false-returning branch is reached by a 200 answer with an empty
    JSON object. *)
Lemma deregister_empty_body_returns_false :
  fst (deregister (always 200 (PDict [])) client (World true [])) = Ok false
  /\ registered (snd (deregister (always 200 (PDict [])) client (World true [])))
     = true.
Proof. split; vm_compute; reflexivity. Qed.

End RegistryExamples.

(** * Properties of the message formatter, the bridge and the adapter *)

Module CodecTheorems.

Lemma parse_a2a_response text_parts conversation_id parent_message_id :
  parse_a2a_message (a2a_response text_parts conversation_id parent_message_id)
  = Ok (Parsed (PStr (join newline text_parts)) (PStr conversation_id)
               PNone PNone (PDict [])).
Proof. destruct parent_message_id as [[|c p]|]; reflexivity. Qed.

(** C7: parsing the message built by [format_analysis_response] gives back
    the conversation id it was built with, for every analysis and so for
    every analysis that has a recommendation. *)
Theorem format_parse_conversation_id (F : float_ops) (analysis : StockAnalysis F)
    (conversation_id : str) (parent_message_id : option str) (agent_id : str) :
  exists parsed,
    parse_a2a_message
      (format_analysis_response analysis conversation_id parent_message_id agent_id)
    = Ok parsed
    /\ p_conversation_id parsed = PStr conversation_id.
Proof.
  unfold format_analysis_response. rewrite parse_a2a_response.
  eexists. split; reflexivity.
Qed.

End CodecTheorems.

Module BridgeTheorems.
Import Bridge.

(** C1: the forwarding branch of [process_stock_query] lies outside its
    [try]; a reply from the peer whose [content] is a bare string, or one
    that carries [error] without [message], makes it raise to its caller. *)
Theorem mention_branch_raises :
  fst (Scenario.process (Scenario.peer_answers Scenario.bare_reply)
         Scenario.mention_query fresh)
  = Raise (Exn AttributeError (lit "object has no attribute 'get'"))
  /\ fst (Scenario.process (Scenario.peer_answers Scenario.error_reply)
            Scenario.mention_query fresh)
     = Raise (Exn KeyError (lit "message")).
Proof. split; vm_compute; reflexivity. Qed.

(** A reply in the wire format comes back with the forwarding note. *)
Example forwarded_reply_annotated :
  fst (Scenario.process (Scenario.peer_answers Scenario.wire_reply)
         Scenario.mention_query fresh)
  = Ok (PDict
          [(lit "role", PStr (lit "agent"));
           (lit "content",
            PDict [(lit "text",
                    PStr (lit "[stock-agent] Forwarded to @financial-advisor:"
                          ++ [10%N; 10%N] ++ lit "Buy recommendation"));
                   (lit "type", PStr (lit "text"))]);
           (lit "conversation_id", PStr (lit "conv-123"))]).
Proof. vm_compute. reflexivity. Qed.

(** The two end-to-end properties of the specification: an analysis
    that recommends BUY at 85% is reported with ticker, recommendation and
    confidence, and a mention of an agent the registry does not know is
    answered with an error that names the agent and makes a suggestion. *)
Example analyze_end_to_end :
  let text :=
    Scenario.text_of
      (fst (process_stock_query (Scenario.always 404 PNone) Scenario.now
              (lit "conv-new") Scenario.recommends_buy Scenario.bridge
              (lit "analyze AAPL") (lit "conv-123") None fresh)) in
  substring_of (lit "AAPL") text && substring_of (lit "BUY") text
  && substring_of (lit "85") text = true.
Proof. vm_compute. reflexivity. Qed.

Example unknown_agent_end_to_end :
  let text :=
    Scenario.text_of
      (fst (Scenario.process (Scenario.always 404 PNone)
              (lit "@advisor Should I buy AAPL?") fresh)) in
  substring_of (lit "advisor") text
  && substring_of (lit "Verify that agent") text = true.
Proof. vm_compute. reflexivity. Qed.

Section Local.
Variable F : float_ops.
Variable net : network.
Variables now new_conversation_id : str.
Variable perform_complete_analysis : str -> str -> res (StockAnalysis F).
Variable self : StockAgentBridge.

(** Without a mention the whole pipeline runs inside the [try]: whatever
    the analysis collaborator does, a response dictionary comes back. *)
Lemma local_query_never_raises query conversation_id parent_message_id w :
  fst (parse_agent_mention query) = None ->
  exists response w',
    process_stock_query net now new_conversation_id perform_complete_analysis
      self query conversation_id parent_message_id w
    = (Ok (PDict response), w').
Proof.
  intros H. unfold process_stock_query.
  destruct (parse_agent_mention query) as [target remaining]. simpl in H.
  subst target. unfold bind, log_event, try_except, ret, lift, throw.
  destruct (qi_valid (parse_query_intent query)); cbn [negb]; [|eauto].
  destruct (qi_ticker (parse_query_intent query)) as [ticker|]; [|eauto].
  destruct (perform_complete_analysis ticker query) as [analysis|e]; [|eauto].
  destruct (recommendation analysis); eauto.
Qed.

End Local.

End BridgeTheorems.

Module AdapterTheorems.
Import Adapter.

Lemma stop_async_stops a : _is_running (stop_async a) = false.
Proof.
  unfold stop_async. destruct (_is_running a) eqn:R; simpl; auto.
Qed.

(** One event on a stopped adapter: the flag stays down, no iteration
    begins, and only a task that was waiting for the health status makes
    one more [update_status] call. *)
Lemma step_stopped a e :
  _is_running a = false ->
  _is_running (step a e) = false
  /\ iterations (step a e) = iterations a
  /\ (awaiting_health a = false ->
      awaiting_health (step a e) = false
      /\ update_status_calls (step a e) = update_status_calls a)
  /\ (awaiting_health a = true ->
      update_status_calls (step a e) <= S (update_status_calls a)
      /\ (awaiting_health (step a e) = true ->
          update_status_calls (step a e) = update_status_calls a)).
Proof.
  intros R. destruct a as [hr run hb it us dr rc]. simpl in R. subst run.
  unfold awaiting_health.
  destruct e as [raised| |]; simpl;
    destruct hb as [| | |[|n]|]; simpl;
    try destruct hr; try destruct raised; simpl;
    repeat split; intros; try discriminate; auto.
Qed.

Lemma run_stopped es : forall a,
  _is_running a = false ->
  _is_running (run a es) = false
  /\ iterations (run a es) = iterations a
  /\ update_status_calls (run a es) <= S (update_status_calls a)
  /\ (awaiting_health a = false ->
      update_status_calls (run a es) = update_status_calls a).
Proof.
  induction es as [|e es IH]; intros a R; simpl.
  - repeat split; auto.
  - destruct (step_stopped a e R) as (R1 & I1 & N1 & A1).
    destruct (IH (step a e) R1) as (R2 & I2 & U2 & N2).
    repeat split; try congruence.
    + destruct (awaiting_health a) eqn:Aa.
      * destruct (A1 eq_refl) as [L1 K1].
        destruct (awaiting_health (step a e)) eqn:As.
        -- rewrite <- (K1 eq_refl). exact U2.
        -- rewrite (N2 eq_refl). exact L1.
      * destruct (N1 eq_refl) as [As Us]. rewrite (N2 As), Us. lia.
    + intros Aa. destruct (N1 Aa) as [As Us]. rewrite (N2 As). exact Us.
Qed.

(** A stopped adapter's sleeping task only counts down. *)
Lemma run_sleeping es : forall a n,
  _is_running a = false -> heartbeat a = Sleeping n -> ticks es < n ->
  heartbeat (run a es) = Sleeping (n - ticks es).
Proof.
  unfold ticks. induction es as [|e es IH]; intros a n R H T; simpl in *.
  - rewrite Nat.sub_0_r. exact H.
  - destruct (step_stopped a e R) as (R1 & _).
    destruct e as [raised| |]; simpl in T, R1 |- *.
    + assert (H1 : heartbeat (_start_heartbeat raised a) = Sleeping n).
      { unfold _start_heartbeat. rewrite H. destruct n; [lia | exact H]. }
      apply IH; assumption.
    + destruct n as [|n]; [lia|].
      assert (H1 : heartbeat (tick a) = Sleeping n).
      { unfold tick. rewrite H. reflexivity. }
      rewrite (IH (tick a) n R1 H1); [reflexivity | lia].
    + assert (H1 : heartbeat (stop_async a) = Sleeping n).
      { unfold stop_async. rewrite R. exact H. }
      apply IH; assumption.
Qed.

Lemma run_app a es1 es2 : run a (es1 ++ es2) = run (run a es1) es2.
Proof. unfold run. apply fold_left_app. Qed.

Lemma run_ticks n : forall a m,
  heartbeat a = Sleeping (n + m) ->
  heartbeat (run a (repeat Tick n)) = Sleeping m
  /\ _is_running (run a (repeat Tick n)) = _is_running a.
Proof.
  induction n as [|n IH]; intros a m H; simpl.
  - auto.
  - destruct (IH (tick a) m) as [H1 H2].
    + unfold tick. rewrite H. reflexivity.
    + split; [exact H1|]. rewrite H2. unfold tick. rewrite H. reflexivity.
Qed.

(** C8, as amended: [stop_async] ends the heartbeat loop through the
    running flag alone.  The flag is read at the top of each iteration, so
    once it is down no further iteration begins; a task that is already
    past the test and waiting for the health status still makes its one
    [update_status] call, any other task makes none.  The sleep in
    progress is not cancelled: the task stays in it until the remaining
    seconds have passed, and finishes when it is resumed after that. *)
Theorem stopped_heartbeat_ends_at_loop_head a es :
  let a1 := stop_async a in
  let a2 := run a1 es in
  _is_running a2 = false
  /\ iterations a2 = iterations a1
  /\ update_status_calls a2 <= S (update_status_calls a1)
  /\ (awaiting_health a1 = false ->
      update_status_calls a2 = update_status_calls a1)
  /\ (forall n, heartbeat a1 = Sleeping n -> ticks es < n ->
                heartbeat a2 = Sleeping (n - ticks es))
  /\ (forall n raised, heartbeat a1 = Sleeping n ->
        heartbeat (run a1 (repeat Tick n ++ [Resume raised])) = Finished).
Proof.
  intros a1 a2. pose proof (stop_async_stops a) as R. fold a1 in R.
  destruct (run_stopped es a1 R) as (R2 & I2 & U2 & N2).
  repeat split; auto.
  - intros n H T. apply run_sleeping; assumption.
  - intros n raised H. rewrite run_app.
    destruct (run_ticks n a1 0) as [H1 H2]; [rewrite Nat.add_0_r; exact H|].
    simpl. unfold _start_heartbeat, loop_head. rewrite H1, H2, R. reflexivity.
Qed.

Lemma stopped_heartbeat_witness :
  heartbeat (run (stop_async Scenario.sleeping_adapter) (repeat Tick 29))
  = Sleeping 1
  /\ heartbeat (run (stop_async Scenario.sleeping_adapter)
                  (repeat Tick 30 ++ [Resume false])) = Finished.
Proof.
  destruct (stopped_heartbeat_ends_at_loop_head Scenario.sleeping_adapter
              (repeat Tick 29)) as (_ & _ & _ & _ & H & K).
  split.
  - apply (H 30); [reflexivity | vm_compute; lia].
  - apply (K 30 false). reflexivity.
Defined.

(** Stopping during the sleep leaves the task asleep with all of its 30
    seconds still to run, and stopping while the health status is awaited
    is followed by one more [update_status] call. *)
Lemma stop_does_not_cancel_sleep :
  heartbeat (stop_async Scenario.sleeping_adapter) = Sleeping 30
  /\ heartbeat (run Scenario.sleeping_adapter
                  (Stop :: Resume false :: repeat Tick 29 ++ [Resume false]))
     = Sleeping 1
  /\ update_status_calls
       (run Scenario.probing_adapter [Stop; Resume false])
     = S (update_status_calls (stop_async Scenario.probing_adapter)).
Proof. repeat split. Qed.

End AdapterTheorems.

(** * Further properties of the query parser *)

Module QueryParserProperties.
Import RegexFacts QueryParserFacts MentionFacts.

Lemma lstrip_lstrip s : lstrip (lstrip s) = lstrip s.
Proof. apply lstrip_id. apply lstrip_head. Qed.

Lemma strip_ends s :
  match s with c :: _ => is_space c = false | [] => True end ->
  match rev s with c :: _ => is_space c = false | [] => True end ->
  strip s = s.
Proof.
  intros H1 H2. unfold strip, rstrip. rewrite (lstrip_id s H1).
  rewrite (lstrip_id (rev s) H2). apply rev_involutive.
Qed.

Lemma strip_first s :
  match strip s with c :: _ => is_space c = false | [] => True end.
Proof.
  assert (E : strip s = strip (lstrip s)).
  { unfold strip. rewrite lstrip_lstrip. reflexivity. }
  rewrite E. pose proof (lstrip_head s) as H.
  destruct (lstrip s) as [|c x]; [exact I|].
  destruct (strip_head c x H) as (s' & ->). exact H.
Qed.

Lemma strip_strip s : strip (strip s) = strip s.
Proof. apply strip_ends; [apply strip_first | apply strip_last]. Qed.

Lemma upper_char_newline c : upper_char c = 10%N -> c = 10%N.
Proof.
  unfold upper_char, is_lower_az, in_range, dotless_i, long_s.
  destruct (97 <=? c)%N eqn:A; destruct (c <=? 122)%N eqn:B; simpl;
    try (apply N.leb_le in A); try (apply N.leb_le in B);
    try (intros; lia);
    destruct (c =? 305)%N eqn:C; try (intros; lia);
    destruct (c =? 383)%N eqn:D; intros; lia.
Qed.

Lemma upper_strip_last t :
  match rev (upper (strip t)) with c :: _ => c <> 10%N | [] => True end.
Proof.
  unfold upper. rewrite <- map_rev. pose proof (strip_last t) as H.
  destruct (rev (strip t)) as [|c r]; simpl; [exact I|].
  intros E. apply upper_char_newline in E. subst c. discriminate.
Qed.

Lemma ticker_pattern_shape u :
  match rev u with c :: _ => c <> 10%N | [] => True end ->
  match re_match ticker_pattern u with Some _ => true | None => false end
  = ticker_shape u.
Proof.
  intros L. unfold re_match, match_here, ticker_pattern, start.
  cbn [seqs exec prev rest caps]. destruct u as [|c r]; [reflexivity|].
  cbn [ticker_shape]. destruct (AZ c); [|reflexivity]. cbn [andb].
  match goal with
  | |- context [rep ?a ?b ?c ?d ?e ?f ?g] =>
    destruct (rep a b c d e f g) as [st|] eqn:R
  end.
  - apply rep_sound in R. destruct R as (t & s' & -> & F & _ & B & K).
    cbn [rest] in K. destruct (at_eol _) eqn:E in K; [|discriminate].
    unfold at_eol in E. cbn [rest] in E.
    assert (s' = []) as ->.
    { destruct s' as [|x [|y s']]; [reflexivity | | discriminate].
      apply N.eqb_eq in E. subst x. exfalso.
      change (c :: t ++ [10%N]) with ((c :: t) ++ [10%N]) in L.
      rewrite rev_app_distr in L. simpl in L. congruence. }
    rewrite app_nil_r. specialize (B 4 eq_refl).
    symmetry. apply andb_true_iff. split.
    + apply Nat.leb_le. exact B.
    + apply forallb_forall. rewrite Forall_forall in F. exact F.
  - destruct ((length r <=? 4) && forallb AZ09dot r) eqn:S;
      [|exact (eq_sym S)].
    apply andb_true_iff in S. destruct S as [S1 S2]. apply Nat.leb_le in S1.
    rewrite (rep_whole _ AZ09dot _ (MState (last_char r (Some c)) [] []) [] r 0 (Some 4) (Some c)) in R.
    + discriminate.
    + apply Forall_forall. rewrite forallb_forall in S2. exact S2.
    + lia.
    + intros h [= <-]. exact S1.
    + reflexivity.
Qed.

(** [is_valid_ticker] accepts exactly the texts whose stripped, upper-cased
    form is an upper-case letter followed by at most four upper-case
    letters, digits or dots; its all-digits test never rejects anything,
    since the first character is a letter. *)
Theorem is_valid_ticker_shape t :
  is_valid_ticker t = ticker_shape (upper (strip t)).
Proof.
  unfold is_valid_ticker. destruct t as [|a t]; [reflexivity|].
  pose proof (upper_strip_last (a :: t)) as L.
  set (u := upper (strip (a :: t))) in *. clearbody u.
  pose proof (ticker_pattern_shape u L) as P.
  destruct u as [|c r]; [reflexivity|].
  cbn [length]. replace (S (length r) <? 1) with false
    by (symmetry; apply Nat.ltb_ge; lia). cbn [orb].
  destruct (5 <? S (length r)) eqn:Len.
  - apply Nat.ltb_lt in Len. cbn [ticker_shape].
    replace (length r <=? 4) with false by (symmetry; apply Nat.leb_gt; lia).
    rewrite andb_false_r. reflexivity.
  - destruct (re_match ticker_pattern (c :: r)) as [st|]; rewrite <- P; [|reflexivity].
    symmetry in P. cbn [ticker_shape] in P.
    apply andb_true_iff in P. destruct P as [P _].
    apply andb_true_iff in P. destruct P as [P _].
    destruct (AZ_facts c P) as (_ & _ & _ & _ & _ & _ & D & E).
    unfold remove_char. cbn [filter]. rewrite E. cbn [negb isdigit forallb].
    rewrite D. reflexivity.
Qed.

(** Surrounding white space plays no part: a query and a candidate ticker
    are judged by what [str.strip] leaves of them. *)
Theorem surrounding_space_ignored s :
  extract_ticker_from_query (strip s) = extract_ticker_from_query s
  /\ is_valid_ticker (strip s) = is_valid_ticker s.
Proof.
  split.
  - unfold extract_ticker_from_query. destruct s as [|a s]; [reflexivity|].
    rewrite strip_strip. destruct (strip (a :: s)); reflexivity.
  - unfold is_valid_ticker. destruct s as [|a s]; [reflexivity|].
    rewrite strip_strip. destruct (strip (a :: s)); reflexivity.
Qed.

Lemma needs_group_ci i : needs AZ_ci (Group i (Rep AZ_ci 1 (Some 5))).
Proof. simpl. auto. Qed.

Lemma needs_group_AZ_ci i : needs AZ_ci (Group i (Rep AZ 1 (Some 5))).
Proof.
  simpl. split; [lia|]. intros c H. destruct (AZ_facts c H) as [H1 _]. exact H1.
Qed.

Lemma patterns_need_letter :
  needs AZ_ci direct_pattern /\ needs AZ_ci analyze_pattern
  /\ needs AZ_ci question_pattern /\ needs AZ_ci info_pattern
  /\ needs AZ_ci generic_pattern.
Proof.
  repeat split.
  - unfold direct_pattern. apply needs_seqs.
    do 2 apply Exists_cons_tl. apply Exists_cons_hd, needs_group_AZ_ci.
  - unfold analyze_pattern. apply needs_seqs.
    do 3 apply Exists_cons_tl. apply Exists_cons_hd, needs_group_ci.
  - unfold question_pattern. apply needs_seqs.
    do 4 apply Exists_cons_tl. apply Exists_cons_hd, needs_group_ci.
  - unfold info_pattern. apply needs_seqs.
    do 3 apply Exists_cons_tl. apply Exists_cons_hd, needs_group_ci.
  - unfold generic_pattern. apply needs_seqs.
    do 2 apply Exists_cons_tl. apply Exists_cons_hd, needs_group_AZ_ci.
Qed.

(** A query without any letter has no ticker: no pattern applies, and
    [parse_query_intent] reports an unknown intent with the message that no
    ticker symbol was found. *)
Theorem no_letter_no_ticker q :
  no_letter q = true ->
  extract_ticker_from_query q = None
  /\ (q <> [] ->
      parse_query_intent q
      = QueryIntent None (lit "unknown") false
          (Some (lit "No ticker symbol found in query"))).
Proof.
  intros H.
  assert (E : extract_ticker_from_query q = None).
  { assert (F : Forall (fun c => AZ_ci c = false) q).
    { unfold no_letter in H. rewrite forallb_forall in H. apply Forall_forall.
      intros c Hc. apply negb_true_iff, H, Hc. }
    destruct patterns_need_letter as (N1 & N2 & N3 & N4 & N5).
    unfold extract_ticker_from_query. destruct q as [|c q]; [reflexivity|].
    apply (strip_Forall (fun c => AZ_ci c = false)) in F.
    unfold re_match, re_search, re_findall, start.
    rewrite (match_here_needs AZ_ci _ None _ N1 F).
    rewrite (search_from_needs AZ_ci _ N2 _ None F).
    rewrite (search_from_needs AZ_ci _ N3 _ None F).
    rewrite (search_from_needs AZ_ci _ N4 _ None F).
    rewrite (findall_from_needs AZ_ci _ N5 _ 0 None F).
    reflexivity. }
  split; [exact E|]. intros N. unfold parse_query_intent.
  destruct q as [|c q]; [contradiction|]. rewrite E. reflexivity.
Qed.

Lemma no_letter_no_ticker_witness :
  extract_ticker_from_query (lit "$123.45 ???") = None.
Proof. exact (proj1 (no_letter_no_ticker (lit "$123.45 ???") eq_refl)). Defined.

Lemma extract_of_ticker t :
  ascii_ticker t = true -> extract_ticker_from_query t = Some t.
Proof.
  intros H. pose proof (ticker_no_space t H) as NS.
  assert (U : upper t = t).
  { apply upper_id. apply ascii_ticker_spec in H. tauto. }
  unfold extract_ticker_from_query. destruct t as [|c t]; [discriminate|].
  rewrite (strip_no_space _ NS), (direct_match_plain _ H).
  unfold group1_upper, group. cbn [caps assoc Nat.eqb option_map].
  rewrite U. reflexivity.
Qed.

(** Extraction is idempotent on ASCII queries: the ticker it returns is
    extracted from itself. *)
Theorem extract_idempotent q t :
  is_ascii_str q = true ->
  extract_ticker_from_query q = Some t ->
  extract_ticker_from_query t = Some t.
Proof. intros HQ H. apply extract_of_ticker. exact (extract_shape q t HQ H). Qed.

Lemma extract_idempotent_witness :
  extract_ticker_from_query (lit "TSLA") = Some (lit "TSLA").
Proof.
  apply (extract_idempotent (lit "how is tsla doing?") (lit "TSLA") eq_refl).
  vm_compute. reflexivity.
Defined.

Lemma search_from_skip r pv c s :
  match_here r (MState pv (c :: s) []) = None ->
  search_from r pv (c :: s) = search_from r (Some c) s.
Proof. intros H. simpl. rewrite H. reflexivity. Qed.

Lemma search_from_here r pv s st :
  match_here r (MState pv s []) = Some st -> search_from r pv s = Some st.
Proof. intros H. destruct s; simpl; rewrite H; reflexivity. Qed.

(** A run of class characters that cannot be extended is taken whole. *)
Lemma rep_take (A : Type) (p : char -> bool) (k : mstate -> option A) res cs s' :
  match s' with c :: _ => p c = false | [] => True end ->
  forall g lo hi pv,
    Forall (fun c => p c = true) g -> lo <= length g ->
    (forall h, hi = Some h -> length g <= h) ->
    k (MState (last_char g pv) s' cs) = Some res ->
    rep p lo hi pv (g ++ s') cs k = Some res.
Proof.
  intros E. induction g as [|c g IH]; intros lo hi pv F L B K.
  - simpl in *. assert (lo = 0) by lia. subst lo.
    destruct s' as [|x s'], hi as [[|h]|]; simpl; try exact K;
      rewrite E; exact K.
  - inversion F as [|? ? Pc F']; subst. simpl.
    destruct hi as [[|h]|].
    + specialize (B 0 eq_refl). simpl in B. lia.
    + rewrite Pc. rewrite (IH (pred lo) (bump 1 (Some (S h))) (Some c)); auto.
      * simpl in L. lia.
      * intros h' [= <-]. specialize (B (S h) eq_refl). simpl in B. lia.
      * rewrite last_char_cons in K. exact K.
    + rewrite Pc. rewrite (IH (pred lo) (bump 1 None) (Some c)); auto.
      * simpl in L. lia.
      * discriminate.
      * rewrite last_char_cons in K. exact K.
Qed.

Lemma group_take (A : Type) (p : char -> bool) (k : mstate -> option A) res
    i lo hi pv g s' cs :
  match s' with c :: _ => p c = false | [] => True end ->
  Forall (fun c => p c = true) g -> lo <= length g ->
  (forall h, hi = Some h -> length g <= h) ->
  k (MState (last_char g pv) s' ((i, g) :: cs)) = Some res ->
  exec (Group i (Rep p lo hi)) (MState pv (g ++ s') cs) k = Some res.
Proof.
  intros E F L B K. cbn [exec prev rest caps].
  apply rep_take; try assumption.
  cbn [prev rest caps]. rewrite firstn_split. exact K.
Qed.

Lemma letter_facts c :
  is_upper_az c || is_lower_az c = true ->
  is_ascii c = true /\ AZ_ci c = true /\ is_space c = false
  /\ only "$" c = false /\ is_word c = true.
Proof.
  intros H.
  assert (Hc : is_ascii c = true).
  { unfold is_upper_az, is_lower_az, in_range in H.
    apply orb_true_iff in H. destruct H as [H|H];
      apply andb_true_iff in H; destruct H as [_ H]; apply N.leb_le in H;
      apply N.ltb_lt; lia. }
  pose proof Hc as Hc'.
  by_ascii_check
    (fun c => implb (is_upper_az c || is_lower_az c)
                (AZ_ci c && negb (is_space c) && negb (only "$" c) && is_word c))
    c Hc.
  rewrite H in Hc. cbn [implb] in Hc.
  do 3 (apply andb_true_iff in Hc; destruct Hc as [Hc ?]).
  repeat match goal with
  | H : negb _ = true |- _ => apply negb_true_iff in H
  end.
  repeat split; assumption.
Qed.

Lemma ascii_letters_spec t :
  ascii_letters t = true ->
  1 <= length t <= 5
  /\ Forall (fun c => is_upper_az c || is_lower_az c = true) t.
Proof.
  unfold ascii_letters. rewrite !andb_true_iff, forallb_forall, Forall_forall.
  rewrite !Nat.leb_le. tauto.
Qed.

Lemma last_char_letter t pv :
  t <> [] -> Forall (fun c => is_upper_az c || is_lower_az c = true) t ->
  exists c, last_char t pv = Some c /\ is_upper_az c || is_lower_az c = true.
Proof.
  intros N F. unfold last_char. destruct (rev t) as [|c r] eqn:E.
  - destruct t; [contradiction|]. apply (f_equal (@length _)) in E.
    rewrite length_rev in E. discriminate.
  - exists c. split; [reflexivity|]. rewrite Forall_forall in F. apply F.
    apply in_rev. rewrite E. left; reflexivity.
Qed.

(** After the verb: white space, no dollar sign, and the letters to the end. *)
Lemma phrase_tail t pv :
  ascii_letters t = true ->
  exec (seqs [plus is_space; dollar_opt; Group 1 (Rep AZ_ci 1 (Some 5)); WordB])
       (MState pv (32%N :: t) []) (fun st => Some st)
  = Some (MState (last_char t (Some 32%N)) [] [(1, t)]).
Proof.
  intros H. apply ascii_letters_spec in H. destruct H as [L F].
  destruct t as [|c t]; [simpl in L; lia|].
  pose proof F as F0. inversion F as [|? ? Hc Ft]; subst.
  destruct (letter_facts c Hc) as (_ & _ & Sc & Dc & _).
  unfold plus, dollar_opt. cbn [seqs exec prev rest caps rep pred bump option_map].
  change (is_space 32%N) with true. cbn iota. rewrite Sc, Dc.
  assert (G : exec (Group 1 (Rep AZ_ci 1 (Some 5)))
                (MState (Some 32%N) ((c :: t) ++ []) [])
                (fun st' => exec WordB st' (fun st => Some st))
              = Some (MState (last_char (c :: t) (Some 32%N)) [] [(1, c :: t)])).
  { apply group_take.
    - exact I.
    - eapply Forall_impl; [|exact F0]. intros x Hx.
      destruct (letter_facts x Hx) as (_ & X & _). exact X.
    - lia.
    - intros h [= <-]. lia.
    - destruct (last_char_letter (c :: t) (Some 32%N)) as (z & -> & Hz);
        [discriminate | exact F0 |].
      destruct (letter_facts z Hz) as (_ & _ & _ & _ & W).
      cbn [exec word_before word_after prev rest]. rewrite W. reflexivity. }
  rewrite app_nil_r in G.
  cbn [exec prev rest caps] in G |- *.
  match goal with
  | |- match ?x with Some _ => _ | None => _ end = Some ?y =>
    let E := fresh "E" in assert (E : x = Some y) by exact G; rewrite E
  end.
  reflexivity.
Qed.

Lemma strip_phrase c p t :
  is_space c = false -> ascii_letters t = true -> strip (c :: p ++ t) = c :: p ++ t.
Proof.
  intros Hc H. apply ascii_letters_spec in H. destruct H as [L F].
  apply strip_ends; [exact Hc|].
  change (c :: p ++ t) with ((c :: p) ++ t). rewrite rev_app_distr.
  destruct (last_char_letter t None) as (z & E & Hz); [|exact F|].
  { destruct t; [simpl in L; lia | discriminate]. }
  unfold last_char in E. destruct (rev t) as [|x r]; [discriminate|].
  injection E as ->. simpl. destruct (letter_facts z Hz) as (_ & _ & S & _). exact S.
Qed.

Ltac compute_lhs :=
  match goal with
  | |- ?L = ?R => let L' := eval vm_compute in L in change (L' = R)
  end.

(** The verb at the start of the text, then the rest of the pattern. *)
Lemma analyze_phrase verb t :
  In verb [lit "analyze"; lit "check"; lit "review"; lit "look at"] ->
  ascii_letters t = true ->
  re_search analyze_pattern (verb ++ 32%N :: t)
  = Some (MState (last_char t (Some 32%N)) [] [(1, t)]).
Proof.
  intros V H. apply search_from_here. pose proof (phrase_tail t) as T.
  unfold match_here.
  set (K := fun st : mstate =>
              exec (seqs [plus is_space; dollar_opt;
                          Group 1 (Rep AZ_ci 1 (Some 5)); WordB]) st
                   (fun st' => Some st')) in *.
  set (res := MState (last_char t (Some 32%N)) [] [(1, t)]) in *.
  change (exec (alts [word_ci "analyze"; word_ci "check";
                      seqs [word_ci "look"; plus is_space; word_ci "at"];
                      word_ci "review"])
               (MState None (verb ++ 32%N :: t) []) K = Some res).
  assert (E : forall p, K (MState p (32%N :: t) []) = Some res).
  { intros p. exact (T p H). }
  clearbody K res. clear T.
  simpl in V. destruct V as [<-|[<-|[<-|[<-|[]]]]];
    compute_lhs; rewrite E; reflexivity.
Qed.

(** The phrases of the analyze pattern work for letters of either case:
    a verb, a space and one to five ASCII letters yield those letters in
    upper case. *)
Theorem analyze_phrase_any_case verb t :
  In verb [lit "analyze"; lit "check"; lit "review"; lit "look at"] ->
  ascii_letters t = true ->
  extract_ticker_from_query (verb ++ lit " " ++ t) = Some (upper t).
Proof.
  intros V H. change (lit " " ++ t) with (32%N :: t).
  pose proof (analyze_phrase verb t V H) as S.
  assert (D : re_match direct_pattern (verb ++ 32%N :: t) = None).
  { simpl in V. destruct V as [<-|[<-|[<-|[<-|[]]]]]; vm_compute; reflexivity. }
  assert (P : strip (verb ++ 32%N :: t) = verb ++ 32%N :: t).
  { simpl in V. destruct V as [<-|[<-|[<-|[<-|[]]]]];
      match goal with
      | |- strip (lit ?v ++ ?x :: t) = _ =>
        let l := eval vm_compute in (lit v ++ [x]) in
        match l with
        | ?c :: ?p =>
          change (strip (c :: p ++ t) = c :: p ++ t);
          apply strip_phrase; [reflexivity | exact H]
        end
      end. }
  unfold extract_ticker_from_query.
  destruct (verb ++ 32%N :: t) as [|a x] eqn:Q.
  { destruct verb; discriminate. }
  rewrite P, D, S. reflexivity.
Qed.

Lemma analyze_phrase_any_case_witness :
  extract_ticker_from_query (lit "check aapl") = Some (lit "AAPL").
Proof.
  apply (analyze_phrase_any_case (lit "check") (lit "aapl")).
  - right. left. reflexivity.
  - reflexivity.
Defined.

Lemma one_token_spec t :
  one_token t = true -> Forall (fun c => is_space c = false) t.
Proof.
  unfold one_token. rewrite forallb_forall, Forall_forall.
  intros H c Hc. apply negb_true_iff, H, Hc.
Qed.

Lemma strip_token c p t :
  is_space c = false -> one_token t = true -> t <> [] ->
  strip (c :: p ++ t) = c :: p ++ t.
Proof.
  intros Hc H N. apply one_token_spec in H.
  apply strip_ends; [exact Hc|].
  change (c :: p ++ t) with ((c :: p) ++ t). rewrite rev_app_distr.
  destruct (rev t) as [|x r] eqn:E.
  - destruct t; [contradiction|]. apply (f_equal (@length _)) in E.
    rewrite length_rev in E. discriminate.
  - simpl. rewrite Forall_forall in H. apply H, in_rev. rewrite E.
    left; reflexivity.
Qed.

(** The phrase "show me" of the information pattern is never reached: the
    question pattern, which is tried first, finds "how" inside "show" and
    takes "me" for the ticker, whatever single word follows. *)
Theorem show_me_yields_me t :
  one_token t = true ->
  extract_ticker_from_query (lit "show me " ++ t) = Some (lit "ME")
  /\ parse_query_intent (lit "show me " ++ t)
     = QueryIntent (Some (lit "ME")) (lit "analyze") true None.
Proof.
  intros H.
  assert (E : extract_ticker_from_query (lit "show me " ++ t) = Some (lit "ME"));
    [|split; [exact E|]; unfold parse_query_intent;
      change (lit "show me " ++ t) with (115%N :: lit "how me " ++ t) at 1;
      cbv iota; rewrite E; reflexivity].
  destruct t as [|c t]; [vm_compute; reflexivity|].
  assert (P : strip (lit "show me " ++ c :: t) = lit "show me " ++ c :: t).
  { apply (strip_token 115%N (lit "how me ") (c :: t)); [reflexivity | exact H |].
    discriminate. }
  pose proof (one_token_spec _ H) as NS.
  set (x := c :: t) in *. clearbody x.
  assert (D : re_match direct_pattern (lit "show me " ++ x) = None)
    by (vm_compute; reflexivity).
  assert (A : re_search analyze_pattern (lit "show me " ++ x) = None).
  { unfold re_search.
    change (lit "show me " ++ x)
      with (115%N :: 104%N :: 111%N :: 119%N :: 32%N :: 109%N :: 101%N :: 32%N :: x).
    repeat (rewrite search_from_skip by (vm_compute; reflexivity)).
    apply (search_from_needs is_space _ analyze_needs _ _ NS). }
  assert (Q : exists st, re_search question_pattern (lit "show me " ++ x) = Some st
                         /\ group 1 st = Some (lit "me")).
  { unfold re_search.
    change (lit "show me " ++ x)
      with (115%N :: 104%N :: 111%N :: 119%N :: 32%N :: 109%N :: 101%N :: 32%N :: x).
    rewrite search_from_skip by (vm_compute; reflexivity).
    exists (MState (Some 101%N) (32%N :: x) [(1, lit "me")]).
    split; [apply search_from_here|].
    - unfold match_here.
      set (K := fun st : mstate =>
                  exec (Seq (Group 1 (Rep AZ_ci 1 (Some 5))) WordB) st
                       (fun st' => Some st')).
      change (exec (seqs [alts [word_ci "what"; word_ci "how"];
                          Opt (alts [seqs [plus is_space; word_ci "is"];
                                     seqs [plus is_space; word_ci "about"];
                                     word_ci "'s"]);
                          plus is_space; dollar_opt])
                (MState (Some 115%N)
                   (104%N :: 111%N :: 119%N :: 32%N :: 109%N :: 101%N :: 32%N :: x) [])
                K = Some (MState (Some 101%N) (32%N :: x) [(1, lit "me")])).
      assert (E : forall p,
                K (MState p (109%N :: 101%N :: 32%N :: x) [])
                = Some (MState (Some 101%N) (32%N :: x) [(1, lit "me")])).
      { intros p. unfold K.
        change (exec (Group 1 (Rep AZ_ci 1 (Some 5)))
                  (MState p (lit "me" ++ 32%N :: x) [])
                  (fun st' => exec WordB st' (fun st'' => Some st''))
                = Some (MState (Some 101%N) (32%N :: x) [(1, lit "me")])).
        apply (group_take _ AZ_ci _ _ 1 1 (Some 5) p (lit "me") (32%N :: x) []).
        - reflexivity.
        - repeat constructor.
        - simpl. lia.
        - intros h [= <-]. simpl. lia.
        - reflexivity. }
      clearbody K. compute_lhs. rewrite E. reflexivity.
    - reflexivity. }
  destruct Q as (st & Q & G).
  unfold extract_ticker_from_query.
  change (lit "show me " ++ x)
    with (115%N :: lit "how me " ++ x) at 1. cbv iota.
  rewrite P, D, A, Q. unfold group1_upper. rewrite G. reflexivity.
Qed.

Lemma show_me_yields_me_witness :
  extract_ticker_from_query (lit "show me MSFT") = Some (lit "ME").
Proof. exact (proj1 (show_me_yields_me (lit "MSFT") eq_refl)). Defined.

End QueryParserProperties.

(** * Further properties of the registry client *)

Module RegistryProperties.
Import Registry RegistryFacts.

Ltac run_request :=
  unfold make_request_body, _retry_request, try_except, bind, session_request,
    sleep, lift, ret; simpl.

Section Schedule.
Variables (net : network) (self : RegistryClient).

Lemma make_request_within_schedule left : forall m e d rc w,
  left = Z.to_nat (max_retries self - rc) ->
  let rq := HttpRequest m (registry_url self ++ e) d in
  let n := retries net rq (sent w) left in
  make_request_within net self left m e d rc w
  = (Ok (outcome_value (net (sent w + n) rq)),
     World (registered w) (trace w ++ schedule rq (retry_delay self) rc n)).
Proof.
  induction left as [|b IH]; intros m e d rc w L rq n.
  - assert (T : (rc <? max_retries self)%Z = false) by (apply Z.ltb_ge; lia).
    subst n. cbn [retries schedule]. rewrite Nat.add_0_r.
    cbn [make_request_within]. run_request. fold rq.
    destruct (net (sent w) rq) as [resp|ex]; rewrite ?T, ?andb_false_r;
      cbn [outcome_value];
      repeat match goal with
      | |- context [match json_body ?r with _ => _ end] => destruct (json_body r)
      | |- context [match text_body ?r with _ => _ end] => destruct (text_body r)
      | |- context [match exn_cls ?x with _ => _ end] => destruct (exn_cls x)
      | |- context [if ?b then _ else _] => destruct b
      end; reflexivity.
  - assert (T : (rc <? max_retries self)%Z = true) by (apply Z.ltb_lt; lia).
    assert (L' : b = Z.to_nat (max_retries self - (rc + 1))) by lia.
    pose proof (IH m e d (rc + 1)%Z
                  (emit (Slept (retry_delay self * 2 ^ rc)) (emit (Sent rq) w)) L')
      as R.
    cbv zeta in R. fold rq in R.
    assert (S1 : sent (emit (Slept (retry_delay self * 2 ^ rc)) (emit (Sent rq) w))
                 = S (sent w)).
    { rewrite !sent_emit. reflexivity. }
    rewrite S1 in R. cbn [registered trace emit] in R.
    rewrite <- !app_assoc in R. cbn [app] in R.
    assert (Retry : retryable (net (sent w) rq) = true ->
              (Ok (outcome_value (net (S (sent w) + retries net rq (S (sent w)) b) rq)),
               World (registered w)
                 (trace w ++ Sent rq :: Slept (retry_delay self * 2 ^ rc)
                    :: schedule rq (retry_delay self) (rc + 1)
                         (retries net rq (S (sent w)) b)))
              = (Ok (outcome_value (net (sent w + n) rq)),
                 World (registered w)
                   (trace w ++ schedule rq (retry_delay self) rc n))).
    { intros Y. subst n. cbn [retries]. rewrite Y. cbn [schedule].
      rewrite Nat.add_succ_r. reflexivity. }
    assert (Stop : retryable (net (sent w) rq) = false ->
              (Ok (outcome_value (net (sent w) rq)),
               World (registered w) (trace w ++ [Sent rq]))
              = (Ok (outcome_value (net (sent w + n) rq)),
                 World (registered w)
                   (trace w ++ schedule rq (retry_delay self) rc n))).
    { intros Y. subst n. cbn [retries]. rewrite Y. cbn [schedule].
      rewrite Nat.add_0_r. reflexivity. }
    clearbody n. cbn [make_request_within]. run_request. fold rq.
    replace (rc + 1 - 1)%Z with rc by lia.
    unfold retryable, retries_class in Retry, Stop.
    destruct (net (sent w) rq) as [resp|ex]; rewrite ?T, ?andb_true_r;
      cbn [outcome_value] in *.
    + destruct ((status resp =? 200)%Z || (status resp =? 201)%Z).
      * destruct (json_body resp) as [v|ex]; simpl.
        -- apply Stop. reflexivity.
        -- destruct (exn_cls ex); try (apply Stop; reflexivity);
             rewrite R; apply Retry; reflexivity.
      * destruct (text_body resp) as [t|ex]; simpl.
        -- destruct (status resp >=? 500)%Z.
           ++ rewrite R. apply Retry; reflexivity.
           ++ apply Stop; reflexivity.
        -- destruct (exn_cls ex); try (apply Stop; reflexivity);
             rewrite R; apply Retry; reflexivity.
    + destruct (exn_cls ex); try (apply Stop; reflexivity);
        rewrite R; apply Retry; reflexivity.
Qed.

Lemma make_request_schedule m e d w :
  let rq := HttpRequest m (registry_url self ++ e) d in
  let n := retries net rq (sent w) (Z.to_nat (max_retries self)) in
  _make_request net self m e d 0 w
  = (Ok (outcome_value (net (sent w + n) rq)),
     World (registered w) (trace w ++ schedule rq (retry_delay self) 0 n)).
Proof.
  intros rq n. subst n.
  replace (Z.to_nat (max_retries self)) with (Z.to_nat (max_retries self - 0))
    by (f_equal; lia).
  unfold _make_request. apply make_request_within_schedule. reflexivity.
Qed.

Lemma retries_le rq : forall budget k, retries net rq k budget <= budget.
Proof.
  induction budget as [|b IH]; intros k; simpl; [lia|].
  destruct (retryable (net k rq)); [specialize (IH (S k))|]; lia.
Qed.

End Schedule.

Section Properties.
Variables (net : network) (now : str) (self : RegistryClient).

(** [_make_request] never raises and never touches the registered flag.  It
    sends the same request again after each retryable outcome: a
    [ClientError] or a timeout, raised by the request or by reading the body
    (the JSON of a 200/201 answer, the text of any other answer, a 4xx
    included), or a status of 500 or more whose text was read.  It does so
    [n] times in all with [n] at most [max_retries], sleeping
    [retry_delay * 2^i] before the [i]-th retry, and returns what the last
    attempt gave: the decoded body of a 200/201 answer, and [None]
    otherwise. *)
Theorem make_request_retries m e d w :
  let rq := HttpRequest m (registry_url self ++ e) d in
  let n := retries net rq (sent w) (Z.to_nat (max_retries self)) in
  _make_request net self m e d 0 w
  = (Ok (outcome_value (net (sent w + n) rq)),
     World (registered w) (trace w ++ schedule rq (retry_delay self) 0 n))
  /\ n <= Z.to_nat (max_retries self).
Proof.
  intros rq n. split; [apply make_request_schedule | apply retries_le].
Qed.

Lemma sleeps_of_app w l :
  sleeps_of (World (registered w) (trace w ++ l))
  = sleeps_of w ++ flat_map (fun e => match e with Slept d => [d] | _ => [] end) l.
Proof. unfold sleeps_of. simpl. apply flat_map_app. Qed.

Lemma schedule_sleeps rq delay : forall n rc,
  flat_map (fun e => match e with Slept d => [d] | _ => [] end)
    (schedule rq delay rc n)
  = map (fun i => (delay * 2 ^ (rc + Z.of_nat i))%Z) (seq 0 n).
Proof.
  induction n as [|n IH]; intros rc; simpl; [reflexivity|].
  rewrite IH, <- seq_shift, map_map. rewrite Z.add_0_r. f_equal.
  apply map_ext. intros i. f_equal. f_equal. lia.
Qed.

Lemma total_doubling delay : forall n rc, (0 <= rc)%Z ->
  total (map (fun i => (delay * 2 ^ (rc + Z.of_nat i))%Z) (seq 0 n))
  = (delay * 2 ^ rc * (2 ^ Z.of_nat n - 1))%Z.
Proof.
  induction n as [|n IH]; intros rc Hrc.
  - simpl. lia.
  - cbn [seq map total fold_right]. rewrite <- seq_shift, map_map.
    fold (total (map (fun x => (delay * 2 ^ (rc + Z.of_nat (S x)))%Z) (seq 0 n))).
    erewrite map_ext; [rewrite (IH (rc + 1)%Z) by lia|].
    + rewrite Z.add_0_r, Nat2Z.inj_succ, !Z.pow_succ_r, Z.pow_add_r by lia.
      change (2 ^ 1)%Z with 2%Z. ring.
    + intros i. simpl. f_equal. f_equal. lia.
Qed.

(** The sleeps one [_make_request] call adds are [retry_delay],
    [2 * retry_delay], [4 * retry_delay], ..., one per retry; together they
    last [retry_delay * (2^n - 1)] for [n] retries, hence at most
    [retry_delay * (2^max_retries - 1)] when the delay is not negative. *)
Theorem backoff_delays m e d w :
  exists n,
    n <= Z.to_nat (max_retries self)
    /\ sleeps_of (snd (_make_request net self m e d 0 w))
       = sleeps_of w
         ++ map (fun i => (retry_delay self * 2 ^ Z.of_nat i)%Z) (seq 0 n)
    /\ total (sleeps_of (snd (_make_request net self m e d 0 w)))
       = (total (sleeps_of w) + retry_delay self * (2 ^ Z.of_nat n - 1))%Z
    /\ ((0 <= retry_delay self)%Z ->
        (total (sleeps_of (snd (_make_request net self m e d 0 w)))
         <= total (sleeps_of w)
            + retry_delay self * (2 ^ Z.max 0 (max_retries self) - 1))%Z).
Proof.
  pose proof (make_request_schedule net self m e d w) as E. cbv zeta in E.
  set (rq := HttpRequest m (registry_url self ++ e) d) in *.
  set (n := retries net rq (sent w) (Z.to_nat (max_retries self))) in *.
  assert (Ln : n <= Z.to_nat (max_retries self)) by apply retries_le.
  exists n. rewrite E. cbn [snd]. rewrite sleeps_of_app, schedule_sleeps.
  assert (T : forall a b, total (a ++ b) = (total a + total b)%Z).
  { induction a as [|x a IHa]; intros b; simpl; [reflexivity|].
    unfold total in *. rewrite IHa. lia. }
  split; [exact Ln|]. split; [reflexivity|].
  rewrite T, (total_doubling _ n 0) by lia.
  change (2 ^ 0)%Z with 1%Z. rewrite Z.mul_1_r.
  split; [reflexivity|]. intros D.
  apply Z.add_le_mono_l. apply Z.mul_le_mono_nonneg_l; [exact D|].
  apply Z.sub_le_mono_r. apply Z.pow_le_mono_r; lia.
Qed.

(** [deregister] on a client that is not registered returns [True] without
    sending anything.  In every case it returns a boolean, never raises, and
    the registered flag afterwards is the flag before, cleared when the
    call returned [True]: a call that returns [False] leaves it set. *)
Theorem deregister_flag w :
  (registered w = false -> deregister net self w = (Ok true, w))
  /\ exists b w',
       deregister net self w = (Ok b, w')
       /\ registered w' = registered w && negb b.
Proof.
  assert (U : registered w = false -> deregister net self w = (Ok true, w)).
  { intros R. unfold deregister, try_except, bind, get_registered.
    rewrite R. reflexivity. }
  split; [exact U|].
  destruct (registered w) eqn:R.
  - unfold deregister, try_except, bind, get_registered. rewrite R. cbn [negb].
    rewrite make_request_schedule.
    destruct (truthy _ || is_none _); eexists _, _; (split; [reflexivity|]);
      simpl; rewrite ?R; reflexivity.
  - rewrite (U eq_refl). exists true, w. rewrite R. auto.
Qed.

(** [update_status] never raises and never touches the registered flag: it
    sends its PUT request under the retry schedule of [_make_request] and
    returns the truth value of the answer, so an empty JSON body of a 200
    answer counts as a failure.  [heartbeat] is the same call with status
    healthy and no metadata. *)
Theorem update_status_outcome status metadata w :
  let rq := update_request now self status metadata in
  let n := retries net rq (sent w) (Z.to_nat (max_retries self)) in
  update_status net now self status metadata w
  = (Ok (truthy (outcome_value (net (sent w + n) rq))),
     World (registered w) (trace w ++ schedule rq (retry_delay self) 0 n))
  /\ heartbeat net now self = update_status net now self (lit "healthy") None.
Proof.
  intros rq n. split; [|reflexivity].
  unfold update_status, try_except, bind. rewrite make_request_schedule.
  reflexivity.
Qed.

Ltac logged := unfold log_event, emit, ret; simpl; rewrite <- ?app_assoc; reflexivity.

Lemma lookup_agent_closed target w :
  let rq := lookup_request self target in
  let n := retries net rq (sent w) (Z.to_nat (max_retries self)) in
  let response := outcome_value (net (sent w + n) rq) in
  lookup_agent net self target w
  = (Ok (agent_url_of response),
     World (registered w)
       (trace w ++ schedule rq (retry_delay self) 0 n ++ [lookup_event response])).
Proof.
  intros rq n response.
  unfold lookup_agent, try_except, bind. rewrite make_request_schedule.
  change (HttpRequest (lit "GET") (registry_url self ++ lit "/agents/" ++ target)
            None) with rq.
  change (retries net rq (sent w) (Z.to_nat (max_retries self))) with n.
  change (outcome_value (net (sent w + n) rq)) with response.
  clearbody response. unfold agent_url_of, lookup_event.
  destruct response as [|b|z|s|l|d]; cbn [truthy lift py_contains ret].
  - logged.
  - destruct b; logged.
  - destruct (negb (z =? 0)%Z); logged.
  - destruct s as [|c s]; [logged|].
    cbv beta iota. destruct (substring_of _ _); logged.
  - destruct l as [|x l]; [logged|].
    cbv beta iota. destruct (existsb _ _); logged.
  - destruct d as [|x d]; [logged|].
    cbv beta iota. unfold dict_has, dict_get_or, py_getitem.
    destruct (dict_get (lit "agent_url") (x :: d)); logged.
Qed.

(** [lookup_agent] never raises: it sends its GET request under the retry
    schedule, logs one audit event, and returns the [agent_url] item of a
    non-empty JSON object that has one, and [None] for every other answer
    (no answer, a JSON list, string or number, or an object without the
    key). *)
Theorem lookup_agent_outcome target w :
  let rq := lookup_request self target in
  let n := retries net rq (sent w) (Z.to_nat (max_retries self)) in
  let response := outcome_value (net (sent w + n) rq) in
  lookup_agent net self target w
  = (Ok (agent_url_of response),
     World (registered w)
       (trace w ++ schedule rq (retry_delay self) 0 n ++ [lookup_event response])).
Proof. exact (lookup_agent_closed target w). Qed.

(** [get_agent_info] never raises, and it reads the same registry entry as
    [lookup_agent]: against the same network, the URL [lookup_agent] returns
    is the [agent_url] of the information [get_agent_info] returns.  The
    information is [None] or a truthy value, never an empty body. *)
Theorem get_agent_info_lookup target w :
  exists info w1,
    get_agent_info net self target w = (Ok info, w1)
    /\ fst (lookup_agent net self target w) = Ok (agent_url_of info)
    /\ (info <> PNone -> truthy info = true).
Proof.
  pose proof (lookup_agent_closed target w) as L. cbv zeta in L. rewrite L.
  unfold get_agent_info, try_except, bind. rewrite make_request_schedule.
  fold (lookup_request self target).
  destruct (truthy (outcome_value _)) eqn:T; eexists _, _;
    (split; [reflexivity|]); cbn [fst]; split; auto.
  destruct (outcome_value _) as [|b|z|s|l|d]; try reflexivity.
  simpl in T. destruct d; [reflexivity | discriminate].
Qed.

(** [list_agents] never raises: under the retry schedule of its GET request
    it returns the answer when that is a non-empty JSON list, the [agents]
    item of a JSON object when that item has a length (a string, a list or
    an object), and the empty list for every other answer, an object whose
    [agents] item is a number, a boolean or null included. *)
Theorem list_agents_outcome capability domain w :
  let rq := list_request self capability domain in
  let n := retries net rq (sent w) (Z.to_nat (max_retries self)) in
  let response := outcome_value (net (sent w + n) rq) in
  list_agents net self capability domain w
  = (Ok (match response with
         | PList (_ :: _) => response
         | PDict d =>
           match dict_get (lit "agents") d with
           | Some (PStr s) => PStr s
           | Some (PList l) => PList l
           | Some (PDict a) => PDict a
           | _ => PList []
           end
         | _ => PList []
         end),
     World (registered w) (trace w ++ schedule rq (retry_delay self) 0 n)).
Proof.
  intros rq n response.
  unfold list_agents, try_except, bind. rewrite make_request_schedule.
  change (HttpRequest (lit "GET")
            (registry_url self ++ agents_endpoint capability domain) None) with rq.
  change (retries net rq (sent w) (Z.to_nat (max_retries self))) with n.
  change (outcome_value (net (sent w + n) rq)) with response.
  clearbody response.
  destruct response as [|b|z|s|l|d]; cbn [truthy is_list andb lift py_contains ret].
  - reflexivity.
  - destruct b; reflexivity.
  - destruct (negb (z =? 0)%Z); reflexivity.
  - destruct s as [|c s]; [reflexivity|]. cbv beta iota. rewrite andb_false_r.
    destruct (substring_of _ _); reflexivity.
  - destruct l as [|x l]; reflexivity.
  - destruct d as [|x d]; [reflexivity|]. cbv beta iota. rewrite andb_false_r.
    unfold dict_has, py_getitem.
    destruct (dict_get (lit "agents") (x :: d)) as [[|b|z|s|l|a]|]; reflexivity.
Qed.

End Properties.

Lemma lstrip_char_head x s :
  match lstrip_char x s with c :: _ => (c =? x)%N = false | [] => True end.
Proof.
  induction s as [|c s IH]; simpl; [exact I|].
  destruct (c =? x)%N eqn:E; [exact IH | exact E].
Qed.

(** The constructor strips the slashes that end the registry URL: a URL
    with one more slash gives the same client, and the stored URL does not
    end in a slash. *)
Theorem init_trailing_slash url agent_id max_retries retry_delay :
  Registry.__init__ (url ++ lit "/") agent_id max_retries retry_delay
  = Registry.__init__ url agent_id max_retries retry_delay
  /\ match rev (registry_url (Registry.__init__ url agent_id max_retries retry_delay)) with
     | c :: _ => c <> 47%N
     | [] => True
     end.
Proof.
  split.
  - unfold Registry.__init__. f_equal. unfold rstrip_char.
    rewrite rev_app_distr. reflexivity.
  - unfold Registry.__init__. cbn [registry_url]. unfold rstrip_char.
    rewrite rev_involutive. pose proof (lstrip_char_head 47%N (rev url)) as H.
    destruct (lstrip_char 47%N (rev url)); [exact I|].
    intros ->. discriminate.
Qed.

End RegistryProperties.

(** * How the computations act on the world *)

Module EffectFacts.
Import Registry RegistryProperties.

(** How the notions go through the combinators. *)
Section Combinators.
Context {A B : Type}.

Lemma keeps_ret (a : A) : keeps_flag (ret a).
Proof. intros w. reflexivity. Qed.

Lemma keeps_throw (e : exn) : keeps_flag (@throw A e).
Proof. intros w. reflexivity. Qed.

Lemma keeps_lift (r : res A) : keeps_flag (lift r).
Proof. intros w. reflexivity. Qed.

Lemma keeps_bind (m : M A) (f : A -> M B) :
  keeps_flag m -> (forall a, keeps_flag (f a)) -> keeps_flag (bind m f).
Proof.
  intros Hm Hf w. unfold bind. specialize (Hm w).
  destruct (m w) as [[a|e] w1]; simpl in *; [|exact Hm].
  rewrite (Hf a w1). exact Hm.
Qed.

Lemma keeps_try (m : M A) (h : exn -> M A) :
  keeps_flag m -> (forall e, keeps_flag (h e)) -> keeps_flag (try_except m h).
Proof.
  intros Hm Hh w. unfold try_except. specialize (Hm w).
  destruct (m w) as [[a|e] w1]; simpl in *; [exact Hm|].
  rewrite (Hh e w1). exact Hm.
Qed.

Lemma quiet_ret (a : A) : sends_nothing (ret a).
Proof. intros w. reflexivity. Qed.

Lemma quiet_throw (e : exn) : sends_nothing (@throw A e).
Proof. intros w. reflexivity. Qed.

Lemma quiet_lift (r : res A) : sends_nothing (lift r).
Proof. intros w. reflexivity. Qed.

Lemma quiet_bind (m : M A) (f : A -> M B) :
  sends_nothing m -> (forall a, sends_nothing (f a)) -> sends_nothing (bind m f).
Proof.
  intros Hm Hf w. unfold bind. specialize (Hm w).
  destruct (m w) as [[a|e] w1]; simpl in *; [|exact Hm].
  rewrite (Hf a w1). exact Hm.
Qed.

Lemma quiet_try (m : M A) (h : exn -> M A) :
  sends_nothing m -> (forall e, sends_nothing (h e)) ->
  sends_nothing (try_except m h).
Proof.
  intros Hm Hh w. unfold try_except. specialize (Hm w).
  destruct (m w) as [[a|e] w1]; simpl in *; [exact Hm|].
  rewrite (Hh e w1). exact Hm.
Qed.

Lemma safe_try (m : M A) (h : exn -> M A) :
  (forall e, never_raises (h e)) -> never_raises (try_except m h).
Proof.
  intros Hh w. unfold try_except.
  destruct (m w) as [[a|e] w1]; [exists a; reflexivity | apply Hh].
Qed.

Lemma safe_ret (a : A) : never_raises (ret a).
Proof. intros w. exists a. reflexivity. Qed.

Lemma safe_bind (m : M A) (f : A -> M B) :
  never_raises m -> (forall a, never_raises (f a)) -> never_raises (bind m f).
Proof.
  intros Hm Hf w. unfold bind. destruct (Hm w) as (a & E).
  destruct (m w) as [[a'|e] w1]; simpl in E; [|discriminate].
  apply Hf.
Qed.

End Combinators.

Lemma keeps_log k s : keeps_flag (log_event k s).
Proof. intros w. reflexivity. Qed.

Lemma quiet_log k s : sends_nothing (log_event k s).
Proof. intros w. unfold log_event, sent, emit. simpl.
  rewrite filter_app, length_app. simpl. lia. Qed.

Lemma safe_log k s : never_raises (log_event k s).
Proof. intros w. exists tt. reflexivity. Qed.

Lemma keeps_session net rq : keeps_flag (session_request net rq).
Proof. intros w. reflexivity. Qed.

Lemma keeps_get_registered : keeps_flag get_registered.
Proof. intros w. reflexivity. Qed.

Lemma keeps_lookup net client target :
  keeps_flag (lookup_agent net client target).
Proof. intros w. rewrite lookup_agent_closed. reflexivity. Qed.

Lemma safe_lookup net client target :
  never_raises (lookup_agent net client target).
Proof. intros w. rewrite lookup_agent_closed. eexists. reflexivity. Qed.

Ltac keeps :=
  repeat first
    [ apply keeps_ret | apply keeps_throw | apply keeps_lift | apply keeps_log
    | apply keeps_session | apply keeps_lookup | apply keeps_get_registered
    | apply keeps_bind; [|intros ?] | apply keeps_try; [|intros ?]
    | match goal with
      | |- keeps_flag (match ?x with _ => _ end) => destruct x
      | |- keeps_flag (if ?b then _ else _) => destruct b
      | |- keeps_flag (let '(_, _) := ?x in _) => destruct x
      end ].

Ltac quiet :=
  repeat first
    [ apply quiet_ret | apply quiet_throw | apply quiet_lift | apply quiet_log
    | apply quiet_bind; [|intros ?] | apply quiet_try; [|intros ?]
    | match goal with
      | |- sends_nothing (match ?x with _ => _ end) => destruct x
      | |- sends_nothing (if ?b then _ else _) => destruct b
      | |- sends_nothing (let '(_, _) := ?x in _) => destruct x
      end ].

End EffectFacts.

(** * Further properties of the bridge *)

Module BridgeProperties.
Import Registry RegistryFacts RegistryProperties Bridge.
Import RegexFacts MentionFacts EffectFacts.

Section Properties.
Variable F : float_ops.
Variable net : network.
Variables now new_conversation_id : str.
Variable perform_complete_analysis : str -> str -> res (StockAnalysis F).
Variable self : StockAgentBridge.
Variable get_service_health : res pyval.

Lemma keeps_send target message cid pid metadata :
  keeps_flag (send_to_agent net now new_conversation_id self target message
                cid pid metadata).
Proof. unfold send_to_agent. keeps. Qed.

Lemma keeps_process query cid pid :
  keeps_flag (process_stock_query net now new_conversation_id
                perform_complete_analysis self query cid pid).
Proof.
  unfold process_stock_query, truthy_and_contains.
  keeps; apply keeps_send.
Qed.

(** [send_to_agent] never raises, whatever the registry and the peer do, and
    it does not touch the registered flag of the bridge's registry client. *)
Theorem send_to_agent_contained target message cid pid metadata :
  never_raises (send_to_agent net now new_conversation_id self target message
                  cid pid metadata)
  /\ keeps_flag (send_to_agent net now new_conversation_id self target message
                   cid pid metadata).
Proof.
  split; [|apply keeps_send].
  unfold send_to_agent. apply safe_try. intros e. apply safe_ret.
Qed.


Lemma quiet_process_local query cid pid :
  fst (parse_agent_mention query) = None ->
  sends_nothing (process_stock_query net now new_conversation_id
                   perform_complete_analysis self query cid pid).
Proof.
  intros H. unfold process_stock_query.
  destruct (parse_agent_mention query) as [target remaining]. simpl in H.
  subst target. quiet.
Qed.

Lemma prefix_of_app (a b : str) : prefix_of a (a ++ b) = true.
Proof.
  induction a as [|x a IH]; simpl; [reflexivity|].
  rewrite N.eqb_refl. exact IH.
Qed.

Lemma tag_prefix (x : str) :
  prefix_of (lit "[" ++ agent_id self ++ lit "]")
    (lit "[" ++ agent_id self ++ lit "]" ++ x) = true.
Proof.
  replace (lit "[" ++ agent_id self ++ lit "]" ++ x)
    with ((lit "[" ++ agent_id self ++ lit "]") ++ x)
    by (rewrite <- !app_assoc; reflexivity).
  apply prefix_of_app.
Qed.

Lemma tagged_error msg code sugg cid pid :
  exists parts,
    format_error_response msg cid pid (agent_id self) code sugg
    = a2a_response parts cid pid /\ tagged (agent_id self) parts.
Proof.
  eexists. split; [reflexivity|]. simpl. apply tag_prefix.
Qed.

Lemma tagged_analysis (a : StockAnalysis F) cid pid :
  exists parts,
    format_analysis_response a cid pid (agent_id self)
    = a2a_response parts cid pid /\ tagged (agent_id self) parts.
Proof.
  eexists. split; [reflexivity|]. simpl.
  change (lit "] ") with (lit "]" ++ lit " "). rewrite <- ?app_assoc.
  apply tag_prefix.
Qed.

Lemma local_response query cid pid w :
  fst (parse_agent_mention query) = None ->
  exists parts w',
    process_stock_query net now new_conversation_id perform_complete_analysis
      self query cid pid w
    = (Ok (PDict (a2a_response parts cid pid)), w')
    /\ tagged (agent_id self) parts.
Proof.
  intros H. unfold process_stock_query.
  destruct (parse_agent_mention query) as [target remaining]. simpl in H.
  subst target. unfold bind, log_event, try_except, ret, lift, throw.
  destruct (qi_valid (parse_query_intent query)); cbn [negb].
  - destruct (qi_ticker (parse_query_intent query)) as [ticker|].
    + destruct (perform_complete_analysis ticker query) as [analysis|e].
      * destruct (recommendation analysis).
        -- destruct (tagged_analysis analysis cid pid) as (parts & -> & T). eauto.
        -- match goal with |- context [format_error_response ?m _ _ _ ?c ?s] =>
             destruct (tagged_error m c s cid pid) as (parts & -> & T) end. eauto.
      * match goal with |- context [format_error_response ?m _ _ _ ?c ?s] =>
          destruct (tagged_error m c s cid pid) as (parts & -> & T) end. eauto.
    + match goal with |- context [format_error_response ?m _ _ _ ?c ?s] =>
        destruct (tagged_error m c s cid pid) as (parts & -> & T) end. eauto.
  - match goal with |- context [format_error_response ?m _ _ _ ?c ?s] =>
      destruct (tagged_error m c s cid pid) as (parts & -> & T) end. eauto.
Qed.

(** An ASCII query without a mention is answered locally: a response
    dictionary comes back, no HTTP request is made, the registered flag is
    untouched, and the response has the role of an agent, the conversation
    id of the request and, when one was given and is not empty, its parent
    message id.  (The word class of the mention pattern is the ASCII one
    here, so the statement is about ASCII queries.) *)
Theorem local_query_answered query cid pid w :
  is_ascii_str query = true ->
  fst (parse_agent_mention query) = None ->
  exists d w',
    process_stock_query net now new_conversation_id perform_complete_analysis
      self query cid pid w
    = (Ok (PDict d), w')
    /\ sent w' = sent w /\ registered w' = registered w
    /\ dict_get (lit "role") d = Some (PStr (lit "agent"))
    /\ dict_get (lit "conversation_id") d = Some (PStr cid)
    /\ dict_get (lit "parent_message_id") d
       = match pid with
         | Some ((_ :: _) as p) => Some (PStr p)
         | _ => None
         end.
Proof.
  intros _ H. destruct (local_response query cid pid w H) as (parts & w' & E & _).
  pose proof (quiet_process_local query cid pid H w) as Q.
  pose proof (keeps_process query cid pid w) as K.
  rewrite E in Q, K. simpl in Q, K.
  exists (a2a_response parts cid pid), w'.
  split; [exact E|]. split; [exact Q|]. split; [exact K|].
  destruct pid as [[|c p]|]; repeat split.
Qed.


Lemma mention_target query target remaining :
  parse_agent_mention query = (Some target, remaining) -> target <> [].
Proof.
  unfold parse_agent_mention.
  destruct (re_match mention_pattern (strip query)) as [st|] eqn:M;
    [|discriminate].
  revert M. unfold re_match, match_here, mention_pattern, start, plus.
  cbn [seqs exec prev rest caps]. destruct (strip query) as [|a s]; [discriminate|].
  destruct (only "@" a); [|discriminate].
  intros H. apply rep_sound in H.
  destruct H as (tid & s2 & -> & _ & Lid & _ & H).
  cbn [prev rest caps] in H. rewrite firstn_split in H.
  apply rep_sound in H. destruct H as (tw & s3 & -> & _ & _ & _ & H).
  cbn [prev rest caps] in H.
  apply rep_sound in H. destruct H as (r & e & -> & _ & _ & _ & H).
  cbn [prev rest caps] in H. rewrite firstn_split in H.
  destruct (at_eol _) in H; [|discriminate].
  injection H as <-. unfold group. cbn [caps assoc Nat.eqb].
  intros [= <- _]. destruct tid; [simpl in Lid; lia | discriminate].
Qed.

(** A bridge without a registry client answers every mention with the
    communication error: it makes no HTTP request and logs only the
    incoming query. *)
Theorem mention_without_registry query cid pid target remaining w :
  registry_client self = None ->
  parse_agent_mention query = (Some target, remaining) ->
  process_stock_query net now new_conversation_id perform_complete_analysis
    self query cid pid w
  = (Ok (PDict (format_error_response
                  (lit "Cannot send messages to other agents without registry configuration")
                  cid pid (agent_id self)
                  (Some (lit "AGENT_COMMUNICATION_ERROR"))
                  (forwarding_suggestions target))),
     emit processing w).
Proof.
  intros R P. pose proof (mention_target _ _ _ P) as N.
  unfold process_stock_query. rewrite P.
  destruct target as [|c t]; [contradiction|].
  unfold send_to_agent. rewrite R. reflexivity.
Qed.

(** When the registry does not answer the lookup with an agent URL, the
    mention is answered with the communication error that names the agent;
    the only requests made are the attempts of the lookup, so nothing is
    sent to any peer. *)
Theorem mention_of_unknown_agent client query cid pid target remaining w :
  registry_client self = Some client ->
  parse_agent_mention query = (Some target, remaining) ->
  let rq := lookup_request client target in
  let n := retries net rq (sent w) (Z.to_nat (max_retries client)) in
  let response := outcome_value (net (sent w + n) rq) in
  truthy (agent_url_of response) = false ->
  process_stock_query net now new_conversation_id perform_complete_analysis
    self query cid pid w
  = (Ok (PDict (format_error_response
                  (lit "Agent '" ++ target
                   ++ lit "' is not registered in the NANDA network")
                  cid pid (agent_id self)
                  (Some (lit "AGENT_COMMUNICATION_ERROR"))
                  (forwarding_suggestions target))),
     World (registered w)
       (trace w ++ processing :: schedule rq (retry_delay client) 0 n
          ++ [lookup_event response])).
Proof.
  intros R P rq n response T. pose proof (mention_target _ _ _ P) as N.
  unfold process_stock_query. rewrite P.
  destruct target as [|c t]; [contradiction|].
  unfold send_to_agent. rewrite R.
  unfold bind at 1. unfold log_event at 1.
  unfold bind at 1. unfold try_except at 1. unfold bind at 1.
  rewrite lookup_agent_closed.
  rewrite sent_emit. cbn [is_sent].
  fold rq n response. rewrite T. cbn [negb].
  unfold ret, truthy_and_contains, bind, lift, error_dict.
  cbn [truthy py_contains dict_has dict_get str_eqb py_getitem py_str
       registered trace emit].
  rewrite <- app_assoc. reflexivity.
Qed.


Lemma wire_get_metadata message :
  dict_get (lit "metadata") (wire message) = msg_metadata message.
Proof.
  unfold wire, entry.
  destruct (msg_content message), (msg_message_id message), (msg_id message),
    (msg_metadata message); reflexivity.
Qed.

Lemma wire_get_conversation message :
  dict_get (lit "conversation_id") (wire message)
  = Some (PStr (msg_conversation_id message)).
Proof.
  unfold wire, entry.
  destruct (msg_content message), (msg_message_id message), (msg_id message),
    (msg_metadata message); reflexivity.
Qed.

(** A message whose metadata is not a dictionary is answered with the
    message-processing error, under the conversation id of the message;
    nothing is logged or sent. *)
Theorem malformed_metadata_answered message metadata w :
  msg_metadata message = Some metadata -> not_a_dict metadata = true ->
  exists detail,
    handle_a2a_message net now new_conversation_id perform_complete_analysis
      self message w
    = (Ok (PDict (format_error_response
                    (lit "Failed to process message: " ++ detail)
                    (msg_conversation_id message) None (agent_id self)
                    (Some (lit "MESSAGE_PROCESSING_ERROR")) [])),
       w).
Proof.
  intros Hm Hd. unfold handle_a2a_message, try_except, bind, lift.
  unfold parse_a2a_message. rewrite wire_get_metadata, Hm.
  unfold dict_get_or. rewrite wire_get_conversation.
  destruct metadata; try discriminate; eexists; reflexivity.
Qed.

(** What [get_health_status] reports: it never raises and changes nothing;
    the status is healthy or degraded by the collaborator's overall status,
    unhealthy when the collaborator fails or answers with something that
    is not a dictionary. *)
Lemma health_status_reported w :
  exists d,
    get_health_status now self get_service_health w = (Ok d, w)
    /\ dict_get (lit "agent_id") d = Some (PStr (agent_id self))
    /\ dict_get (lit "status") d
       = Some (PStr (match get_service_health with
                     | Ok (PDict health) =>
                       if pyval_is_str (lit "healthy")
                            (dict_get_or (lit "overall_status") PNone health)
                       then lit "healthy" else lit "degraded"
                     | _ => lit "unhealthy"
                     end))
    /\ dict_get (lit "registry_connected") d
       = match get_service_health, registry_client self with
         | Ok (PDict _), Some _ => Some (PBool (registered w))
         | _, _ => None
         end.
Proof.
  unfold get_health_status, try_except, bind, lift, py_get, get_registered, ret.
  destruct get_service_health as [[|b|z|s|l|health]|e];
    try (eexists; split; [reflexivity|]; repeat split).
  destruct (registry_client self);
    eexists; (split; [reflexivity|]); repeat split;
    destruct (pyval_is_str _ _); reflexivity.
Qed.

End Properties.

End BridgeProperties.

(** * Properties of the configuration, the launcher and the health router *)

Module ConfigProperties.
Import Config.

Lemma split_from_nonempty sep : forall s word, split_from sep word s <> [].
Proof.
  induction s as [|c s IH]; intros word; simpl; [discriminate|].
  destruct (c =? sep)%N; [discriminate | apply IH].
Qed.

Lemma list_or_nonempty getenv name default :
  default <> [] -> list_or getenv name default <> [].
Proof.
  intros D. unfold list_or. destruct (getenv (lit name)) as [[|c v]|]; auto.
  unfold split. intros E. apply map_eq_nil in E.
  exact (split_from_nonempty _ _ _ E).
Qed.

Lemma should_enable_nest_spec c :
  (should_enable_nest c = true <->
   enable_nest c = true /\ agent_id c <> [] /\ agent_name c <> []
   /\ (1 <= nest_port c <= 65535)%Z /\ capabilities c <> [])
  /\ (fst (validate c) = true <-> snd (validate c) = [])
  /\ (enable_nest c = false -> validate c = (true, [])).
Proof.
  unfold should_enable_nest, validate, validation_errors, blank, port_out_of_range.
  destruct (enable_nest c); cbn [negb].
  - split; [|split; [|discriminate]].
    + destruct (agent_id c) as [|x1 l1], (agent_name c) as [|x2 l2],
        (capabilities c) as [|x3 l3];
        destruct (nest_port c <=? 0)%Z eqn:P1;
        destruct (65535 <? nest_port c)%Z eqn:P2; simpl;
        try (apply Z.leb_le in P1); try (apply Z.leb_gt in P1);
        try (apply Z.ltb_lt in P2); try (apply Z.ltb_ge in P2);
        split; try discriminate; try tauto; try (intros (_ & _ & _ & ? & _); lia);
        intros _; repeat split; try discriminate; lia.
    + simpl. destruct (_ ++ _); simpl; split; auto; discriminate.
  - split; [|split; [|reflexivity]].
    + split; [discriminate | intros [? _]; discriminate].
    + simpl. tauto.
Qed.

(** NEST is enabled exactly when the flag is set, the agent id and the
    agent name are not empty, the port lies between 1 and 65535 and there
    is a capability; the registry URL and the public URL play no part.
    [validate] is valid exactly when it reports no error, and reports none
    when NEST is disabled. *)
Theorem should_enable_nest_iff c :
  (should_enable_nest c = true <->
   enable_nest c = true /\ agent_id c <> [] /\ agent_name c <> []
   /\ (1 <= nest_port c <= 65535)%Z /\ capabilities c <> [])
  /\ (fst (validate c) = true <-> snd (validate c) = [])
  /\ (enable_nest c = false -> validate c = (true, [])).
Proof. exact (should_enable_nest_spec c). Qed.

(** A configuration read from the environment always has a capability and
    an expertise, so the capability check of [validate] cannot fail for it:
    it enables NEST exactly when NEST_ENABLED parses as true, the agent id
    and name are not empty and the port is in range; without NEST_ENABLED
    it never does. *)
Theorem from_env_capabilities getenv int c :
  from_env getenv int = Ok c ->
  capabilities c <> [] /\ expertise c <> []
  /\ enable_nest c = _parse_bool (getenv_or getenv "NEST_ENABLED" (lit "false"))
  /\ (should_enable_nest c = true <->
      enable_nest c = true /\ agent_id c <> [] /\ agent_name c <> []
      /\ (1 <= nest_port c <= 65535)%Z)
  /\ (getenv (lit "NEST_ENABLED") = None -> should_enable_nest c = false).
Proof.
  unfold from_env. destruct (int _) as [port|e]; [|discriminate].
  intros [= <-]. cbn [capabilities expertise enable_nest].
  assert (C : list_or getenv "NEST_CAPABILITIES" (capabilities defaults) <> [])
    by (apply list_or_nonempty; discriminate).
  assert (E : list_or getenv "NEST_EXPERTISE" (expertise defaults) <> [])
    by (apply list_or_nonempty; discriminate).
  split; [exact C|]. split; [exact E|]. split; [reflexivity|].
  match goal with |- (should_enable_nest ?c = true <-> _) /\ _ =>
    pose proof (proj1 (should_enable_nest_spec c)) as S end.
  cbn [capabilities expertise enable_nest agent_id agent_name nest_port] in S.
  split.
  - rewrite S. tauto.
  - intros N. apply not_true_is_false. intros X. apply S in X. destruct X as [X _]. unfold getenv_or in X. rewrite N in X.
    discriminate.
Qed.

End ConfigProperties.

Module LauncherProperties.
Import Config Launcher.

(** The configuration that [get_status] shares has no API key and no system
    prompt, but the one that [GET /nest/config] serves is the full
    metadata: it holds the Anthropic API key and the system prompt. *)
Theorem api_key_served c now :
  dict_get (lit "anthropic_api_key") (get_agent_config_for_communication c) = None
  /\ dict_get (lit "system_prompt") (get_agent_config_for_communication c) = None
  /\ exists agent_config,
       dict_get (lit "agent_config") (Health.nest_agent_config (Some c) now)
       = Some (PDict agent_config)
       /\ dict_get (lit "anthropic_api_key") agent_config
          = Some (opt_str (anthropic_api_key c))
       /\ dict_get (lit "system_prompt") agent_config
          = Some (PStr (system_prompt c)).
Proof.
  split; [reflexivity|]. split; [reflexivity|].
  eexists. split; [reflexivity|]. split; reflexivity.
Qed.

(** When the environment asks for the dual mode and does not enable NEST,
    [main] starts no server and exits with status 1, whatever else the
    environment holds: [start_dual] refuses, and nothing falls back to the
    standalone mode. *)
Theorem dual_mode_needs_nest getenv int serve :
  _parse_bool (getenv_or getenv "NEST_DUAL_MODE" (lit "false")) = true ->
  _parse_bool (getenv_or getenv "NEST_ENABLED" (lit "false")) = false ->
  main getenv int serve = {| started := None; exit_status := Some 1%Z |}.
Proof.
  intros D E. unfold main, from_env.
  destruct (int _) as [port|e]; [|reflexivity].
  cbn [enable_dual_mode]. rewrite D.
  unfold start_dual, should_enable_nest. cbn [enable_nest]. rewrite E.
  reflexivity.
Qed.

End LauncherProperties.

(** * Further properties of the adapter *)

Module AdapterProperties.
Import Adapter EffectFacts.

Lemma step_rate a e :
  30 * update_status_calls (step a e) + elapsed (heartbeat (step a e))
  <= 30 * update_status_calls a + elapsed (heartbeat a)
     + (if is_tick e then 1 else 0).
Proof.
  destruct a as [hr run hb it us dr rc].
  destruct e as [raised| |];
    destruct hb as [| | |[|n]|];
    try destruct hr; try destruct run; try destruct raised;
    cbn [step _start_heartbeat tick stop_async loop_head with_heartbeat
         heartbeat update_status_calls has_registry_client _is_running
         elapsed is_tick negb];
    unfold heartbeat_interval; lia.
Qed.

Lemma run_rate es : forall a,
  30 * update_status_calls (run a es) + elapsed (heartbeat (run a es))
  <= 30 * update_status_calls a + elapsed (heartbeat a) + ticks es.
Proof.
  induction es as [|e es IH]; intros a; [unfold ticks; simpl; lia|].
  specialize (IH (step a e)). pose proof (step_rate a e) as S.
  change (run a (e :: es)) with (run (step a e) es).
  assert (T : ticks (e :: es) = (if is_tick e then 1 else 0) + ticks es).
  { unfold ticks. simpl. destruct (is_tick e); reflexivity. }
  rewrite T. lia.
Qed.

(** The heartbeat calls [update_status] at most once in 30 seconds: over
    any run of events, thirty times the number of new calls is at most 30
    plus the seconds that passed. *)
Theorem heartbeat_rate a es :
  30 * update_status_calls (run a es)
  <= 30 * update_status_calls a + 30 + ticks es.
Proof.
  pose proof (run_rate es a) as R.
  assert (elapsed (heartbeat a) <= 30).
  { destruct (heartbeat a); unfold elapsed, heartbeat_interval; lia. }
  lia.
Qed.

Lemma step_keeps_client a e :
  has_registry_client (step a e) = has_registry_client a.
Proof.
  destruct a as [hr run hb it us dr rc].
  destruct e as [raised| |]; simpl;
    destruct hb as [| | |[|n]|]; simpl;
    try destruct hr; try destruct run; try destruct raised; reflexivity.
Qed.

Lemma step_without_registry a e :
  has_registry_client a = false ->
  (heartbeat a = Created \/ heartbeat a = Finished) ->
  (heartbeat (step a e) = Created \/ heartbeat (step a e) = Finished)
  /\ update_status_calls (step a e) = update_status_calls a
  /\ deregister_calls (step a e) = deregister_calls a
  /\ iterations (step a e) = iterations a.
Proof.
  destruct a as [hr run hb it us dr rc]. simpl. intros -> H.
  destruct e as [raised| |]; destruct H as [-> | ->]; simpl;
    try destruct run; simpl; auto.
Qed.

(** An adapter without a registry client never contacts a registry: its
    heartbeat task ends the first time it runs, and no event makes it call
    [update_status] or [deregister] or enter the loop. *)
Theorem without_registry_no_calls a es :
  has_registry_client a = false -> heartbeat a = Created ->
  update_status_calls (run a es) = update_status_calls a
  /\ deregister_calls (run a es) = deregister_calls a
  /\ iterations (run a es) = iterations a
  /\ (forall raised, heartbeat (run a (Resume raised :: es)) = Finished).
Proof.
  intros R H.
  assert (G : forall es a,
            has_registry_client a = false ->
            (heartbeat a = Created \/ heartbeat a = Finished) ->
            (heartbeat (run a es) = Created \/ heartbeat (run a es) = Finished)
            /\ update_status_calls (run a es) = update_status_calls a
            /\ deregister_calls (run a es) = deregister_calls a
            /\ iterations (run a es) = iterations a).
  { clear. induction es as [|e es IH]; intros a R H; [simpl; auto|].
    destruct (step_without_registry a e R H) as (H1 & U1 & D1 & I1).
    change (run a (e :: es)) with (run (step a e) es).
    destruct (IH (step a e)) as (H2 & U2 & D2 & I2);
      [rewrite step_keeps_client; exact R | exact H1 |].
    repeat split; congruence. }
  destruct (G es a R (or_introl H)) as (_ & U & D & I).
  repeat split; try assumption.
  intros raised. change (run a (Resume raised :: es))
    with (run (_start_heartbeat raised a) es).
  assert (F : forall es b, has_registry_client b = false ->
                heartbeat b = Finished -> heartbeat (run b es) = Finished).
  { clear. induction es as [|e es IH]; intros b R H; [exact H|].
    change (run b (e :: es)) with (run (step b e) es). apply IH.
    - rewrite step_keeps_client. exact R.
    - destruct b as [hr run hb it us dr rc]. simpl in *. subst.
      destruct e as [raised| |]; simpl; try destruct run; reflexivity. }
  apply F.
  - rewrite <- R. apply (step_keeps_client a (Resume raised)).
  - unfold _start_heartbeat. rewrite H, R. reflexivity.
Qed.

Lemma step_finishes a e :
  heartbeat (step a e) = Finished ->
  heartbeat a = Finished \/ has_registry_client a = false
  \/ _is_running (step a e) = false.
Proof.
  destruct a as [hr run hb it us dr rc].
  destruct e as [raised| |]; simpl;
    destruct hb as [| | |[|n]|]; simpl;
    try destruct hr; try destruct run; try destruct raised; simpl;
    intros; try discriminate; auto.
Qed.

(** The heartbeat task of an adapter with a registry client ends only when
    the adapter has been stopped: an exception in the health check or in
    the update leads to the sleep, not out of the loop. *)
Theorem heartbeat_ends_only_when_stopped a es :
  heartbeat (run a es) = Finished ->
  heartbeat a = Finished \/ has_registry_client a = false
  \/ _is_running (run a es) = false.
Proof.
  revert a. induction es as [|e es IH]; intros a H; [auto|].
  change (run a (e :: es)) with (run (step a e) es) in *.
  destruct (IH (step a e) H) as [F|[C|R]].
  - destruct (step_finishes a e F) as [F'|[C'|R']]; auto.
    right. right. apply (AdapterTheorems.run_stopped es (step a e) R').
  - rewrite step_keeps_client in C. auto.
  - auto.
Qed.

Lemma run_stopped_deregister es : forall a,
  _is_running a = false -> deregister_calls (run a es) = deregister_calls a.
Proof.
  induction es as [|e es IH]; intros a R; [reflexivity|].
  change (run a (e :: es)) with (run (step a e) es).
  destruct (AdapterTheorems.step_stopped a e R) as (R1 & _).
  rewrite (IH _ R1).
  destruct a as [hr run hb it us dr rc]. simpl in R. subst.
  destruct e as [raised| |]; simpl;
    destruct hb as [| | |[|n]|]; simpl;
    try destruct hr; try destruct raised; reflexivity.
Qed.

(** [stop_async] is idempotent, and however many times it is called in a
    run, [deregister] is called at most once; it is called exactly once
    when a running adapter with a registry client is stopped. *)
Theorem deregister_at_most_once a es :
  stop_async (stop_async a) = stop_async a
  /\ deregister_calls (run a es) <= S (deregister_calls a)
  /\ (has_registry_client a = true -> _is_running a = true -> In Stop es ->
      deregister_calls (run a es) = S (deregister_calls a)).
Proof.
  split; [|split].
  - unfold stop_async. destruct (_is_running a) eqn:R; simpl; [reflexivity|].
    rewrite R. reflexivity.
  - revert a. induction es as [|e es IH]; intros a; [simpl; lia|].
    change (run a (e :: es)) with (run (step a e) es).
    destruct e as [raised| |].
    + specialize (IH (step a (Resume raised))).
      assert (deregister_calls (step a (Resume raised)) = deregister_calls a).
      { destruct a as [hr run hb it us dr rc]. simpl.
        destruct hb as [| | |[|n]|]; simpl;
          try destruct hr; try destruct run; try destruct raised; reflexivity. }
      lia.
    + specialize (IH (step a Tick)).
      assert (deregister_calls (step a Tick) = deregister_calls a).
      { destruct a as [hr run hb it us dr rc]. simpl.
        destruct hb as [| | |[|n]|]; reflexivity. }
      lia.
    + rewrite (run_stopped_deregister es (step a Stop)
                 (AdapterTheorems.stop_async_stops a)).
      simpl. unfold stop_async. destruct (_is_running a); simpl; [|lia].
      destruct (has_registry_client a); lia.
  - revert a. induction es as [|e es IH]; intros a C R I; [contradiction|].
    change (run a (e :: es)) with (run (step a e) es).
    destruct e as [raised| |].
    + destruct I as [I|I]; [discriminate|].
      rewrite IH; auto.
      * destruct a as [hr run hb it us dr rc]. simpl.
        destruct hb as [| | |[|n]|]; simpl;
          try destruct hr; try destruct run; try destruct raised; reflexivity.
      * rewrite step_keeps_client. exact C.
      * destruct a as [hr run hb it us dr rc]. simpl in *. subst.
        destruct hb as [| | |[|n]|]; simpl; try destruct raised; reflexivity.
    + destruct I as [I|I]; [discriminate|].
      rewrite IH; auto.
      * destruct a as [hr run hb it us dr rc]. simpl.
        destruct hb as [| | |[|n]|]; reflexivity.
      * rewrite step_keeps_client. exact C.
      * destruct a as [hr run hb it us dr rc]. simpl in *. subst.
        destruct hb as [| | |[|n]|]; reflexivity.
    + rewrite (run_stopped_deregister es (step a Stop)
                 (AdapterTheorems.stop_async_stops a)).
      simpl. unfold stop_async. rewrite R, C. reflexivity.
Qed.

Section Logic.
Variable F : float_ops.
Variable net : network.
Variables now new_conversation_id : str.
Variable perform_complete_analysis : str -> str -> res (StockAnalysis F).
Variable str_of_value : pyval -> str.
Variable config : Config.NESTConfig.

Lemma prefix_of_app_r (a s t : str) :
  prefix_of a s = true -> prefix_of a (s ++ t) = true.
Proof.
  revert s. induction a as [|x a IH]; intros s H; [reflexivity|].
  destruct s as [|y s]; [discriminate|]. simpl in *.
  apply andb_true_iff in H. destruct H as [H1 H2].
  rewrite H1. simpl. apply IH, H2.
Qed.

Lemma tagged_join tag parts :
  match parts with first :: _ => prefix_of tag first = true | [] => False end ->
  prefix_of tag (join newline parts) = true.
Proof.
  destruct parts as [|first rest]; [contradiction|]. intros H.
  destruct rest; simpl; [exact H | apply prefix_of_app_r, H].
Qed.

(** [agent_logic] never raises, and an ASCII message without a mention is
    answered with a text that begins with the tag of the agent.  (The word
    class of the mention pattern is the ASCII one here, so the second part
    is about ASCII messages.) *)
Theorem agent_logic_answers message conversation_id :
  never_raises (agent_logic net now new_conversation_id
                  perform_complete_analysis str_of_value config
                  message conversation_id)
  /\ (is_ascii_str message = true ->
      fst (Bridge.parse_agent_mention message) = None ->
      forall w, exists text,
        fst (agent_logic net now new_conversation_id perform_complete_analysis
               str_of_value config message conversation_id w)
        = Ok (PStr text)
        /\ prefix_of (lit "[" ++ Config.agent_id config ++ lit "]") text = true).
Proof.
  split.
  - unfold agent_logic. apply safe_try. intros e. apply safe_ret.
  - intros _ H w.
    destruct (BridgeProperties.local_response F net now new_conversation_id
                perform_complete_analysis (bridge config)
                message conversation_id None w H) as (parts & w' & E & T).
    unfold agent_logic, try_except, bind. rewrite E.
    exists (join newline parts). split; [reflexivity|].
    apply tagged_join. exact T.
Qed.

(** Without a registry client [_register_with_registry] reports success
    and does nothing; with one it is [register_agent] for the public URL,
    the capabilities and five entries of the configuration, and the public
    URL is that of localhost when none is configured. *)
Theorem register_with_registry_outcome w :
  match registry_client config with
  | None => _register_with_registry net now config w = (Ok true, w)
  | Some client =>
    _register_with_registry net now config w
    = Registry.register_agent net now client
        (Config.public_url_or_localhost config) (Config.capabilities config)
        (registration_metadata config) w
  end
  /\ (Config.public_url config = None ->
      Config.public_url_or_localhost config
      = lit "http://localhost:" ++ Bridge.show_Z (Config.nest_port config)).
Proof.
  split.
  - unfold _register_with_registry. destruct (registry_client config) as [client|];
      [|reflexivity].
    unfold try_except, bind, lift.
    replace (py_getitem (lit "agent_name") (PDict (Config.get_agent_metadata config)))
      with (Ok (PStr (Config.agent_name config))) by reflexivity.
    replace (py_getitem (lit "domain") (PDict (Config.get_agent_metadata config)))
      with (Ok (PStr (Config.domain config))) by reflexivity.
    replace (py_getitem (lit "specialization")
               (PDict (Config.get_agent_metadata config)))
      with (Ok (PStr (Config.specialization config))) by reflexivity.
    replace (py_getitem (lit "description")
               (PDict (Config.get_agent_metadata config)))
      with (Ok (PStr (Config.description config))) by reflexivity.
    replace (py_getitem (lit "version") (PDict (Config.get_agent_metadata config)))
      with (Ok (PStr (Config.version config))) by reflexivity.
    destruct (RegistryTheorems.register_agent_spec net now client
                (Config.public_url_or_localhost config) (Config.capabilities config)
                (registration_metadata config) w) as (b & w' & E & _).
    unfold registration_metadata, public_url in *. rewrite E. reflexivity.
  - intros H. unfold Config.public_url_or_localhost. rewrite H. reflexivity.
Qed.

End Logic.

End AdapterProperties.

(** * Further properties of the message formats *)

Module CodecProperties.

(** Both formatters produce messages that [parse_a2a_message] reads back:
    the query is the response text, which begins with the tag of the
    agent, and the conversation id is the one given.  The parent message id
    is not read back: the parsed message id and sender are [None] and the
    metadata empty. *)
Theorem responses_parse_back (F : float_ops) (analysis : StockAnalysis F)
    (error_message conversation_id agent_id : str)
    (parent_message_id error_code : option str) (suggestions : list str) :
  exists text_a text_e,
    parse_a2a_message
      (format_analysis_response analysis conversation_id parent_message_id agent_id)
    = Ok (Parsed (PStr text_a) (PStr conversation_id) PNone PNone (PDict []))
    /\ parse_a2a_message
         (format_error_response error_message conversation_id parent_message_id
            agent_id error_code suggestions)
       = Ok (Parsed (PStr text_e) (PStr conversation_id) PNone PNone (PDict []))
    /\ prefix_of (lit "[" ++ agent_id ++ lit "] " ++ company_name analysis
                  ++ lit " (" ++ ticker analysis ++ lit ") Analysis:") text_a = true
    /\ prefix_of (lit "[" ++ agent_id ++ lit "]" ++ cross_error ++ error_message)
         text_e = true.
Proof.
  unfold format_analysis_response, format_error_response.
  rewrite !CodecTheorems.parse_a2a_response.
  eexists _, _. split; [reflexivity|]. split; [reflexivity|].
  split.
  - cbn [app]. 
    match goal with |- prefix_of ?a (join _ (?a :: ?b :: ?r)) = true =>
      change (join newline (a :: b :: r)) with (a ++ newline ++ join newline (b :: r)) end.
    apply BridgeProperties.prefix_of_app.
  - match goal with |- prefix_of ?a (join _ ([?a] ++ ?r)) = true =>
      generalize r; intros rest
    end.
    destruct rest as [|line rest].
    + cbn [app join].
      match goal with |- prefix_of ?a _ = true =>
        rewrite <- (app_nil_r a) at 2
      end.
      apply BridgeProperties.prefix_of_app.
    + match goal with |- prefix_of ?a _ = true =>
        change (prefix_of a (a ++ newline ++ join newline (line :: rest)) = true)
      end.
      apply BridgeProperties.prefix_of_app.
Qed.

End CodecProperties.

(** * The properties at the scenarios *)

Module PropertyExamples.
Import Registry Bridge Adapter Scenario.

Lemma local_query_answered_witness :
  exists d w',
    ask lone_bridge (always 404 PNone) (lit "analyze AAPL") fresh
    = (Ok (PDict d), w')
    /\ sent w' = sent fresh /\ registered w' = registered fresh
    /\ dict_get (lit "role") d = Some (PStr (lit "agent"))
    /\ dict_get (lit "conversation_id") d = Some (PStr (lit "conv-123"))
    /\ dict_get (lit "parent_message_id") d = Some (PStr (lit "msg-456")).
Proof.
  apply (BridgeProperties.local_query_answered floats (always 404 PNone) now
           (lit "conv-20241112-103045-abc12345") recommends_buy lone_bridge
           (lit "analyze AAPL") (lit "conv-123") (Some (lit "msg-456")) fresh).
  - reflexivity.
  - vm_compute. reflexivity.
Defined.

Lemma mention_without_registry_witness :
  ask lone_bridge (always 200 ok_body) mention_query fresh
  = (Ok (PDict (format_error_response
                  (lit "Cannot send messages to other agents without registry configuration")
                  (lit "conv-123") (Some (lit "msg-456")) (lit "stock-agent")
                  (Some (lit "AGENT_COMMUNICATION_ERROR"))
                  (forwarding_suggestions (lit "financial-advisor")))),
     emit processing fresh).
Proof.
  apply (BridgeProperties.mention_without_registry floats (always 200 ok_body) now
           (lit "conv-20241112-103045-abc12345") recommends_buy lone_bridge
           mention_query (lit "conv-123") (Some (lit "msg-456"))
           (lit "financial-advisor") (lit "Should I buy AAPL?") fresh).
  - reflexivity.
  - vm_compute. reflexivity.
Defined.

Lemma mention_of_unknown_agent_witness :
  fst (ask linked_bridge (always 404 PNone) mention_query fresh)
  = Ok (PDict (format_error_response
                 (lit "Agent 'financial-advisor' is not registered in the NANDA network")
                 (lit "conv-123") (Some (lit "msg-456")) (lit "stock-agent")
                 (Some (lit "AGENT_COMMUNICATION_ERROR"))
                 (forwarding_suggestions (lit "financial-advisor"))))
  /\ sent (snd (ask linked_bridge (always 404 PNone) mention_query fresh)) = 1.
Proof.
  pose proof (BridgeProperties.mention_of_unknown_agent floats (always 404 PNone)
                now (lit "conv-20241112-103045-abc12345") recommends_buy
                linked_bridge
                (Registry.__init__ (lit "http://registry:6900/") (lit "stock-agent") 3 1)
                mention_query (lit "conv-123") (Some (lit "msg-456"))
                (lit "financial-advisor") (lit "Should I buy AAPL?") fresh
                eq_refl) as H.
  cbv zeta in H. unfold ask. rewrite H.
  - split; reflexivity.
  - vm_compute. reflexivity.
  - vm_compute. reflexivity.
Defined.

Lemma malformed_metadata_answered_witness :
  exists detail,
    handle_a2a_message (always 404 PNone) now
      (lit "conv-20241112-103045-abc12345") recommends_buy lone_bridge
      odd_message fresh
    = (Ok (PDict (format_error_response
                    (lit "Failed to process message: " ++ detail)
                    (lit "conv-123") None (lit "stock-agent")
                    (Some (lit "MESSAGE_PROCESSING_ERROR")) [])),
       fresh).
Proof.
  exact (BridgeProperties.malformed_metadata_answered floats (always 404 PNone) now
           (lit "conv-20241112-103045-abc12345") recommends_buy lone_bridge
           odd_message (PStr (lit "from advisor")) fresh eq_refl eq_refl).
Defined.

Lemma from_env_capabilities_witness :
  exists c,
    Config.from_env nest_env int = Ok c
    /\ Config.capabilities c = [lit "quotes"; lit "news"]
    /\ Config.should_enable_nest c = true.
Proof.
  eexists. split; [reflexivity|]. split; [reflexivity|].
  match goal with |- Config.should_enable_nest ?c = true =>
    destruct (ConfigProperties.from_env_capabilities nest_env int c eq_refl)
      as (_ & _ & _ & S & _)
  end.
  apply S. repeat split; try discriminate; simpl; lia.
Defined.

Lemma dual_mode_needs_nest_witness :
  Launcher.main dual_only int serves
  = {| Launcher.started := None; Launcher.exit_status := Some 1%Z |}.
Proof.
  apply LauncherProperties.dual_mode_needs_nest; reflexivity.
Defined.

Lemma without_registry_no_calls_witness :
  update_status_calls
    (run offline_adapter (Resume false :: repeat Tick 30 ++ [Resume false; Stop])) = 0
  /\ deregister_calls
       (run offline_adapter (Resume false :: repeat Tick 30 ++ [Resume false; Stop])) = 0.
Proof.
  destruct (AdapterProperties.without_registry_no_calls offline_adapter
              (Resume false :: repeat Tick 30 ++ [Resume false; Stop])
              eq_refl eq_refl) as (U & D & _).
  split; [exact U | exact D].
Defined.

Lemma heartbeat_ends_only_when_stopped_witness :
  heartbeat sleeping_adapter = Finished
  \/ has_registry_client sleeping_adapter = false
  \/ _is_running
       (run sleeping_adapter (Stop :: repeat Tick 30 ++ [Resume true])) = false.
Proof.
  apply AdapterProperties.heartbeat_ends_only_when_stopped. reflexivity.
Defined.

Lemma backoff_delays_witness :
  (total (sleeps_of (snd (_make_request (always 500 PNone) client (lit "GET")
                            (lit "/agents") None 0 fresh))) <= 7)%Z.
Proof.
  destruct (RegistryProperties.backoff_delays (always 500 PNone) client
              (lit "GET") (lit "/agents") None fresh) as (n & _ & _ & _ & H).
  apply H. vm_compute. discriminate.
Defined.

Lemma deregister_flag_witness :
  deregister (always 500 PNone) client fresh = (Ok true, fresh).
Proof.
  apply (proj1 (RegistryProperties.deregister_flag (always 500 PNone) client fresh)).
  reflexivity.
Defined.

Lemma get_agent_info_lookup_witness :
  exists info,
    fst (get_agent_info (always 200 ok_body) client (lit "financial-advisor") fresh)
    = Ok info
    /\ truthy info = true.
Proof.
  destruct (RegistryProperties.get_agent_info_lookup (always 200 ok_body) client
              (lit "financial-advisor") fresh) as (info & w1 & E & _ & T).
  exists info. rewrite E. split; [reflexivity|]. apply T.
  vm_compute in E. intros N. rewrite N in E. discriminate E.
Defined.

Lemma should_enable_nest_iff_witness :
  exists c,
    Config.from_env nest_env int = Ok c
    /\ Config.should_enable_nest c = true
    /\ Config.validate Config.defaults = (true, []).
Proof.
  eexists. split; [reflexivity|]. split.
  - apply (proj1 (ConfigProperties.should_enable_nest_iff _)).
    repeat split; try discriminate; simpl; lia.
  - apply (proj2 (proj2 (ConfigProperties.should_enable_nest_iff Config.defaults))).
    reflexivity.
Defined.

Lemma deregister_at_most_once_witness :
  deregister_calls (run sleeping_adapter [Stop; Tick; Stop]) = 1.
Proof.
  apply (proj2 (proj2 (AdapterProperties.deregister_at_most_once sleeping_adapter
                         [Stop; Tick; Stop]))).
  - reflexivity.
  - reflexivity.
  - simpl. auto.
Defined.

Lemma agent_logic_answers_witness :
  exists text,
    fst (agent_logic (always 404 PNone) now (lit "conv-20241112-103045-abc12345")
           recommends_buy (fun _ => lit "{}") Config.defaults
           (lit "analyze AAPL") (lit "conv-123") fresh)
    = Ok (PStr text)
    /\ prefix_of (lit "[nasdaq-stock-agent]") text = true.
Proof.
  apply (proj2 (AdapterProperties.agent_logic_answers floats (always 404 PNone) now
                  (lit "conv-20241112-103045-abc12345") recommends_buy
                  (fun _ => lit "{}") Config.defaults
                  (lit "analyze AAPL") (lit "conv-123"))).
  - reflexivity.
  - vm_compute. reflexivity.
Defined.

Lemma register_with_registry_outcome_witness :
  Config.public_url_or_localhost Config.defaults = lit "http://localhost:6000".
Proof.
  apply (proj2 (AdapterProperties.register_with_registry_outcome
                  (always 404 PNone) now Config.defaults fresh)).
  reflexivity.
Defined.

End PropertyExamples.
